(** * Azure Media Services v3 sample scripts: a shallow embedding

    The repository holds three sequential scripts that drive the Azure Media
    Services management client:

    - [AnalyzeVideoAndAudios/Program.py]  (module [AnalyzeVideoAndAudios]),
    - [EncryptWithAES/Program.py]         (module [EncryptWithAES]),
    - [Live/Program.py]                   (module [Live]).

    Every method of the three [Program] classes is a straight-line sequence
    of calls on [self.client], on the blob service and on the Python runtime
    (print, sleep, input, uuid, clock).  The embedding keeps that shape: a
    method is a computation in the monad [M], which threads the state of
    the outside world and a log of every call with its answer.  A call on
    the remote service either answers or raises; [while True] loops take
    fuel, and running out of fuel is the outcome [Running]: the script has
    not returned yet. *)

From Stdlib Require Import Ascii String ZArith Lia.
From stdpp Require Import base option list strings gmap pretty.


(** ** Data model: the classes of [azure.mgmt.media.models] the scripts use

    The SDK uses one class for the body a script sends and for the resource
    the service returns.  The fields the service fills in ([name], [state],
    [resource_state], endpoints) are read only on returned resources, so a
    body and a returned resource are separate records here. *)


(** [JobState], all values of the SDK enumeration. *)
Inductive JobState :=
| canceled | canceling | error | finished | processing | queued | scheduled.

#[global] Instance JobState_eq_dec : EqDecision JobState.
Proof. solve_decision. Defined.

Definition JobState_str (s : JobState) : string :=
  match s with
  | canceled => "Canceled" | canceling => "Canceling" | error => "Error"
  | finished => "Finished" | processing => "Processing"
  | queued => "Queued" | scheduled => "Scheduled"
  end.

Record JobOutput := mkJobOutput {
  JobOutput_state : JobState;
  JobOutput_progress : nat }.

Record Job := mkJob {
  Job_name : string;
  Job_state : JobState;
  Job_outputs : list JobOutput }.

(** Body of [jobs.create]: [Job(input = JobInputAsset(asset_name = ..),
    outputs = [JobOutputAsset(asset_name = ..)])]. *)
Record JobInputAsset := mkJobInputAsset {
  JobInputAsset_asset_name : string }.
Record JobOutputAsset := mkJobOutputAsset {
  JobOutputAsset_asset_name : string }.
Record JobBody := mkJobBody {
  JobBody_input : JobInputAsset;
  JobBody_outputs : list JobOutputAsset }.

(** [Asset()]: a body with no field set, and the returned asset. *)
Variant AssetBody := Asset_new.
Record Asset := mkAsset {
  Asset_name : string }.

Variant AssetContainerPermission := read | read_write.
Record AssetContainerSas := mkAssetContainerSas {
  AssetContainerSas_asset_container_sas_urls : list string }.

Variant EncoderNamedPreset := adaptive_streaming.
Inductive Preset :=
| VideoAnalyzerPreset (audio_language : string)
| AudioAnalyzerPreset (audio_language : string)
| BuiltInStandardEncoderPreset (preset_name : EncoderNamedPreset).

Record TransformOutput := mkTransformOutput {
  TransformOutput_preset : Preset }.
Record Transform := mkTransform {
  Transform_name : string;
  Transform_outputs : list TransformOutput }.

Variant StreamingEndpointResourceState :=
| se_stopped | se_starting | se_running | se_stopping | se_deleting | se_scaling.
#[global] Instance StreamingEndpointResourceState_eq_dec :
  EqDecision StreamingEndpointResourceState.
Proof. solve_decision. Defined.

Record StreamingEndpoint := mkStreamingEndpoint {
  StreamingEndpoint_resource_state : StreamingEndpointResourceState;
  StreamingEndpoint_host_name : string }.

Variant StreamingPolicyStreamingProtocol := hls | dash | download | smooth_streaming.
#[global] Instance StreamingPolicyStreamingProtocol_eq_dec :
  EqDecision StreamingPolicyStreamingProtocol.
Proof. solve_decision. Defined.
Definition StreamingPolicyStreamingProtocol_str
    (p : StreamingPolicyStreamingProtocol) : string :=
  match p with
  | hls => "Hls" | dash => "Dash" | download => "Download"
  | smooth_streaming => "SmoothStreaming"
  end.

Variant EncryptionScheme := no_encryption | envelope_encryption
                          | common_encryption_cenc | common_encryption_cbcs.
Definition EncryptionScheme_str (s : EncryptionScheme) : string :=
  match s with
  | no_encryption => "NoEncryption" | envelope_encryption => "EnvelopeEncryption"
  | common_encryption_cenc => "CommonEncryptionCenc"
  | common_encryption_cbcs => "CommonEncryptionCbcs"
  end.

Record StreamingPath := mkStreamingPath {
  StreamingPath_streaming_protocol : StreamingPolicyStreamingProtocol;
  StreamingPath_encryption_scheme : EncryptionScheme;
  StreamingPath_paths : list string }.
Record ListPathsResponse := mkListPathsResponse {
  ListPathsResponse_streaming_paths : list StreamingPath }.

Record StreamingLocatorContentKey := mkStreamingLocatorContentKey {
  StreamingLocatorContentKey_id : string }.
Record StreamingLocator := mkStreamingLocator {
  StreamingLocator_name : string;
  StreamingLocator_content_keys : list StreamingLocatorContentKey }.
(** Body of [streaming_locators.create]. *)
Record StreamingLocatorBody := mkStreamingLocatorBody {
  StreamingLocatorBody_asset_name : string;
  StreamingLocatorBody_streaming_policy_name : string;
  StreamingLocatorBody_default_content_key_policy_name : option string }.

(** Content key policy: the one option the encrypt script builds. *)
Variant ContentKeyPolicyRestrictionTokenType := jwt | swt.
Record ContentKeyPolicyTokenClaim := mkContentKeyPolicyTokenClaim {
  ContentKeyPolicyTokenClaim_claim_type : string;
  ContentKeyPolicyTokenClaim_claim_value : option string }.
Record ContentKeyPolicyTokenRestriction := mkContentKeyPolicyTokenRestriction {
  ContentKeyPolicyTokenRestriction_issuer : string;
  ContentKeyPolicyTokenRestriction_audience : string;
  ContentKeyPolicyTokenRestriction_primary_verification_key : list Byte.byte;
  ContentKeyPolicyTokenRestriction_restriction_token_type : ContentKeyPolicyRestrictionTokenType;
  ContentKeyPolicyTokenRestriction_alternate_verification_keys : option (list (list Byte.byte));
  ContentKeyPolicyTokenRestriction_required_claims : list ContentKeyPolicyTokenClaim }.
Variant ContentKeyPolicyConfiguration := ContentKeyPolicyClearKeyConfiguration.
Record ContentKeyPolicyOption := mkContentKeyPolicyOption {
  ContentKeyPolicyOption_configuration : ContentKeyPolicyConfiguration;
  ContentKeyPolicyOption_restriction : ContentKeyPolicyTokenRestriction }.
Record ContentKeyPolicy := mkContentKeyPolicy {
  ContentKeyPolicy_name : string }.

(** Live events. *)
Variant LiveEventResourceState :=
| le_stopped | le_starting | le_running | le_stopping | le_deleting.
#[global] Instance LiveEventResourceState_eq_dec : EqDecision LiveEventResourceState.
Proof. solve_decision. Defined.

Variant LiveEventEncodingType := enc_none | enc_basic | enc_standard.
Variant LiveEventInputProtocol := fragmented_mp4 | rtmp.
Variant StreamOptionsFlag := default | low_latency.

Record IPRange := mkIPRange {
  IPRange_name : string;
  IPRange_address : string;
  IPRange_subnet_prefix_length : nat }.
Record IPAccessControl := mkIPAccessControl {
  IPAccessControl_allow : list IPRange }.
Record LiveEventEndpoint := mkLiveEventEndpoint {
  LiveEventEndpoint_url : string }.
Record LiveEventEncoding := mkLiveEventEncoding {
  LiveEventEncoding_encoding_type : LiveEventEncodingType;
  LiveEventEncoding_preset_name : option string }.
(** Body of [live_events.create]: the fields [create_live_event] sets. *)
Record LiveEventBody := mkLiveEventBody {
  LiveEventBody_location : string;
  LiveEventBody_description : string;
  LiveEventBody_vanity_url : bool;
  LiveEventBody_encoding : LiveEventEncoding;
  LiveEventBody_input_streaming_protocol : LiveEventInputProtocol;
  LiveEventBody_input_access_control : IPAccessControl;
  LiveEventBody_preview_access_control : IPAccessControl;
  LiveEventBody_stream_options : list StreamOptionsFlag }.
Record LiveEventInput := mkLiveEventInput {
  LiveEventInput_endpoints : list LiveEventEndpoint }.
Record LiveEventPreview := mkLiveEventPreview {
  LiveEventPreview_endpoints : list LiveEventEndpoint }.
Record LiveEvent := mkLiveEvent {
  LiveEvent_resource_state : LiveEventResourceState;
  LiveEvent_input : LiveEventInput;
  LiveEvent_preview : LiveEventPreview }.

Record LiveOutputBody := mkLiveOutputBody {
  LiveOutputBody_asset_name : string;
  LiveOutputBody_manifest_name : string;
  LiveOutputBody_archive_window_length : Z (* microseconds *) }.
Record LiveOutput := mkLiveOutput {
  LiveOutput_name : string }.

Record MediaService := mkMediaService {
  MediaService_location : string }.


(** [datetime] values and [timedelta]s in microseconds. *)
Definition datetime := Z.
Definition timedelta (hours minutes : Z) : Z :=
  ((hours * 3600 + minutes * 60) * 1000000)%Z.

(** A blob as [list_blobs] yields it. *)
Record Blob := mkBlob {
  Blob_name : string }.

(** [urllib.parse.urlparse] result, the components the scripts read. *)
Record ParseResult := mkParseResult {
  ParseResult_netloc : string;
  ParseResult_path : string;
  ParseResult_query : string }.


(** ** The outside world: calls, answers and the log *)

(** Python exceptions.  [ApiErrorException] is the class the live script
    catches; the remote client can raise other classes too. *)
Inductive exn :=
| ApiErrorException (message : string)
| AttributeError (message : string)
| IndexError (message : string)
| OSError (message : string)
| OtherException (class_name message : string).

(** Methods of [self.client], an [AzureMediaServices] object.  Every
    operation takes the resource group and the account name first.  The
    [get] operations answer [None] when the entity does not exist. *)
Inductive media_call : Type -> Type :=
| mediaservices_get (rg acct : string) : media_call (option MediaService)
| assets_get (rg acct name : string) : media_call (option Asset)
| assets_create_or_update (rg acct name : string) (asset : AssetBody)
  : media_call Asset
| assets_list (rg acct : string) : media_call (list Asset)
| assets_delete (rg acct name : string) : media_call unit
| assets_list_container_sas (rg acct name : string)
    (permissions : AssetContainerPermission) (expiry_time : datetime)
  : media_call AssetContainerSas
| transforms_get (rg acct name : string) : media_call (option Transform)
| transforms_create_or_update (rg acct name : string)
    (outputs : list TransformOutput) : media_call Transform
| jobs_create (rg acct transform job_name : string) (job : JobBody)
  : media_call Job
| jobs_get (rg acct transform job_name : string) : media_call (option Job)
| jobs_list (rg acct transform : string) : media_call (list Job)
| jobs_delete (rg acct transform job_name : string) : media_call unit
| content_key_policies_get (rg acct name : string)
  : media_call (option ContentKeyPolicy)
| content_key_policies_create_or_update (rg acct name : string)
    (options : list ContentKeyPolicyOption) : media_call ContentKeyPolicy
| content_key_policies_delete (rg acct name : string) : media_call unit
| streaming_locators_create (rg acct name : string)
    (locator : StreamingLocatorBody) : media_call StreamingLocator
| streaming_locators_list (rg acct : string) : media_call (list StreamingLocator)
| streaming_locators_delete (rg acct name : string) : media_call unit
| streaming_locators_list_paths (rg acct name : string)
  : media_call ListPathsResponse
| streaming_endpoints_get (rg acct name : string)
  : media_call (option StreamingEndpoint)
| streaming_endpoints_start (rg acct name : string) : media_call unit
| streaming_endpoints_stop (rg acct name : string) : media_call unit
| streaming_endpoints_delete (rg acct name : string) : media_call unit
| live_events_create (rg acct name : string) (live_event : LiveEventBody)
    (auto_start : bool) : media_call LiveEvent
| live_events_get (rg acct name : string) : media_call (option LiveEvent)
| live_events_stop (rg acct name : string) (remove_outputs_on_stop : bool)
  : media_call unit
| live_events_delete (rg acct name : string) : media_call unit
| live_outputs_create (rg acct live_event_name live_output_name : string)
    (live_output : LiveOutputBody) : media_call LiveOutput.

(** [BlockBlobService(account_name = .., sas_token = ..)] and its methods. *)
Record BlockBlobService := mkBlockBlobService {
  BlockBlobService_account_name : string;
  BlockBlobService_sas_token : string }.

Inductive blob_call : Type -> Type :=
| create_blob_from_path (svc : BlockBlobService)
    (container_name blob_name file_path : string) : blob_call unit
| list_blobs (svc : BlockBlobService) (container_name : string)
  : blob_call (list Blob)
| get_blob_to_path (svc : BlockBlobService)
    (container_name blob_name file_path : string) : blob_call unit.

(** Calls that can raise: the remote API, which is the media client and
    the blob client; [os.makedirs] and [os.getcwd], which raise [OSError];
    [urllib.parse.urlparse], which raises [ValueError] on a malformed
    network location; and [input], which raises [EOFError] at the end of
    the standard input and [KeyboardInterrupt] when the operator
    interrupts the prompt. *)
Inductive request : Type -> Type :=
| Media {R} (c : media_call R) : request R
| Storage {R} (c : blob_call R) : request R
| os_makedirs (path : string) : request unit
| os_getcwd : request string
| parse_urlparse (url : string) : request ParseResult
| py_input (prompt : string) : request string.

(** A value in the payload dictionary of [get_token]. *)
Inductive claim :=
| claim_str (s : string)
| claim_datetime (t : datetime).

(** Calls on the Python runtime and on pure libraries, which answer. *)
Inductive sys_call : Type -> Type :=
| py_print (line : string) : sys_call unit
| time_sleep (seconds : nat) : sys_call unit
| uuid_uuid1 : sys_call string                (* [str(uuid.uuid1())] *)
| address_of_uuid1 : sys_call string          (* hex digits of [id(uuid.uuid1)] *)
| datetime_utcnow : sys_call datetime
| os_path_exists (path : string) : sys_call bool
| os_urandom (n : nat) : sys_call (list Byte.byte)
| config_get (key : string) : sys_call string (* [config['DEFAULT'][key]] *)
| jwt_encode (payload : gmap string claim) (key : list Byte.byte)
    (algorithm : string) : sys_call string.   (* [jwt.encode(..).decode('utf-8')] *)

(** The log: every call with its answer, and every entry into a method of
    [Program], as a mock of the client and a spy on the methods record
    them. *)
Inductive event :=
| Call {R} (q : request R) (r : exn + R)
| Sys {R} (q : sys_call R) (r : R)
| Enter (method : string).

(** An environment answers the calls, and changes with them. *)
Class Env (W : Type) := {
  handle : forall R, request R -> W -> (exn + R) * W;
  runtime : forall R, sys_call R -> W -> R * W }.
Arguments handle {W _ R} q w.
Arguments runtime {W _ R} q w.

(** ** The monad of scripts *)

Inductive outcome (A : Type) :=
| Return (a : A)
| Raise (e : exn)
| Running.
Arguments Return {A} a.
Arguments Raise {A} e.
Arguments Running {A}.

(** A script takes the world and gives its outcome, the world it leaves
    and the events it logged, oldest first. *)
Definition result (W A : Type) : Type := outcome A * W * list event.
Definition M (W A : Type) : Type := W -> result W A.

Definition outcome_of {W A} (r : result W A) : outcome A := r.1.1.
Definition world_of {W A} (r : result W A) : W := r.1.2.
Definition log {W A} (r : result W A) : list event := r.2.

(** [after tr r]: the result [r] of a continuation, behind the events
    [tr] logged before it. *)
Definition after {W A} (tr : list event) (r : result W A) : result W A :=
  let '(o, w, tr') := r in (o, w, tr ++ tr').

Definition ret {W A} (a : A) : M W A := fun w => (Return a, w, []).

Definition bind {W A B} (m : M W A) (k : A -> M W B) : M W B :=
  fun w =>
    match m w with
    | (Return a, w', tr) => after tr (k a w')
    | (Raise e, w', tr) => (Raise e, w', tr)
    | (Running, w', tr) => (Running, w', tr)
    end.

Definition raise {W A} (e : exn) : M W A := fun w => (Raise e, w, []).

(** Fuel ran out inside a [while True] loop. *)
Definition still_running {W A} : M W A := fun w => (Running, w, []).

#[global] Instance M_ret {W} : MRet (M W) := @ret W.
#[global] Instance M_bind {W} : MBind (M W) := fun A B k m => bind m k.

(** What a call gives the script: the value, or the exception raised. *)
Definition answer {A} (r : exn + A) : outcome A :=
  match r with
  | inl e => Raise e
  | inr a => Return a
  end.

Section Operations.
Context {W : Type} `{Env W}.

Definition call {R} (q : request R) : M W R :=
  fun w => let '(r, w') := handle q w in (answer r, w', [Call q r]).

Definition sys {R} (q : sys_call R) : M W R :=
  fun w => let '(r, w') := runtime q w in (Return r, w', [Sys q r]).

Definition enter (method : string) : M W unit :=
  fun w => (Return tt, w, [Enter method]).

Definition media {R} (c : media_call R) : M W R := call (Media c).
Definition storage {R} (c : blob_call R) : M W R := call (Storage c).
Definition print (line : string) : M W unit := sys (py_print line).

(** [for x in xs: body]. *)
Fixpoint for_each {A} (xs : list A) (body : A -> M W unit) : M W unit :=
  match xs with
  | [] => ret tt
  | x :: xs' => body x;; for_each xs' body
  end.

(** [for x in xs:] with local variables [acc] updated by the body. *)
Fixpoint for_fold {A S} (xs : list A) (acc : S) (body : S -> A -> M W S) : M W S :=
  match xs with
  | [] => ret acc
  | x :: xs' => acc' ← body acc x; for_fold xs' acc' body
  end.

(** [try: body / except ApiErrorException as ex: handler ex / finally: fin].
    The handler runs for [ApiErrorException] only; [fin] runs on each way
    out of the body or the handler, and an exception of [fin] replaces the
    pending one.  A body that is still running has not reached [fin]. *)
Definition try_except_finally {A} (body : M W A) (handler : string -> M W A)
    (fin : M W unit) : M W A :=
  fun w =>
    let '(o, w1, tr1) :=
      match body w with
      | (Raise (ApiErrorException msg), w', tr) => after tr (handler msg w')
      | r => r
      end in
    match o with
    | Running => (Running, w1, tr1)
    | _ =>
      match fin w1 with
      | (Return _, w2, tr2) => (o, w2, tr1 ++ tr2)
      | (Raise e, w2, tr2) => (Raise e, w2, tr1 ++ tr2)
      | (Running, w2, tr2) => (Running, w2, tr1 ++ tr2)
      end
    end.

End Operations.

(** ** Python expressions the scripts use *)

(** [BlockBlobService(account_name = .., sas_token = ..)]: the constructor
    raises [ValueError] when it is given no account name; it makes no
    call. *)
Definition new_BlockBlobService {W} (account_name sas_token : string)
  : M W BlockBlobService :=
  if decide (account_name = "")
  then raise (OtherException "ValueError"
                "You need to provide an account name and either an account_key or sas_token when creating a storage service.")
  else ret (mkBlockBlobService account_name sas_token).

(** [xs[0]]. *)
Definition index0 {W A} (xs : list A) : M W A :=
  match xs with
  | x :: _ => ret x
  | [] => raise (IndexError "list index out of range")
  end.

(** [s.split('.')[0]]: the part of [s] before its first dot. *)
Fixpoint before_dot (s : string) : string :=
  match s with
  | EmptyString => EmptyString
  | String c s' => if decide (c = "."%char) then EmptyString else String c (before_dot s')
  end.

(** [s[1:]]. *)
Definition drop_first (s : string) : string :=
  match s with
  | EmptyString => EmptyString
  | String _ s' => s'
  end.

(** [s[:n]]. *)
Fixpoint take_first (n : nat) (s : string) : string :=
  match n, s with
  | S n', String c s' => String c (take_first n' s')
  | _, _ => EmptyString
  end.

Fixpoint ends_with_slash (s : string) : bool :=
  match s with
  | EmptyString => false
  | String c EmptyString => bool_decide (c = "/"%char)
  | String _ s' => ends_with_slash s'
  end.

(** [os.path.join(a, b)] of [posixpath]. *)
Definition path_join (a b : string) : string :=
  match b with
  | String "/"%char _ => b
  | _ => if bool_decide (a = "") || ends_with_slash a then a +:+ b
         else a +:+ "/" +:+ b
  end.

(** [urllib.parse.uses_netloc]: the schemes written with a network
    location. *)
Definition uses_netloc : list string :=
  [""; "ftp"; "http"; "gopher"; "nntp"; "telnet"; "imap"; "wais"; "file"; "mms";
   "https"; "shttp"; "snews"; "prospero"; "rtsp"; "rtspu"; "rsync"; "svn";
   "svn+ssh"; "sftp"; "nfs"; "git"; "git+ssh"; "ws"; "wss"].

(** [urllib.parse.urlunparse((scheme, netloc, url, None, None, None))], as
    [urlunsplit] computes it: the network location is written, behind
    [//] and before a path made to start with [/], when it is not empty
    or when the scheme uses one and the path does not itself start with
    [//]; otherwise the path stands as it is. *)
Definition urlunparse (scheme netloc url : string) : string :=
  let url :=
    if bool_decide (netloc <> "")
       || (bool_decide (scheme <> "") && bool_decide (scheme ∈ uses_netloc)
           && negb (bool_decide (take_first 2 url = "//")))
    then
      "//" +:+ netloc
      +:+ (if bool_decide (url <> "") && negb (bool_decide (take_first 1 url = "/"))
           then "/" +:+ url else url)
    else url in
  if bool_decide (scheme <> "") then scheme +:+ ":" +:+ url else url.

(** [str(uuid.uuid1)]: the text of the function object, not of a UUID. *)
Definition str_of_uuid1_function (address : string) : string :=
  "<function uuid1 at 0x" +:+ address +:+ ">".

(** The job states on which the polling loops stop. *)
Definition terminal (s : JobState) : bool :=
  bool_decide (s = finished) || bool_decide (s = error) || bool_decide (s = canceled).

(** ** AnalyzeVideoAndAudios/Program.py *)

Module AnalyzeVideoAndAudios.

Record Program := mkProgram {
  account_name : string;
  resource_group_name : string;
  transform_name : string }.

Section Script.
Context {W : Type} `{Env W}.

(** [Program.__init__]: the settings read from [settings.ini].  The
    credentials and the client are built without a call to the service. *)
Definition init : M W Program :=
  account_name ← sys (config_get "ACCOUNT_NAME");
  resource_group_name ← sys (config_get "RESOURCE_GROUP_NAME");
  transform_name ← sys (config_get "TRANSFORM_NAME");
  client_id ← sys (config_get "CLIENT");
  key ← sys (config_get "KEY");
  subscription_id ← sys (config_get "SUBSCRIPTION_ID");
  tenant_id ← sys (config_get "TENANT_ID");
  ret (mkProgram account_name resource_group_name transform_name).

Definition create_input_asset (resource_group_name account_name asset_name
    file_to_upload : string) : M W Asset :=
  enter "create_input_asset";;
  asset ← media (assets_create_or_update resource_group_name account_name
                   asset_name Asset_new);
  now ← sys datetime_utcnow;
  let expiryTime := (now + timedelta 4 0)%Z in
  now ← sys datetime_utcnow;
  response ← media (assets_list_container_sas resource_group_name account_name
                      asset_name read_write (now + timedelta 4 0)%Z);
  sasUri ← index0 (AssetContainerSas_asset_container_sas_urls response);
  parsed_url ← call (parse_urlparse sasUri);
  let storage_account_name := before_dot (ParseResult_netloc parsed_url) in
  let container_name := drop_first (ParseResult_path parsed_url) in
  let token := ParseResult_query parsed_url in
  local_path ← call os_getcwd;
  block_blob_service ← new_BlockBlobService storage_account_name token;
  storage (create_blob_from_path block_blob_service container_name
             file_to_upload (path_join local_path file_to_upload));;
  ret asset.

Definition create_output_asset (resource_group_name account_name
    asset_name : string) : M W Asset :=
  enter "create_output_asset";;
  output_asset ← media (assets_get resource_group_name account_name asset_name);
  let asset := Asset_new in
  let output_asset_name := asset_name in
  output_asset_name ←
    match output_asset with
    | Some _ =>
      address ← sys address_of_uuid1;
      let uniqueness := str_of_uuid1_function address in
      let output_asset_name := output_asset_name +:+ uniqueness in
      print ("Warning – found an existing Asset with name = " +:+ asset_name);;
      print ("Creating an Asset with this name instead: " +:+ output_asset_name);;
      ret output_asset_name
    | None => ret output_asset_name
    end;
  media (assets_create_or_update resource_group_name account_name
           output_asset_name asset).

Definition get_or_create_transform (resource_group_name account_name
    transform_name : string) (preset : Preset) : M W Transform :=
  enter "get_or_create_transform";;
  transform ← media (transforms_get resource_group_name account_name transform_name);
  match transform with
  | None =>
    let transformOutput := mkTransformOutput preset in
    let output := [transformOutput] in
    media (transforms_create_or_update resource_group_name account_name
             transform_name output)
  | Some transform => ret transform
  end.

Definition submit_job (resource_group_name account_name transform_name job_name
    inputasset_name outputasset_name : string) : M W Job :=
  enter "submit_job";;
  let job_input := mkJobInputAsset inputasset_name in
  let job_output := mkJobOutputAsset outputasset_name in
  let job_outputs := [job_output] in
  let job := mkJobBody job_input job_outputs in
  media (jobs_create resource_group_name account_name transform_name job_name job).

Definition SleepIntervalMs : nat := 5.

(** The body of [for i in range(len(job.outputs))]. *)
Definition print_job_output (job : Job) (i : nat) : M W unit :=
  match Job_outputs job !! i with
  | None => raise (IndexError "list index out of range")
  | Some output =>
    print (" JobOutput[" +:+ pretty i +:+ "] is "
           +:+ JobState_str (JobOutput_state output));;
    if decide (JobOutput_state output = processing)
    then print ("  Progress: " +:+ pretty (JobOutput_progress output))
    else ret tt
  end.

(** The [while True] loop of [wait_for_job_to_finish]; one unit of fuel
    for each turn. *)
Fixpoint wait_for_job_to_finish_loop (fuel : nat) (resource_group_name
    account_name transform_name job_name : string) : M W Job :=
  match fuel with
  | 0 => still_running
  | S fuel' =>
    job ← media (jobs_get resource_group_name account_name transform_name job_name);
    match job with
    | None => raise (AttributeError "'NoneType' object has no attribute 'state'")
    | Some job =>
      print ("Job is " +:+ JobState_str (Job_state job));;
      for_each (seq 0 (length (Job_outputs job))) (print_job_output job);;
      if terminal (Job_state job) then ret job
      else
        sys (time_sleep SleepIntervalMs);;
        wait_for_job_to_finish_loop fuel' resource_group_name account_name
          transform_name job_name
    end
  end.

Definition wait_for_job_to_finish (fuel : nat) (resource_group_name account_name
    transform_name job_name : string) : M W Job :=
  enter "wait_for_job_to_finish";;
  wait_for_job_to_finish_loop fuel resource_group_name account_name
    transform_name job_name.

Definition download_output_asset (resource_group_name account_name asset_name
    output_folder_name : string) : M W unit :=
  enter "download_output_asset";;
  present ← sys (os_path_exists output_folder_name);
  (if present : bool then ret tt else call (os_makedirs output_folder_name));;
  now ← sys datetime_utcnow;
  assetContainerSas ← media (assets_list_container_sas resource_group_name
                               account_name asset_name read (now + timedelta 4 0)%Z);
  container_sas_url ←
    index0 (AssetContainerSas_asset_container_sas_urls assetContainerSas);
  let directory := path_join output_folder_name asset_name in
  call (os_makedirs directory);;
  print ("Downloading output results to " +:+ directory);;
  parsed_url ← call (parse_urlparse container_sas_url);
  let storage_account_name := before_dot (ParseResult_netloc parsed_url) in
  let container_name := drop_first (ParseResult_path parsed_url) in
  let token := ParseResult_query parsed_url in
  block_blob_service ← new_BlockBlobService storage_account_name token;
  generator ← storage (list_blobs block_blob_service container_name);
  for_each generator (fun blob =>
    print ("Downloading Blob: " +:+ Blob_name blob);;
    storage (get_blob_to_path block_blob_service container_name (Blob_name blob)
               (path_join directory (Blob_name blob))));;
  print "Download complete.".

Definition clean_up (resource_group_name account_name transform_name : string)
  : M W unit :=
  enter "clean_up";;
  jobs ← media (jobs_list resource_group_name account_name transform_name);
  for_each jobs (fun job =>
    media (jobs_delete resource_group_name account_name transform_name
             (Job_name job)));;
  assets ← media (assets_list resource_group_name account_name);
  for_each assets (fun asset =>
    media (assets_delete resource_group_name account_name (Asset_name asset))).

Definition run (fuel : nat) (self : Program) : M W unit :=
  enter "run";;
  let input_mp4_file_name := "ignite.mp4" in
  let output_folder_name := "output" in
  uniqueness ← sys uuid_uuid1;
  let job_name := "job-" +:+ uniqueness in
  let locator_name := "locator-" +:+ uniqueness in
  let output_asset_name := "output-" +:+ uniqueness in
  let input_asset_name := "input-" +:+ uniqueness in
  transform ← get_or_create_transform (resource_group_name self)
                (account_name self) (transform_name self)
                (VideoAnalyzerPreset "en-US");
  create_input_asset (resource_group_name self) (account_name self)
    input_asset_name input_mp4_file_name;;
  let job_input := mkJobInputAsset input_asset_name in
  output_asset ← create_output_asset (resource_group_name self)
                   (account_name self) output_asset_name;
  job ← submit_job (resource_group_name self) (account_name self)
          (transform_name self) job_name input_asset_name
          (Asset_name output_asset);
  job ← wait_for_job_to_finish fuel (resource_group_name self)
          (account_name self) (transform_name self) job_name;
  if decide (Job_state job = finished) then
    print "Job finished.";;
    download_output_asset (resource_group_name self) (account_name self)
      (Asset_name output_asset) output_folder_name;;
    print "Done."
  else ret tt.

(** [Program().run()]. *)
Definition main (fuel : nat) : M W unit :=
  self ← init;
  run fuel self.

End Script.
End AnalyzeVideoAndAudios.

(** ** EncryptWithAES/Program.py *)

Module EncryptWithAES.

Record Program := mkProgram {
  account_name : string;
  resource_group_name : string;
  transform_name : string;
  content_key_policy_name : string;
  content_key_identifier_claim_type : string;
  issuer : string;
  audience : string;
  token_sign_key : list Byte.byte }.

Section Script.
Context {W : Type} `{Env W}.

(** [Program.__init__]: the settings, and the signing key drawn once for
    each run with [urandom(40)]. *)
Definition init : M W Program :=
  account_name ← sys (config_get "ACCOUNT_NAME");
  resource_group_name ← sys (config_get "RESOURCE_GROUP_NAME");
  transform_name ← sys (config_get "TRANSFORM_NAME");
  content_key_policy_name ← sys (config_get "CONTENT_KEY_POLICY_NAME");
  content_key_identifier_claim_type ←
    sys (config_get "CONTENT_KEY_IDENTIFIER_CLAIM_TYPE");
  issuer ← sys (config_get "ISSUER");
  audience ← sys (config_get "AUDIENCE");
  token_sign_key ← sys (os_urandom 40);
  client_id ← sys (config_get "CLIENT");
  key ← sys (config_get "KEY");
  subscription_id ← sys (config_get "SUBSCRIPTION_ID");
  tenant_id ← sys (config_get "TENANT_ID");
  ret (mkProgram account_name resource_group_name transform_name
         content_key_policy_name content_key_identifier_claim_type
         issuer audience token_sign_key).

Definition get_or_create_content_key_policy (self : Program)
    (resource_group_name account_name content_key_policy_name : string)
  : M W ContentKeyPolicy :=
  enter "get_or_create_content_key_policy";;
  policy ← media (content_key_policies_get resource_group_name account_name
                    content_key_policy_name);
  match policy with
  | None =>
    let primary_key := token_sign_key self in
    let alternate_keys := None in
    let required_claims :=
      [mkContentKeyPolicyTokenClaim (content_key_identifier_claim_type self) None] in
    let option :=
      mkContentKeyPolicyOption ContentKeyPolicyClearKeyConfiguration
        (mkContentKeyPolicyTokenRestriction (issuer self) (audience self)
           primary_key jwt alternate_keys required_claims) in
    media (content_key_policies_create_or_update resource_group_name
             account_name content_key_policy_name [option])
  | Some policy => ret policy
  end.

Definition create_input_asset (resource_group_name account_name asset_name
    file_to_upload : string) : M W Asset :=
  enter "create_input_asset";;
  asset ← media (assets_create_or_update resource_group_name account_name
                   asset_name Asset_new);
  now ← sys datetime_utcnow;
  let expiryTime := (now + timedelta 4 0)%Z in
  now ← sys datetime_utcnow;
  response ← media (assets_list_container_sas resource_group_name account_name
                      asset_name read_write (now + timedelta 4 0)%Z);
  sasUri ← index0 (AssetContainerSas_asset_container_sas_urls response);
  parsed_url ← call (parse_urlparse sasUri);
  let storage_account_name := before_dot (ParseResult_netloc parsed_url) in
  let container_name := drop_first (ParseResult_path parsed_url) in
  let token := ParseResult_query parsed_url in
  local_path ← call os_getcwd;
  block_blob_service ← new_BlockBlobService storage_account_name token;
  storage (create_blob_from_path block_blob_service container_name
             file_to_upload (path_join local_path file_to_upload));;
  ret asset.

Definition create_output_asset (resource_group_name account_name
    asset_name : string) : M W Asset :=
  enter "create_output_asset";;
  output_asset ← media (assets_get resource_group_name account_name asset_name);
  let asset := Asset_new in
  let output_asset_name := asset_name in
  output_asset_name ←
    match output_asset with
    | Some _ =>
      address ← sys address_of_uuid1;
      let uniqueness := str_of_uuid1_function address in
      let output_asset_name := output_asset_name +:+ uniqueness in
      print ("Warning – found an existing Asset with name = " +:+ asset_name);;
      print ("Creating an Asset with this name instead: " +:+ output_asset_name);;
      ret output_asset_name
    | None => ret output_asset_name
    end;
  media (assets_create_or_update resource_group_name account_name
           output_asset_name asset).

Definition get_or_create_transform (resource_group_name account_name
    transform_name : string) : M W Transform :=
  enter "get_or_create_transform";;
  transform ← media (transforms_get resource_group_name account_name transform_name);
  match transform with
  | None =>
    let preset := BuiltInStandardEncoderPreset adaptive_streaming in
    let transformOutput := mkTransformOutput preset in
    let output := [transformOutput] in
    media (transforms_create_or_update resource_group_name account_name
             transform_name output)
  | Some transform => ret transform
  end.

Definition submit_job (resource_group_name account_name transform_name job_name
    inputasset_name outputasset_name : string) : M W Job :=
  enter "submit_job";;
  let job_input := mkJobInputAsset inputasset_name in
  let job_output := mkJobOutputAsset outputasset_name in
  let job_outputs := [job_output] in
  let job := mkJobBody job_input job_outputs in
  media (jobs_create resource_group_name account_name transform_name job_name job).

Definition SleepIntervalMs : nat := 5.

Definition print_job_output (job : Job) (i : nat) : M W unit :=
  match Job_outputs job !! i with
  | None => raise (IndexError "list index out of range")
  | Some output =>
    print (" JobOutput[" +:+ pretty i +:+ "] is "
           +:+ JobState_str (JobOutput_state output));;
    if decide (JobOutput_state output = processing)
    then print ("  Progress: " +:+ pretty (JobOutput_progress output))
    else ret tt
  end.

Fixpoint wait_for_job_to_finish_loop (fuel : nat) (resource_group_name
    account_name transform_name job_name : string) : M W Job :=
  match fuel with
  | 0 => still_running
  | S fuel' =>
    job ← media (jobs_get resource_group_name account_name transform_name job_name);
    match job with
    | None => raise (AttributeError "'NoneType' object has no attribute 'state'")
    | Some job =>
      print ("Job is " +:+ JobState_str (Job_state job));;
      for_each (seq 0 (length (Job_outputs job))) (print_job_output job);;
      if terminal (Job_state job) then ret job
      else
        sys (time_sleep SleepIntervalMs);;
        wait_for_job_to_finish_loop fuel' resource_group_name account_name
          transform_name job_name
    end
  end.

Definition wait_for_job_to_finish (fuel : nat) (resource_group_name account_name
    transform_name job_name : string) : M W Job :=
  enter "wait_for_job_to_finish";;
  wait_for_job_to_finish_loop fuel resource_group_name account_name
    transform_name job_name.

Definition create_streaming_locator (resource_group_name account_name asset_name
    locator_name content_key_policy_name : string) : M W StreamingLocator :=
  enter "create_streaming_locator";;
  let locator := mkStreamingLocatorBody asset_name "Predefined_ClearKey"
                   (Some content_key_policy_name) in
  media (streaming_locators_create resource_group_name account_name
           locator_name locator).

(** The dictionary display of [get_token]: the entries are stored from
    left to right, a later key replacing an equal earlier one. *)
Definition token_payload (issuer audience key_identifier_claim_type
    key_identifier : string) (nbf exp : datetime) : gmap string claim :=
  <["exp" := claim_datetime exp]>
    (<["nbf" := claim_datetime nbf]>
      (<[key_identifier_claim_type := claim_str key_identifier]>
        (<["aud" := claim_str audience]>
          (<["iss" := claim_str issuer]> ∅)))).

Definition get_token (issuer audience key_identifier_claim_type
    key_identifier : string) (token_verification_key : list Byte.byte)
  : M W string :=
  enter "get_token";;
  now1 ← sys datetime_utcnow;
  now2 ← sys datetime_utcnow;
  let payload := token_payload issuer audience key_identifier_claim_type
                   key_identifier (now1 + timedelta 0 (-5))%Z
                   (now2 + timedelta 1 0)%Z in
  sys (jwt_encode payload token_verification_key "HS256").

Definition DefaultStreamingEndpointName : string := "default".

Definition get_dash_streaming_url (resource_group_name account_name
    locator_name : string) : M W string :=
  enter "get_dash_streaming_url";;
  let dash_path := "" in
  streaming_endpoint ← media (streaming_endpoints_get resource_group_name
                                account_name DefaultStreamingEndpointName);
  match streaming_endpoint with
  | Some endpoint =>
    if decide (StreamingEndpoint_resource_state endpoint <> se_running)
    then media (streaming_endpoints_start resource_group_name account_name
                  DefaultStreamingEndpointName)
    else ret tt
  | None => ret tt
  end;;
  paths ← media (streaming_locators_list_paths resource_group_name account_name
                   locator_name);
  for_fold (ListPathsResponse_streaming_paths paths) dash_path
    (fun dash_path path =>
       let scheme := "https" in
       host ← match streaming_endpoint with
              | Some endpoint => ret (StreamingEndpoint_host_name endpoint)
              | None => raise (AttributeError
                          "'NoneType' object has no attribute 'host_name'")
              end;
       if decide (StreamingPath_streaming_protocol path = dash) then
         path ← index0 (StreamingPath_paths path);
         ret (urlunparse scheme host path)
       else ret dash_path).

Definition clean_up (resource_group_name account_name transform_name
    content_key_policy_name : string) : M W unit :=
  enter "clean_up";;
  jobs ← media (jobs_list resource_group_name account_name transform_name);
  for_each jobs (fun job =>
    media (jobs_delete resource_group_name account_name transform_name
             (Job_name job)));;
  streaming_locators ← media (streaming_locators_list resource_group_name
                                account_name);
  for_each streaming_locators (fun locator =>
    media (streaming_locators_delete resource_group_name account_name
             (StreamingLocator_name locator)));;
  assets ← media (assets_list resource_group_name account_name);
  for_each assets (fun asset =>
    media (assets_delete resource_group_name account_name (Asset_name asset)));;
  media (content_key_policies_delete resource_group_name account_name
           content_key_policy_name).

Definition run (fuel : nat) (self : Program) : M W unit :=
  enter "run";;
  let input_mp4_file_name := "ignite.mp4" in
  let output_folder_name := "output" in
  uniqueness ← sys uuid_uuid1;
  let job_name := "job-" +:+ uniqueness in
  let locator_name := "locator-" +:+ uniqueness in
  let output_asset_name := "output-" +:+ uniqueness in
  let input_asset_name := "input-" +:+ uniqueness in
  transform ← get_or_create_transform (resource_group_name self)
                (account_name self) (transform_name self);
  create_input_asset (resource_group_name self) (account_name self)
    input_asset_name input_mp4_file_name;;
  let job_input := mkJobInputAsset input_asset_name in
  output_asset ← create_output_asset (resource_group_name self)
                   (account_name self) output_asset_name;
  job ← submit_job (resource_group_name self) (account_name self)
          (transform_name self) job_name input_asset_name
          (Asset_name output_asset);
  job ← wait_for_job_to_finish fuel (resource_group_name self)
          (account_name self) (transform_name self) job_name;
  (if decide (Job_state job = finished) then
     print "Job finished.";;
     policy ← get_or_create_content_key_policy self (resource_group_name self)
                (account_name self) (content_key_policy_name self);
     locator ← create_streaming_locator (resource_group_name self)
                 (account_name self) (Asset_name output_asset) locator_name
                 (content_key_policy_name self);
     content_key ← index0 (StreamingLocator_content_keys locator);
     let key_identifier := StreamingLocatorContentKey_id content_key in
     token ← get_token (issuer self) (audience self)
               (content_key_identifier_claim_type self) key_identifier
               (token_sign_key self);
     dash_path ← get_dash_streaming_url (resource_group_name self)
                   (account_name self) (StreamingLocator_name locator);
     print "Copy and paste the following URL in your browser to play back the file in the Azure Media Player.";;
     print "Note, the player is set to use the AES token and the Bearer token is specified. ";;
     print "";;
     print ("https://ampdemo.azureedge.net/?url=" +:+ dash_path
            +:+ "&aes=true&aestoken=Bearer%3D" +:+ token);;
     print ""
   else ret tt);;
  print "clean up ...";;
  call (py_input "press any key to continue");;
  clean_up (resource_group_name self) (account_name self) (transform_name self)
    (content_key_policy_name self).

(** [Program().run()]. *)
Definition main (fuel : nat) : M W unit :=
  self ← init;
  run fuel self.

End Script.
End EncryptWithAES.

(** ** Live/Program.py *)

Module Live.

Record Program := mkProgram {
  account_name : string;
  resource_group_name : string }.

(** The names [run] derives from one UUID at the top of its [try] block. *)
Record Names := mkNames {
  live_event_name : string;
  asset_name : string;
  live_output_name : string;
  streaming_locator_name : string;
  streaming_endpoint_name : string }.

Definition tab : string := String (ascii_of_nat 9) EmptyString.

Definition make_names (uuid : string) : Names :=
  let uniqueness := take_first 13 uuid in
  mkNames ("liveevent-" +:+ uniqueness) ("archiveasset-" +:+ uniqueness)
    ("liveoutput-" +:+ uniqueness) ("streaminglocator-" +:+ uniqueness)
    "default".

Section Script.
Context {W : Type} `{Env W}.

Definition init : M W Program :=
  account_name ← sys (config_get "ACCOUNT_NAME");
  resource_group_name ← sys (config_get "RESOURCE_GROUP_NAME");
  client_id ← sys (config_get "CLIENT");
  key ← sys (config_get "KEY");
  subscription_id ← sys (config_get "SUBSCRIPTION_ID");
  tenant_id ← sys (config_get "TENANT_ID");
  ret (mkProgram account_name resource_group_name).

(** The event is created under [self.account_name], whatever
    [account_name] is passed. *)
Definition create_live_event (self : Program) (resource_group_name
    account_name live_event_name : string) : M W LiveEvent :=
  enter "create_live_event";;
  media_service ← media (mediaservices_get resource_group_name account_name);
  print ("Creating a live event named " +:+ live_event_name);;
  let all_allow_ip_range := mkIPRange "AllowAll" "0.0.0.0" 0 in
  let access_control := mkIPAccessControl [all_allow_ip_range] in
  let encoding := mkLiveEventEncoding enc_none None in
  let stream_options := [low_latency] in
  location ← match media_service with
             | Some service => ret (MediaService_location service)
             | None => raise (AttributeError
                         "'NoneType' object has no attribute 'location'")
             end;
  let live_event := mkLiveEventBody location "Sample LiveEvent for testing"
                      false encoding rtmp access_control access_control
                      stream_options in
  print "Creating the LiveEvent, be patient this can take time...";;
  media (live_events_create resource_group_name (Live.account_name self)
           live_event_name live_event true).

(** All three cleanup methods address the service with the names stored
    in [self], not with the arguments of the same names. *)
Definition clean_up_live_event_and_live_output (self : Program)
    (resource_group_name account_name live_event_name : string) : M W unit :=
  enter "clean_up_live_event_and_live_output";;
  live_event ← media (live_events_get (Live.resource_group_name self)
                        (Live.account_name self) live_event_name);
  match live_event with
  | Some live_event =>
    (if decide (LiveEvent_resource_state live_event = le_running) then
       media (live_events_stop (Live.resource_group_name self)
                (Live.account_name self) live_event_name true);;
       sys (time_sleep 10)
     else ret tt);;
    media (live_events_delete (Live.resource_group_name self)
             (Live.account_name self) live_event_name)
  | None => ret tt
  end.

Definition clean_up_locator_and_asset (self : Program) (resource_group_name
    account_name locator_name asset_name : string) : M W unit :=
  enter "clean_up_locator_and_asset";;
  media (streaming_locators_delete (Live.resource_group_name self)
           (Live.account_name self) locator_name);;
  media (assets_delete (Live.resource_group_name self)
           (Live.account_name self) asset_name).

Definition clean_up_streaming_endpoint (self : Program) (resource_group_name
    account_name streaming_endpoint_name asset_name : string)
    (stop_endpoint delete_endpoint : bool) : M W unit :=
  enter "clean_up_streaming_endpoint";;
  if stop_endpoint || delete_endpoint then
    streaming_endpoint ← media (streaming_endpoints_get
                                  (Live.resource_group_name self)
                                  (Live.account_name self)
                                  streaming_endpoint_name);
    match streaming_endpoint with
    | Some endpoint =>
      if decide (StreamingEndpoint_resource_state endpoint = se_running)
      then media (streaming_endpoints_stop (Live.resource_group_name self)
                    (Live.account_name self) streaming_endpoint_name)
      else ret tt
    | None => ret tt
    end;;
    if delete_endpoint
    then media (streaming_endpoints_delete (Live.resource_group_name self)
                  (Live.account_name self) streaming_endpoint_name)
    else ret tt
  else ret tt.

(** The [while True] loop of [run], lines 203 to 207. *)
Fixpoint wait_for_live_event (fuel : nat) (self : Program)
    (live_event_name : string) : M W LiveEvent :=
  match fuel with
  | 0 => still_running
  | S fuel' =>
    live_event ← media (live_events_get (resource_group_name self)
                          (account_name self) live_event_name);
    match live_event with
    | Some live_event => ret live_event
    | None =>
      sys (time_sleep 5);;
      wait_for_live_event fuel' self live_event_name
    end
  end.

(** The body of [for streaming_path in paths.streaming_paths], on the
    local variables [player_path] and [string_builder]. *)
Definition collect_streaming_path (streaming_endpoint : StreamingEndpoint)
    (vars : string * string) (streaming_path : StreamingPath)
  : M W (string * string) :=
  let '(player_path, string_builder) := vars in
  let scheme := "https" in
  let host := StreamingEndpoint_host_name streaming_endpoint in
  match StreamingPath_paths streaming_path with
  | path :: _ =>
    let string_builder :=
      string_builder +:+ tab
      +:+ StreamingPolicyStreamingProtocol_str
            (StreamingPath_streaming_protocol streaming_path)
      +:+ "-" +:+ EncryptionScheme_str (StreamingPath_encryption_scheme streaming_path)
      +:+ tab +:+ tab in
    let string_builder := string_builder +:+ urlunparse scheme host path in
    if decide (StreamingPath_streaming_protocol streaming_path = dash)
    then ret (urlunparse scheme host path, string_builder)
    else ret (player_path, string_builder)
  | [] => ret (player_path, string_builder)
  end.

(** The [try] block of [run], after the names are bound. *)
Definition try_body (fuel : nat) (self : Program) (n : Names) : M W unit :=
  live_event ← create_live_event self (resource_group_name self)
                 (account_name self) (live_event_name n);
  live_event ← wait_for_live_event fuel self (live_event_name n);
  ingest ← index0 (LiveEventInput_endpoints (LiveEvent_input live_event));
  let ingest_url := LiveEventEndpoint_url ingest in
  print ("The ingest url to configure the on premise encoderwith is: "
         +:+ ingest_url);;
  preview ← index0 (LiveEventPreview_endpoints (LiveEvent_preview live_event));
  let preview_endpoint := LiveEventEndpoint_url preview in
  print ("The preview url is " +:+ preview_endpoint);;
  print "Open the live preview in your browser and use the Azure Media Player to monitor the preview playback:";;
  print (tab +:+ "https://ampdemo.azureedge.net/?url=" +:+ preview_endpoint
         +:+ "&heuristicprofile=lowlatency");;
  print ("Creating an asset named " +:+ asset_name n);;
  asset ← media (assets_create_or_update (resource_group_name self)
                   (account_name self) (asset_name n) Asset_new);
  let manifest_name := "output" in
  print ("Creating a live output named " +:+ live_output_name n);;
  let liveOutput := mkLiveOutputBody (Asset_name asset) manifest_name
                      (timedelta 0 10) in
  liveOutput ← media (live_outputs_create (resource_group_name self)
                        (account_name self) (live_event_name n)
                        (live_output_name n) liveOutput);
  print ("Creating a streaming locator named " +:+ streaming_locator_name n);;
  let locator := mkStreamingLocatorBody (Asset_name asset)
                   "Predefined_ClearStreamingOnly" None in
  locator ← media (streaming_locators_create (resource_group_name self)
                     (account_name self) (streaming_locator_name n) locator);
  streaming_endpoint ← media (streaming_endpoints_get (resource_group_name self)
                                (account_name self) (streaming_endpoint_name n));
  streaming_endpoint ←
    match streaming_endpoint with
    | Some endpoint => ret endpoint
    | None => raise (AttributeError
                "'NoneType' object has no attribute 'resource_state'")
    end;
  (if decide (StreamingEndpoint_resource_state streaming_endpoint <> se_running)
   then
     print "Streaming Endpoint was Stopped, restarting now..";;
     media (streaming_endpoints_start (resource_group_name self)
              (account_name self) (streaming_endpoint_name n))
   else ret tt);;
  paths ← media (streaming_locators_list_paths (resource_group_name self)
                   (account_name self) (streaming_locator_name n));
  print "The urls to stream the output from a client:";;
  vars ← for_fold (ListPathsResponse_streaming_paths paths) ("", "")
           (collect_streaming_path streaming_endpoint);
  let '(player_path, string_builder) := vars in
  if decide (0 < String.length string_builder) then
    print "Open the following URL to playback the published,recording LiveOutput in the Azure Media Player";;
    print (tab +:+ " https://ampdemo.azureedge.net/?url=" +:+ player_path
           +:+ "&heuristicprofile=lowlatency");;
    print "Continue experimenting with the stream until you are ready to finish.";;
    call (py_input "Press enter to stop the LiveOutput...");;
    clean_up_live_event_and_live_output self (resource_group_name self)
      (account_name self) (live_event_name n);;
    print "The LiveOutput and LiveEvent are now deleted.  The event is available as an archive and can still be streamed.";;
    call (py_input "Press enter to finish cleanup...");;
    ret tt
  else
    print "No Streaming Paths were detected.  Has the Stream been started?";;
    print "Cleaning up and Exiting...".

(** [except ApiErrorException as ex]. *)
Definition except_handler (ex : string) : M W unit :=
  print "Hit ApiErrorException";;
  print ex.

(** The [finally] block. *)
Definition finally_block (self : Program) (n : Names) : M W unit :=
  clean_up_live_event_and_live_output self (resource_group_name self)
    (account_name self) (live_event_name n);;
  clean_up_locator_and_asset self (resource_group_name self)
    (account_name self) (streaming_locator_name n) (asset_name n).

(** [uuid.uuid1()] is the first statement of the [try] block and does not
    raise, so the names are bound whenever the handler or the [finally]
    block runs. *)
Definition run (fuel : nat) (self : Program) : M W unit :=
  enter "run";;
  uuid ← sys uuid_uuid1;
  let n := make_names uuid in
  try_except_finally (try_body fuel self n) except_handler (finally_block self n).

(** [Program().run()]. *)
Definition main (fuel : nat) : M W unit :=
  self ← init;
  run fuel self.

End Script.
End Live.

(** ** Reading a log *)

(** The polling schedule of a log: its fetches of a job or of a live event,
    and its sleeps, in order. *)
Inductive tick :=
| Fetch
| SleepFor (seconds : nat).

Definition tick_of (ev : event) : option tick :=
  match ev with
  | Call q _ =>
    match q with
    | Media c =>
      match c with
      | jobs_get _ _ _ _ | live_events_get _ _ _ => Some Fetch
      | _ => None
      end
    | _ => None
    end
  | Sys q _ =>
    match q with
    | time_sleep seconds => Some (SleepFor seconds)
    | _ => None
    end
  | Enter _ => None
  end.

Definition schedule (tr : list event) : list tick := omap tick_of tr.

(** [n] turns of fetch-then-sleep, each sleep [seconds] long. *)
Fixpoint turns (n seconds : nat) : list tick :=
  match n with
  | 0 => []
  | S n' => Fetch :: SleepFor seconds :: turns n' seconds
  end.

(** The exception of a call that raised. *)
Definition failure_of (ev : event) : option exn :=
  match ev with
  | Call _ (inl e) => Some e
  | _ => None
  end.

Definition failures (tr : list event) : list exn := omap failure_of tr.

(** How often the method [method] was entered. *)
Definition entered (method : string) (ev : event) : bool :=
  match ev with
  | Enter m => bool_decide (m = method)
  | _ => false
  end.

Definition invocations (method : string) (tr : list event) : nat :=
  length (filter (fun ev => entered method ev = true) tr).

(** ** Environments for tests *)

(** A runtime with fixed answers. *)
Definition fixed_runtime {R} (q : sys_call R) : R :=
  match q with
  | py_print _ => tt
  | time_sleep _ => tt
  | uuid_uuid1 => "6c84fb90-12c4-11e1-840d-7b25c5ee775a"
  | address_of_uuid1 => "7f3a2c1b5e50"
  | datetime_utcnow => 1600000000000000%Z
  | os_path_exists _ => false
  | os_urandom n => replicate n Byte.x2a
  | config_get key => key
  | jwt_encode _ _ _ => "eyJ0eXAi.eyJpc3Mi.c2lnbmF0dXJl"
  end.

(** Answers of the local calls that can raise, when they do not. *)
Definition sample_cwd : string := "/home/sample".
Definition sample_parse_result : ParseResult :=
  mkParseResult "amsstore.blob.core.windows.net" "/asset-container" "sv=2017&sig=abc".

Definition unexpected {R} : exn + R :=
  inl (OtherException "AssertionError" "unexpected call").

(** A client whose [jobs.get] answers the job records [jobs 0], [jobs 1],
    ... in turn; the world is the number of fetches answered. *)
Definition scripted_jobs_handle (jobs : nat -> Job) R (q : request R) (n : nat)
  : (exn + R) * nat :=
  match q in request R return (exn + R) * nat with
  | Media c =>
    match c in media_call R return (exn + R) * nat with
    | jobs_get _ _ _ _ => (inr (Some (jobs n)), S n)
    | _ => (unexpected, n)
    end
  | _ => (unexpected, n)
  end.

Definition scripted_jobs (jobs : nat -> Job) : Env nat :=
  {| handle := scripted_jobs_handle jobs;
     runtime := fun R q n => (fixed_runtime q, n) |}.

(** A client whose [live_events.get] answers [events 0], [events 1], ...
    in turn. *)
Definition scripted_live_events_handle (events : nat -> option LiveEvent) R
    (q : request R) (n : nat) : (exn + R) * nat :=
  match q in request R return (exn + R) * nat with
  | Media c =>
    match c in media_call R return (exn + R) * nat with
    | live_events_get _ _ _ => (inr (events n), S n)
    | _ => (unexpected, n)
    end
  | _ => (unexpected, n)
  end.

Definition scripted_live_events (events : nat -> option LiveEvent) : Env nat :=
  {| handle := scripted_live_events_handle events;
     runtime := fun R q n => (fixed_runtime q, n) |}.

(** A service that is down: every call on the media client or on the blob
    client raises [ApiErrorException]. *)
Definition outage_handle R (q : request R) (w : unit) : (exn + R) * unit :=
  match q in request R return (exn + R) * unit with
  | Media _ | Storage _ => (inl (ApiErrorException "Service Unavailable"), w)
  | os_makedirs _ => (inr tt, w)
  | os_getcwd => (inr sample_cwd, w)
  | parse_urlparse _ => (inr sample_parse_result, w)
  | py_input _ => (inr "", w)
  end.

Definition outage : Env unit :=
  {| handle := outage_handle;
     runtime := fun R q w => (fixed_runtime q, w) |}.

(** An in-memory media service of one account: what is created is stored
    under its name, [get] looks it up, [delete] removes it, and every call
    answers.  A job moves one state forward with each sleep of the script. *)
Record Service := mkService {
  transforms : gmap string Transform;
  assets : gmap string Asset;
  jobs : gmap (string * string) Job;
  content_key_policies : gmap string ContentKeyPolicy;
  streaming_locators : gmap string StreamingLocator;
  live_events : gmap string LiveEvent }.

Definition empty_service : Service := mkService ∅ ∅ ∅ ∅ ∅ ∅.

Definition set_transforms (f : gmap string Transform -> gmap string Transform)
    (s : Service) : Service :=
  mkService (f (transforms s)) (assets s) (jobs s) (content_key_policies s)
    (streaming_locators s) (live_events s).
Definition set_assets (f : gmap string Asset -> gmap string Asset)
    (s : Service) : Service :=
  mkService (transforms s) (f (assets s)) (jobs s) (content_key_policies s)
    (streaming_locators s) (live_events s).
Definition set_jobs (f : gmap (string * string) Job -> gmap (string * string) Job)
    (s : Service) : Service :=
  mkService (transforms s) (assets s) (f (jobs s)) (content_key_policies s)
    (streaming_locators s) (live_events s).
Definition set_content_key_policies
    (f : gmap string ContentKeyPolicy -> gmap string ContentKeyPolicy)
    (s : Service) : Service :=
  mkService (transforms s) (assets s) (jobs s) (f (content_key_policies s))
    (streaming_locators s) (live_events s).
Definition set_streaming_locators
    (f : gmap string StreamingLocator -> gmap string StreamingLocator)
    (s : Service) : Service :=
  mkService (transforms s) (assets s) (jobs s) (content_key_policies s)
    (f (streaming_locators s)) (live_events s).
Definition set_live_events (f : gmap string LiveEvent -> gmap string LiveEvent)
    (s : Service) : Service :=
  mkService (transforms s) (assets s) (jobs s) (content_key_policies s)
    (streaming_locators s) (f (live_events s)).

Definition advance (s : JobState) : JobState :=
  match s with
  | queued | scheduled => processing
  | processing => finished
  | s => s
  end.

Definition advance_job (job : Job) : Job :=
  mkJob (Job_name job) (advance (Job_state job))
    (map (fun output => mkJobOutput (advance (JobOutput_state output))
                          (match JobOutput_state output with
                           | processing => 100
                           | _ => JobOutput_progress output
                           end))
         (Job_outputs job)).

Definition stopped (ev : LiveEvent) : LiveEvent :=
  mkLiveEvent le_stopped (LiveEvent_input ev) (LiveEvent_preview ev).

Definition service_media R (c : media_call R) (s : Service) : R * Service :=
  match c in media_call R return R * Service with
  | mediaservices_get _ _ => (Some (mkMediaService "West US 2"), s)
  | assets_get _ _ name => (assets s !! name, s)
  | assets_create_or_update _ _ name _ =>
    (mkAsset name, set_assets <[name := mkAsset name]> s)
  | assets_list _ _ => ((map_to_list (assets s)).*2, s)
  | assets_delete _ _ name => (tt, set_assets (delete name) s)
  | assets_list_container_sas _ _ name _ _ =>
    (mkAssetContainerSas
       ["https://amsstore.blob.core.windows.net/asset-" +:+ name +:+ "?sv=2017"], s)
  | transforms_get _ _ name => (transforms s !! name, s)
  | transforms_create_or_update _ _ name outputs =>
    (mkTransform name outputs, set_transforms <[name := mkTransform name outputs]> s)
  | jobs_create _ _ transform job_name body =>
    let job := mkJob job_name queued
                 (map (fun _ => mkJobOutput queued 0) (JobBody_outputs body)) in
    (job, set_jobs <[(transform, job_name) := job]> s)
  | jobs_get _ _ transform job_name => (jobs s !! (transform, job_name), s)
  | jobs_list _ _ transform =>
    ((filter (fun entry => entry.1.1 = transform) (map_to_list (jobs s))).*2, s)
  | jobs_delete _ _ transform job_name =>
    (tt, set_jobs (delete (transform, job_name)) s)
  | content_key_policies_get _ _ name => (content_key_policies s !! name, s)
  | content_key_policies_create_or_update _ _ name _ =>
    (mkContentKeyPolicy name,
     set_content_key_policies <[name := mkContentKeyPolicy name]> s)
  | content_key_policies_delete _ _ name =>
    (tt, set_content_key_policies (delete name) s)
  | streaming_locators_create _ _ name _ =>
    let locator := mkStreamingLocator name
                     [mkStreamingLocatorContentKey "content-key-1"] in
    (locator, set_streaming_locators <[name := locator]> s)
  | streaming_locators_list _ _ => ((map_to_list (streaming_locators s)).*2, s)
  | streaming_locators_delete _ _ name =>
    (tt, set_streaming_locators (delete name) s)
  | streaming_locators_list_paths _ _ name =>
    (mkListPathsResponse
       (match streaming_locators s !! name with
        | Some _ =>
          [mkStreamingPath hls no_encryption
             ["/" +:+ name +:+ "/output.ism/manifest(format=m3u8-aapl)"];
           mkStreamingPath dash no_encryption
             ["/" +:+ name +:+ "/output.ism/manifest(format=mpd-time-csf)"]]
        | None => []
        end), s)
  | streaming_endpoints_get _ _ name =>
    (if decide (name = "default")
     then Some (mkStreamingEndpoint se_running "ams-usw22.streaming.media.azure.net")
     else None, s)
  | streaming_endpoints_start _ _ _ => (tt, s)
  | streaming_endpoints_stop _ _ _ => (tt, s)
  | streaming_endpoints_delete _ _ _ => (tt, s)
  | live_events_create _ _ name _ auto_start =>
    let ev := mkLiveEvent (if auto_start then le_running else le_stopped)
                (mkLiveEventInput
                   [mkLiveEventEndpoint ("rtmp://" +:+ name +:+ ".channel.media.azure.net:1935/live")])
                (mkLiveEventPreview
                   [mkLiveEventEndpoint ("https://" +:+ name +:+ ".preview.media.azure.net/preview.ism/manifest")]) in
    (ev, set_live_events <[name := ev]> s)
  | live_events_get _ _ name => (live_events s !! name, s)
  | live_events_stop _ _ name _ => (tt, set_live_events (alter stopped name) s)
  | live_events_delete _ _ name => (tt, set_live_events (delete name) s)
  | live_outputs_create _ _ _ live_output_name _ => (mkLiveOutput live_output_name, s)
  end.

Definition service_storage R (c : blob_call R) : R :=
  match c in blob_call R return R with
  | create_blob_from_path _ _ _ _ => tt
  | list_blobs _ _ => [mkBlob "insights.json"; mkBlob "transcript.vtt"]
  | get_blob_to_path _ _ _ _ => tt
  end.

Definition service_handle R (q : request R) (s : Service) : (exn + R) * Service :=
  match q in request R return (exn + R) * Service with
  | Media c => let '(a, s') := service_media _ c s in (inr a, s')
  | Storage c => (inr (service_storage _ c), s)
  | os_makedirs _ => (inr tt, s)
  | os_getcwd => (inr sample_cwd, s)
  | parse_urlparse _ => (inr sample_parse_result, s)
  | py_input _ => (inr "", s)
  end.

Definition service_runtime R (q : sys_call R) (s : Service) : R * Service :=
  (fixed_runtime q,
   match q with
   | time_sleep _ => set_jobs (fmap advance_job) s
   | _ => s
   end).

Definition service : Env Service :=
  {| handle := service_handle; runtime := service_runtime |}.

(** The same service, answering SAS URLs whose host is empty, as
    [urlparse] finds it in a URL without [//]. *)
Definition hostless_handle R (q : request R) (s : Service) : (exn + R) * Service :=
  match q in request R return (exn + R) * Service with
  | parse_urlparse _ => (inr (mkParseResult "" "/asset-container" "sv=2017"), s)
  | q => service_handle _ q s
  end.

Definition hostless : Env Service :=
  {| handle := hostless_handle; runtime := service_runtime |}.

(** The same service, with nobody at the keyboard: the standard input is
    at its end, and every [input] raises [EOFError]. *)
Definition unattended_handle R (q : request R) (s : Service) : (exn + R) * Service :=
  match q in request R return (exn + R) * Service with
  | py_input _ => (inl (OtherException "EOFError" "EOF when reading a line"), s)
  | q => service_handle _ q s
  end.

Definition unattended : Env Service :=
  {| handle := unattended_handle; runtime := service_runtime |}.

(** The resources of the account, by kind and name. *)
Inductive resource :=
| the_asset (rg acct name : string)
| the_transform (rg acct name : string)
| the_job (rg acct transform name : string)
| the_content_key_policy (rg acct name : string)
| the_streaming_locator (rg acct name : string)
| the_streaming_endpoint (rg acct name : string)
| the_live_event (rg acct name : string)
| the_live_output (rg acct live_event name : string).

(** The resource a call creates, changes or deletes, if it does. *)
Definition touched_by_media {R} (c : media_call R) : option resource :=
  match c with
  | assets_create_or_update rg acct name _ | assets_delete rg acct name =>
    Some (the_asset rg acct name)
  | transforms_create_or_update rg acct name _ => Some (the_transform rg acct name)
  | jobs_create rg acct transform name _ | jobs_delete rg acct transform name =>
    Some (the_job rg acct transform name)
  | content_key_policies_create_or_update rg acct name _
  | content_key_policies_delete rg acct name =>
    Some (the_content_key_policy rg acct name)
  | streaming_locators_create rg acct name _
  | streaming_locators_delete rg acct name =>
    Some (the_streaming_locator rg acct name)
  | streaming_endpoints_start rg acct name
  | streaming_endpoints_stop rg acct name
  | streaming_endpoints_delete rg acct name =>
    Some (the_streaming_endpoint rg acct name)
  | live_events_create rg acct name _ _
  | live_events_stop rg acct name _
  | live_events_delete rg acct name => Some (the_live_event rg acct name)
  | live_outputs_create rg acct live_event name _ =>
    Some (the_live_output rg acct live_event name)
  | _ => None
  end.

Definition touched_by (ev : event) : option resource :=
  match ev with
  | Call q _ =>
    match q with
    | Media c => touched_by_media c
    | _ => None
    end
  | _ => None
  end.

(** The resources a log touched, in order. *)
Definition touched (tr : list event) : list resource := omap touched_by tr.

(** The resources a listing call answered with. *)
Definition listed_by (ev : event) : list resource :=
  match ev with
  | Call q r =>
    match q in request R return exn + R -> list resource with
    | Media c =>
      match c in media_call R return exn + R -> list resource with
      | jobs_list rg acct transform => fun r =>
        match r with
        | inr jobs => map (fun job => the_job rg acct transform (Job_name job)) jobs
        | inl _ => []
        end
      | assets_list rg acct => fun r =>
        match r with
        | inr assets => map (fun asset => the_asset rg acct (Asset_name asset)) assets
        | inl _ => []
        end
      | streaming_locators_list rg acct => fun r =>
        match r with
        | inr locators =>
          map (fun locator =>
                 the_streaming_locator rg acct (StreamingLocator_name locator))
              locators
        | inl _ => []
        end
      | _ => fun _ => []
      end
    | _ => fun _ => []
    end r
  | _ => []
  end.

(** The resources a log listed, in order. *)
Definition listed (tr : list event) : list resource := tr ≫= listed_by.

(** Whether an event is the prompt [prompt] of [input], answered or not. *)
Definition prompted (prompt : string) (ev : event) : bool :=
  match ev with
  | Call q _ =>
    match q with
    | py_input p => bool_decide (p = prompt)
    | _ => false
    end
  | _ => false
  end.

Definition prompts (prompt : string) (tr : list event) : nat :=
  length (filter (fun ev => prompted prompt ev = true) tr).

(** Whether an event is the prompt [prompt] of [input] with a line typed
    in answer: [input] returned. *)
Definition answered (prompt : string) (ev : event) : bool :=
  match ev with
  | Call q r =>
    match q with
    | py_input p =>
      bool_decide (p = prompt) && match r with inr _ => true | inl _ => false end
    | _ => false
    end
  | _ => false
  end.

Definition answers (prompt : string) (tr : list event) : nat :=
  length (filter (fun ev => answered prompt ev = true) tr).

(** ** Properties of every run of a script *)

(** How a script was left, whatever it returned. *)
Inductive exit :=
| Returned
| Raised (e : exn)
| Unfinished.

Definition exit_of {A} (o : outcome A) : exit :=
  match o with
  | Return _ => Returned
  | Raise e => Raised e
  | Running => Unfinished
  end.

(** [emits m I]: in every world, the way [m] is left and the log of [m]
    satisfy [I]. *)
Definition emits {W A} (m : M W A) (I : exit -> list event -> Prop) : Prop :=
  forall w, I (exit_of (outcome_of (m w))) (log (m w)).

(** The script was left: it has no loop, or its loops ended. *)
Definition finishes (x : exit) (tr : list event) : Prop := x <> Unfinished.

(** A raised call is not handled: no call of the log raised, unless the
    script was left by the exception of its last event, a call that
    raised it. *)
Definition propagated (x : exit) (tr : list event) : Prop :=
  failures tr = []
  \/ exists e tr0 R (q : request R),
       x = Raised e /\ tr = tr0 ++ [Call q (inl e)] /\ failures tr0 = [].

(** The counts the live script is judged by: entries into the two cleanup
    methods, prompts to stop the live output, and answers to that
    prompt. *)
Definition cleanup_live : string := "clean_up_live_event_and_live_output".
Definition cleanup_locator : string := "clean_up_locator_and_asset".
Definition stop_prompt : string := "Press enter to stop the LiveOutput...".

(** [counts c l s a]: the log has [c] entries into the cleanup of the live
    event, [l] into the cleanup of the locator and asset, [s] prompts to
    stop, and [a] answers to them. *)
Definition counts (c l s a : nat) (x : exit) (tr : list event) : Prop :=
  invocations cleanup_live tr = c
  /\ invocations cleanup_locator tr = l
  /\ prompts stop_prompt tr = s
  /\ answers stop_prompt tr = a.

(** The same, of a script that returned. *)
Definition returned_counts (c l s a : nat) (x : exit) (tr : list event) : Prop :=
  x = Returned /\ counts c l s a x tr.

(** The [try] block of the live script: no cleanup yet and no prompt to
    stop; or the prompt to stop, left unanswered by an exception of
    [input], and no cleanup; or the prompt answered and the cleanup of the
    live event after it. *)
Definition try_body_counts (x : exit) (tr : list event) : Prop :=
  counts 0 0 0 0 x tr
  \/ ((exists e, x = Raised e) /\ counts 0 0 1 0 x tr)
  \/ counts 1 0 1 1 x tr.

(** The [finally] block: both cleanups, or the first alone when it
    raised. *)
Definition finally_counts (x : exit) (tr : list event) : Prop :=
  (x <> Unfinished /\ counts 1 1 0 0 x tr)
  \/ (exists e, x = Raised e /\ counts 1 0 0 0 x tr).

(** ** Sample inputs *)

Definition sample_jobs (n : nat) : Job :=
  if decide (n < 2)
  then mkJob "job-1" processing [mkJobOutput processing (40 * (n + 1))]
  else mkJob "job-1" finished [mkJobOutput finished 100].

Definition stuck_jobs (n : nat) : Job :=
  mkJob "job-1" processing [mkJobOutput processing 99].


Definition sample_key : list Byte.byte := replicate 40 Byte.x2a.

Definition sample_encrypt_program : EncryptWithAES.Program :=
  EncryptWithAES.mkProgram "acct" "rg" "tf" "policy"
    "urn:microsoft:azure:mediaservices:contentkeyidentifier"
    "https://issuer.example" "urn:audience" sample_key.

(** An account that already holds two jobs of the transform ["tf"], one
    job of another transform, two assets and a streaming locator, none of
    them made by the run at hand. *)
Definition used_account : Service :=
  set_jobs (fun _ => <[("tf", "job-a") := mkJob "job-a" finished []]>
                       (<[("tf", "job-b") := mkJob "job-b" processing []]>
                         (<[("other", "job-c") := mkJob "job-c" queued []]> ∅)))
    (set_assets (fun _ => <["input-a" := mkAsset "input-a"]>
                            (<["holiday-video" := mkAsset "holiday-video"]> ∅))
      (set_streaming_locators
         (fun _ => <["locator-a" := mkStreamingLocator "locator-a" []]> ∅)
         empty_service)).

Definition sample_live_event : LiveEvent :=
  mkLiveEvent le_running
    (mkLiveEventInput [mkLiveEventEndpoint "rtmp://ingest.example/live"])
    (mkLiveEventPreview [mkLiveEventEndpoint "https://preview.example/manifest"]).

(** The live event appears at the fourth fetch. *)
Definition late_live_event (n : nat) : option LiveEvent :=
  if decide (n < 3) then None else Some sample_live_event.

Definition sample_live_program : Live.Program := Live.mkProgram "acct" "rg".

(** ** Logs that the environment made *)

(** [genuine w tr w']: the log [tr] is what the environment answers from
    the world [w] on, and leaves the world [w']: each call of the log was
    put to the environment in the world the calls before it left, and is
    logged with the answer it got there. *)
Inductive genuine {W} `{Env W} : W -> list event -> W -> Prop :=
| genuine_nil w : genuine w [] w
| genuine_enter w method tr w' :
    genuine w tr w' -> genuine w (Enter method :: tr) w'
| genuine_call {R} w (q : request R) tr w' :
    genuine (handle q w).2 tr w' -> genuine w (Call q (handle q w).1 :: tr) w'
| genuine_sys {R} w (q : sys_call R) tr w' :
    genuine (runtime q w).2 tr w' -> genuine w (Sys q (runtime q w).1 :: tr) w'.

(** A script whose log is, in every world, what the environment made of
    its calls, and which leaves the world these calls left. *)
Definition faithful {W A} `{Env W} (m : M W A) : Prop :=
  forall w, genuine w (log (m w)) (world_of (m w)).

(** ** More readings of a log *)

(** What the [jobs.get] calls of a log answered, in order. *)
Definition fetched_by (ev : event) : option (exn + option Job) :=
  match ev with
  | Call q r =>
    match q in request R return exn + R -> option (exn + option Job) with
    | Media c =>
      match c in media_call R return exn + R -> option (exn + option Job) with
      | jobs_get _ _ _ _ => fun r => Some r
      | _ => fun _ => None
      end
    | _ => fun _ => None
    end r
  | _ => None
  end.

Definition fetched (tr : list event) : list (exn + option Job) :=
  omap fetched_by tr.

(** The answer of a fetch that found a job. *)
Definition found (job : Job) : exn + option Job := inr (Some job).

(** The calls on the blob client that move a file: uploads and downloads
    with the storage account, the container, the blob and the local
    file. *)
Inductive transfer :=
| uploaded (account container blob file : string)
| downloaded (account container blob file : string).

Definition transfer_of (ev : event) : option transfer :=
  match ev with
  | Call q _ =>
    match q with
    | Storage c =>
      match c with
      | create_blob_from_path svc container blob file =>
        Some (uploaded (BlockBlobService_account_name svc) container blob file)
      | get_blob_to_path svc container blob file =>
        Some (downloaded (BlockBlobService_account_name svc) container blob file)
      | list_blobs _ _ => None
      end
    | _ => None
    end
  | _ => None
  end.

Definition transfers (tr : list event) : list transfer := omap transfer_of tr.

Definition is_upload (t : transfer) : bool :=
  match t with
  | uploaded _ _ _ _ => true
  | downloaded _ _ _ _ => false
  end.

(** The script changed nothing: it touched no resource of the account and
    uploaded no file. *)
Definition read_only (x : exit) (tr : list event) : Prop :=
  touched tr = [] /\ Forall (fun t => is_upload t = false) (transfers tr).

(** Every event of the log satisfies [P], however the script was left. *)
Definition every (P : event -> Prop) (x : exit) (tr : list event) : Prop :=
  Forall P tr.

(** The calls that delete a resource of the account. *)
Definition deletes (ev : event) : bool :=
  match ev with
  | Call q _ =>
    match q with
    | Media c =>
      match c with
      | assets_delete _ _ _ | jobs_delete _ _ _ _
      | content_key_policies_delete _ _ _ | streaming_locators_delete _ _ _
      | streaming_endpoints_delete _ _ _ | live_events_delete _ _ _ => true
      | _ => false
      end
    | _ => false
    end
  | _ => false
  end.

(** The keys in a log: the bytes [os.urandom] answered with their number
    asked, the key each token was signed with, and the options each
    content key policy was created or updated with. *)
Definition drawn_by (ev : event) : option (nat * list Byte.byte) :=
  match ev with
  | Sys q r =>
    match q in sys_call R return R -> option (nat * list Byte.byte) with
    | os_urandom n => fun bytes => Some (n, bytes)
    | _ => fun _ => None
    end r
  | _ => None
  end.

Definition signed_by (ev : event) : option (list Byte.byte * string) :=
  match ev with
  | Sys q _ =>
    match q with
    | jwt_encode _ key algorithm => Some (key, algorithm)
    | _ => None
    end
  | _ => None
  end.

Definition installed_by (ev : event) : option (list ContentKeyPolicyOption) :=
  match ev with
  | Call q _ =>
    match q with
    | Media c =>
      match c with
      | content_key_policies_create_or_update _ _ _ options => Some options
      | _ => None
      end
    | _ => None
    end
  | _ => None
  end.

Definition drawn (tr : list event) : list (nat * list Byte.byte) := omap drawn_by tr.
Definition signed (tr : list event) : list (list Byte.byte * string) :=
  omap signed_by tr.
Definition installed (tr : list event) : list (list ContentKeyPolicyOption) :=
  omap installed_by tr.

(** An event of a script before its cleanup: it deletes nothing, does not
    enter [clean_up], draws no key, and signs and installs with [key] and
    [options] only. *)
Definition tame (key : list Byte.byte) (options : list ContentKeyPolicyOption)
    (ev : event) : Prop :=
  deletes ev = false
  /\ entered "clean_up" ev = false
  /\ drawn_by ev = None
  /\ match signed_by ev with
     | Some signature => signature = (key, "HS256")
     | None => True
     end
  /\ match installed_by ev with
     | Some installation => installation = options
     | None => True
     end.

(** The calls that stop or delete a streaming endpoint. *)
Definition halts_endpoint (ev : event) : bool :=
  match ev with
  | Call q _ =>
    match q with
    | Media c =>
      match c with
      | streaming_endpoints_stop _ _ _ | streaming_endpoints_delete _ _ _ => true
      | _ => false
      end
    | _ => false
    end
  | _ => false
  end.

(** The resources a run of the live script names, from its settings and
    the names it derives from its UUID. *)
Definition resources_of (self : Live.Program) (n : Live.Names) : list resource :=
  let rg := Live.resource_group_name self in
  let acct := Live.account_name self in
  [the_live_event rg acct (Live.live_event_name n);
   the_asset rg acct (Live.asset_name n);
   the_live_output rg acct (Live.live_event_name n) (Live.live_output_name n);
   the_streaming_locator rg acct (Live.streaming_locator_name n);
   the_streaming_endpoint rg acct (Live.streaming_endpoint_name n)].

(** * Reasoning about scripts *)

(** ** One step of a script *)

Section Stepping.
Context {W : Type} `{Env W}.

Lemma after_nil {A} (r : result W A) : after [] r = r.
Proof. by destruct r as [[o w] tr]. Qed.

Lemma after_after {A} tr1 tr2 (r : result W A) :
  after tr1 (after tr2 r) = after (tr1 ++ tr2) r.
Proof. destruct r as [[o w] tr]. simpl. by rewrite app_assoc. Qed.

Lemma after_result {A} tr (o : outcome A) (w : W) tr' :
  after tr (o, w, tr') = (o, w, tr ++ tr').
Proof. reflexivity. Qed.

Lemma outcome_after {A} tr (r : result W A) : outcome_of (after tr r) = outcome_of r.
Proof. by destruct r as [[o w] tr']. Qed.

Lemma world_after {A} tr (r : result W A) : world_of (after tr r) = world_of r.
Proof. by destruct r as [[o w] tr']. Qed.

Lemma log_after {A} tr (r : result W A) : log (after tr r) = tr ++ log r.
Proof. by destruct r as [[o w] tr']. Qed.

Lemma run_bind {A B} (m : M W A) (k : A -> M W B) w :
  (m ≫= k) w =
  match m w with
  | (Return a, w', tr) => after tr (k a w')
  | (Raise e, w', tr) => (Raise e, w', tr)
  | (Running, w', tr) => (Running, w', tr)
  end.
Proof. reflexivity. Qed.

Lemma bind_ret {A B} (a : A) (k : A -> M W B) w : (ret a ≫= k) w = k a w.
Proof. rewrite run_bind. apply after_nil. Qed.

Lemma bind_raise {A B} e (k : A -> M W B) w :
  (raise e ≫= k) w = (Raise e, w, []).
Proof. reflexivity. Qed.

Lemma bind_enter {B} method (k : unit -> M W B) w :
  (enter method ≫= k) w = after [Enter method] (k tt w).
Proof. reflexivity. Qed.

Lemma bind_sys {R B} (q : sys_call R) (k : R -> M W B) w :
  (sys q ≫= k) w =
  after [Sys q (runtime q w).1] (k (runtime q w).1 (runtime q w).2).
Proof. rewrite run_bind. unfold sys. by destruct (runtime q w) as [r w']. Qed.

Lemma bind_print {B} line (k : unit -> M W B) w :
  (print line ≫= k) w =
  after [Sys (py_print line) tt] (k tt (runtime (py_print line) w).2).
Proof. unfold print. rewrite bind_sys. by destruct (runtime (py_print line) w).1. Qed.

Lemma bind_call {R B} (q : request R) (k : R -> M W B) w :
  (call q ≫= k) w =
  match handle q w with
  | (inl e, w') => (Raise e, w', [Call q (inl e)])
  | (inr a, w') => after [Call q (inr a)] (k a w')
  end.
Proof. rewrite run_bind. unfold call. by destruct (handle q w) as [[e|a] w']. Qed.

Lemma bind_media {R B} (c : media_call R) (k : R -> M W B) w :
  (media c ≫= k) w =
  match handle (Media c) w with
  | (inl e, w') => (Raise e, w', [Call (Media c) (inl e)])
  | (inr a, w') => after [Call (Media c) (inr a)] (k a w')
  end.
Proof. apply bind_call. Qed.

Lemma run_media {R} (c : media_call R) w :
  media c w =
  (answer (handle (Media c) w).1, (handle (Media c) w).2,
   [Call (Media c) (handle (Media c) w).1]).
Proof. unfold media, call. by destruct (handle (Media c) w). Qed.

Lemma run_print line w :
  print line w = (Return tt, (runtime (py_print line) w).2, [Sys (py_print line) tt]).
Proof.
  unfold print, sys. destruct (runtime (py_print line) w) as [r w'].
  by destruct r.
Qed.

Lemma run_sys {R} (q : sys_call R) w :
  sys q w = (Return (runtime q w).1, (runtime q w).2, [Sys q (runtime q w).1]).
Proof. unfold sys. by destruct (runtime q w). Qed.

Lemma bind_assoc {A B C} (m : M W A) (k1 : A -> M W B) (k2 : B -> M W C) w :
  ((m ≫= k1) ≫= k2) w = (m ≫= (fun a => k1 a ≫= k2)) w.
Proof.
  rewrite !run_bind.
  destruct (m w) as [[[a|e|] w1] tr1]; try reflexivity.
  rewrite run_bind.
  destruct (k1 a w1) as [[[b|e|] w2] tr2]; simpl; try reflexivity.
  destruct (k2 b w2) as [[o w3] tr3]. simpl. by rewrite app_assoc.
Qed.

End Stepping.

Lemma schedule_app tr1 tr2 : schedule (tr1 ++ tr2) = schedule tr1 ++ schedule tr2.
Proof. apply omap_app. Qed.

(** ** The job poller against a scripted client *)

Section ScriptedJobs.
Variable jobs : nat -> Job.
Variables rg acct tn jn : string.

Local Abbreviation loop := (AnalyzeVideoAndAudios.wait_for_job_to_finish_loop
                    (H := scripted_jobs jobs)).

(** Printing the outputs neither fetches nor sleeps, and leaves the client
    as it is. *)
Lemma print_job_outputs_scripted job len a n :
  a + len <= length (Job_outputs job) ->
  exists tr,
    for_each (seq a len)
      (AnalyzeVideoAndAudios.print_job_output (H := scripted_jobs jobs) job) n
    = (Return tt, n, tr)
    /\ schedule tr = [].
Proof.
  revert a. induction len as [|len IH]; intros a Hlen.
  - by exists [].
  - destruct (IH (S a)) as [tr [Hrun Hquiet]]; [lia|].
    destruct (lookup_lt_is_Some_2 (Job_outputs job) a) as [output Hout]; [lia|].
    cbn [seq for_each]. rewrite run_bind.
    unfold AnalyzeVideoAndAudios.print_job_output at 1. rewrite Hout.
    rewrite bind_print. cbn [runtime scripted_jobs snd].
    destruct (decide (JobOutput_state output = processing)).
    + rewrite run_print. cbn [runtime scripted_jobs snd after app].
      rewrite Hrun. eexists. split; [reflexivity|]. simpl. exact Hquiet.
    + cbn [ret after app]. rewrite Hrun. eexists. split; [reflexivity|].
      simpl. exact Hquiet.
Qed.

Lemma loop_terminal fuel n :
  terminal (Job_state (jobs n)) = true ->
  exists tr,
    loop (S fuel) rg acct tn jn n = (Return (jobs n), S n, tr)
    /\ schedule tr = [Fetch].
Proof.
  intros Hterm.
  destruct (print_job_outputs_scripted (jobs n) (length (Job_outputs (jobs n))) 0 (S n))
    as [tr [Hrun Hquiet]]; [lia|].
  cbn [AnalyzeVideoAndAudios.wait_for_job_to_finish_loop].
  rewrite bind_media. cbn [handle scripted_jobs scripted_jobs_handle].
  rewrite bind_print. cbn [runtime scripted_jobs snd].
  rewrite run_bind, Hrun, Hterm. cbn [ret after app].
  eexists. split; [reflexivity|]. simpl. by rewrite schedule_app, Hquiet.
Qed.

Lemma loop_turn fuel n :
  terminal (Job_state (jobs n)) = false ->
  exists tr,
    loop (S fuel) rg acct tn jn n = after tr (loop fuel rg acct tn jn (S n))
    /\ schedule tr = [Fetch; SleepFor 5].
Proof.
  intros Hterm.
  destruct (print_job_outputs_scripted (jobs n) (length (Job_outputs (jobs n))) 0 (S n))
    as [tr [Hrun Hquiet]]; [lia|].
  cbn [AnalyzeVideoAndAudios.wait_for_job_to_finish_loop].
  rewrite bind_media. cbn [handle scripted_jobs scripted_jobs_handle].
  rewrite bind_print. cbn [runtime scripted_jobs snd].
  rewrite run_bind, Hrun, Hterm. rewrite bind_sys.
  cbn [runtime scripted_jobs fst snd].
  rewrite !after_after. eexists. split; [reflexivity|].
  simpl. rewrite !schedule_app, Hquiet. reflexivity.
Qed.

(** The loop returns at the first terminal job record. *)
Lemma loop_returns k : forall n fuel,
  (forall i, i < k -> terminal (Job_state (jobs (n + i))) = false) ->
  terminal (Job_state (jobs (n + k))) = true ->
  k < fuel ->
  exists tr,
    loop fuel rg acct tn jn n = (Return (jobs (n + k)), S (n + k), tr)
    /\ schedule tr = turns k 5 ++ [Fetch].
Proof.
  induction k as [|k IH]; intros n fuel Hbefore Hat Hfuel.
  - destruct fuel as [|fuel]; [lia|].
    rewrite Nat.add_0_r in *. by apply loop_terminal.
  - destruct fuel as [|fuel]; [lia|].
    destruct (loop_turn fuel n) as [tr1 [Hrun1 Hsched1]].
    { specialize (Hbefore 0). rewrite Nat.add_0_r in Hbefore. apply Hbefore. lia. }
    destruct (IH (S n) fuel) as [tr2 [Hrun2 Hsched2]].
    { intros i Hi. replace (S n + i) with (n + S i) by lia. apply Hbefore. lia. }
    { by replace (S n + k) with (n + S k) by lia. }
    { lia. }
    rewrite Hrun1, Hrun2. cbn [after].
    replace (S n + k) with (n + S k) by lia.
    eexists. split; [reflexivity|].
    rewrite schedule_app, Hsched1, Hsched2. reflexivity.
Qed.

(** While no record is terminal the loop keeps turning. *)
Lemma loop_keeps_running fuel : forall n,
  (forall i, terminal (Job_state (jobs i)) = false) ->
  exists tr,
    loop fuel rg acct tn jn n = (Running, n + fuel, tr)
    /\ schedule tr = turns fuel 5.
Proof.
  induction fuel as [|fuel IH]; intros n Hnever.
  - exists []. rewrite Nat.add_0_r. by split.
  - destruct (loop_turn fuel n (Hnever n)) as [tr1 [Hrun1 Hsched1]].
    destruct (IH (S n) Hnever) as [tr2 [Hrun2 Hsched2]].
    rewrite Hrun1, Hrun2. cbn [after].
    replace (S n + fuel) with (n + S fuel) by lia.
    eexists. split; [reflexivity|].
    rewrite schedule_app, Hsched1, Hsched2. reflexivity.
Qed.

End ScriptedJobs.

(** A terminal record in a sequence has a first one. *)
Lemma terminal_scan (jobs : nat -> Job) n :
  (forall i, i < n -> terminal (Job_state (jobs i)) = false)
  \/ exists k, k < n /\ terminal (Job_state (jobs k)) = true
               /\ forall i, i < k -> terminal (Job_state (jobs i)) = false.
Proof.
  induction n as [|n [Hnone|[k [Hk [Hterm Hfirst]]]]].
  - left. intros i Hi. lia.
  - destruct (terminal (Job_state (jobs n))) eqn:E.
    + right. exists n. eauto.
    + left. intros i Hi. destruct (decide (i = n)) as [->|]; [done|].
      apply Hnone. lia.
  - right. exists k. eauto.
Qed.

Lemma first_terminal (jobs : nat -> Job) n :
  terminal (Job_state (jobs n)) = true ->
  exists k, terminal (Job_state (jobs k)) = true
            /\ forall i, i < k -> terminal (Job_state (jobs i)) = false.
Proof.
  intros Hn. destruct (terminal_scan jobs (S n)) as [Hnone|[k [_ [Hterm Hfirst]]]].
  - rewrite Hnone in Hn; [done|lia].
  - eauto.
Qed.

(** [exec] runs a script symbolically, step by step through its binds;
    [exec_split] also splits on the answer of each call. *)
Ltac exec_step :=
  match goal with
  | |- context [(ret _ ≫= _) _] => rewrite bind_ret
  | |- context [(raise _ ≫= _) _] => rewrite bind_raise
  | |- context [(enter _ ≫= _) _] => rewrite bind_enter
  | |- context [(print _ ≫= _) _] => rewrite bind_print
  | |- context [(sys _ ≫= _) _] => rewrite bind_sys
  | |- context [((_ ≫= _) ≫= _) _] => rewrite bind_assoc
  | |- context [media _ _] => rewrite run_media
  | |- context [print _ _] => rewrite run_print
  | |- context [sys _ _] => rewrite run_sys
  | |- context [after _ (after _ _)] => rewrite after_after
  | |- context [after _ (_, _, _)] => rewrite after_result
  end.
Ltac exec := repeat (exec_step; cbn [app fst snd answer ret raise]).

Ltac split_call :=
  match goal with
  | |- context [(media _ ≫= _) _] => rewrite bind_media
  | |- context [(call _ ≫= _) _] => rewrite bind_call
  | |- context [handle ?q ?w] =>
      let e := fresh "e" in let a := fresh "a" in
      let w' := fresh "w" in let E := fresh "Hcall" in
      destruct (handle q w) as [[e|a] w'] eqn:E
  end.
Ltac exec_split :=
  repeat ((exec_step || split_call); cbn [app fst snd answer ret raise]).

Lemma append_neq_self (s suffix : string) :
  suffix <> "" -> s +:+ suffix <> s.
Proof.
  intros Hne. induction s as [|c s IH]; simpl; [done|].
  intros Heq. injection Heq as Heq. by apply IH.
Qed.

(** ** Scripts that log what the environment answers *)

Section Faithful.
Context {W : Type} `{Env W}.

Lemma genuine_app (w : W) tr1 w1 tr2 w2 :
  genuine w tr1 w1 -> genuine w1 tr2 w2 -> genuine w (tr1 ++ tr2) w2.
Proof.
  induction 1 as [w|w method tr w' _ IH|R w q tr w' _ IH|R w q tr w' _ IH];
    intros H2; cbn [app]; [done|constructor; auto..].
Qed.

Lemma faithful_ret {A} (a : A) : faithful (ret (W := W) a).
Proof. intros w. constructor. Qed.

Lemma faithful_raise {A} e : faithful (raise (W := W) (A := A) e).
Proof. intros w. constructor. Qed.

Lemma faithful_still_running {A} : faithful (still_running (W := W) (A := A)).
Proof. intros w. constructor. Qed.

Lemma faithful_enter method : faithful (enter (W := W) method).
Proof. intros w. repeat constructor. Qed.

Lemma faithful_sys {R} (q : sys_call R) : faithful (sys q).
Proof.
  intros w. rewrite run_sys. cbn [log world_of fst snd]. repeat constructor.
Qed.

Lemma faithful_print line : faithful (print line).
Proof. apply faithful_sys. Qed.

Lemma faithful_call {R} (q : request R) : faithful (call q).
Proof.
  intros w. unfold call.
  pose proof (genuine_call w q [] _ (genuine_nil _)) as Hq.
  by destruct (handle q w) as [r w'].
Qed.

Lemma faithful_media {R} (c : media_call R) : faithful (media c).
Proof. apply faithful_call. Qed.

Lemma faithful_storage {R} (c : blob_call R) : faithful (storage c).
Proof. apply faithful_call. Qed.

Lemma faithful_bind {A B} (m : M W A) (k : A -> M W B) :
  faithful m -> (forall a, faithful (k a)) -> faithful (m ≫= k).
Proof.
  intros Hm Hk w. rewrite run_bind. specialize (Hm w).
  destruct (m w) as [[[a|e|] w1] tr1]; cbn [log world_of fst snd] in *;
    [|done..].
  specialize (Hk a w1). destruct (k a w1) as [[o w2] tr2].
  cbn [after log world_of fst snd] in *. by eapply genuine_app.
Qed.

Lemma faithful_index0 {A} (xs : list A) : faithful (index0 (W := W) xs).
Proof. destruct xs; intros w; constructor. Qed.

Lemma faithful_new_BlockBlobService account_name sas_token :
  faithful (new_BlockBlobService (W := W) account_name sas_token).
Proof.
  unfold new_BlockBlobService. destruct (decide _); intros w; constructor.
Qed.

Lemma faithful_for_each {A} (xs : list A) (body : A -> M W unit) :
  (forall x, faithful (body x)) -> faithful (for_each xs body).
Proof.
  intros Hbody. induction xs as [|x xs IH]; cbn [for_each].
  - apply faithful_ret.
  - apply faithful_bind; auto.
Qed.

Lemma faithful_for_fold {A S} (xs : list A) (acc : S) (body : S -> A -> M W S) :
  (forall acc x, faithful (body acc x)) -> faithful (for_fold xs acc body).
Proof.
  intros Hbody. revert acc. induction xs as [|x xs IH]; intros acc; cbn [for_fold].
  - apply faithful_ret.
  - apply faithful_bind; auto.
Qed.

End Faithful.

(** [faithful_auto] follows the text of a script made of calls, prints,
    tests and loops over lists. *)
Ltac faithful_step :=
  lazymatch goal with
  | |- faithful (_ ≫= _) => apply faithful_bind; [|intros ?]
  | |- faithful (ret _) => apply faithful_ret
  | |- faithful (raise _) => apply faithful_raise
  | |- faithful still_running => apply faithful_still_running
  | |- faithful (enter _) => apply faithful_enter
  | |- faithful (print _) => apply faithful_print
  | |- faithful (sys _) => apply faithful_sys
  | |- faithful (media _) => apply faithful_media
  | |- faithful (storage _) => apply faithful_storage
  | |- faithful (call _) => apply faithful_call
  | |- faithful (index0 _) => apply faithful_index0
  | |- faithful (new_BlockBlobService _ _) => apply faithful_new_BlockBlobService
  | |- faithful (for_each _ _) => apply faithful_for_each; intros ?
  | |- faithful (for_fold _ _ _) => apply faithful_for_fold; intros ? ?
  | |- faithful (match ?x with _ => _ end) => destruct x
  | |- faithful (let '(_, _) := ?p in _) => destruct p
  end.
Ltac faithful_auto := repeat faithful_step.

(** ** Job polling: claims C1 and C4 *)

(** C1.  For every sequence of job records that the successive [jobs.get]
    calls return and that contains a record whose state is finished, error
    or canceled, [wait_for_job_to_finish] of the analyze script and of the
    encrypt script returns at the first such fetch [k] (given fuel for more
    than [k] turns): it returns that record, whose state is terminal, after
    exactly [k + 1] fetches, with a sleep of 5 seconds after each of the
    [k] fetches before. *)
Theorem wait_for_job_to_finish_returns_first_terminal
    (jobs : nat -> Job) (rg acct tn jn : string) :
  (exists n, terminal (Job_state (jobs n)) = true) ->
  exists k,
    terminal (Job_state (jobs k)) = true
    /\ (forall i, i < k -> terminal (Job_state (jobs i)) = false)
    /\ forall fuel, k < fuel ->
       let analyze := AnalyzeVideoAndAudios.wait_for_job_to_finish
                        (H := scripted_jobs jobs) fuel rg acct tn jn 0 in
       let encrypt := EncryptWithAES.wait_for_job_to_finish
                        (H := scripted_jobs jobs) fuel rg acct tn jn 0 in
       outcome_of analyze = Return (jobs k)
       /\ world_of analyze = S k
       /\ schedule (log analyze) = turns k 5 ++ [Fetch]
       /\ outcome_of encrypt = Return (jobs k)
       /\ world_of encrypt = S k
       /\ schedule (log encrypt) = turns k 5 ++ [Fetch].
Proof.
  intros [n Hn]. destruct (first_terminal jobs n Hn) as [k [Hterm Hfirst]].
  exists k. split; [done|]. split; [done|]. intros fuel Hfuel.
  cbv zeta.
  change (@EncryptWithAES.wait_for_job_to_finish) with
    (@AnalyzeVideoAndAudios.wait_for_job_to_finish).
  destruct (loop_returns jobs rg acct tn jn k 0 fuel) as [tr [Hrun Hsched]];
    [done..|].
  unfold AnalyzeVideoAndAudios.wait_for_job_to_finish.
  rewrite bind_enter, Hrun. cbn [after outcome_of world_of log fst snd app].
  change (schedule (Enter "wait_for_job_to_finish" :: tr)) with (schedule tr).
  by rewrite Hsched.
Qed.

Lemma wait_for_job_to_finish_returns_first_terminal_witness :
  (exists n, terminal (Job_state (sample_jobs n)) = true)
  /\ exists k,
    terminal (Job_state (sample_jobs k)) = true
    /\ (forall i, i < k -> terminal (Job_state (sample_jobs i)) = false)
    /\ forall fuel, k < fuel ->
       let analyze := AnalyzeVideoAndAudios.wait_for_job_to_finish
                        (H := scripted_jobs sample_jobs) fuel "rg" "acct" "tf" "job-1" 0 in
       let encrypt := EncryptWithAES.wait_for_job_to_finish
                        (H := scripted_jobs sample_jobs) fuel "rg" "acct" "tf" "job-1" 0 in
       outcome_of analyze = Return (sample_jobs k)
       /\ world_of analyze = S k
       /\ schedule (log analyze) = turns k 5 ++ [Fetch]
       /\ outcome_of encrypt = Return (sample_jobs k)
       /\ world_of encrypt = S k
       /\ schedule (log encrypt) = turns k 5 ++ [Fetch].
Proof.
  assert (Hex : exists n, terminal (Job_state (sample_jobs n)) = true)
    by (exists 2; reflexivity).
  split; [exact Hex|].
  exact (wait_for_job_to_finish_returns_first_terminal sample_jobs
           "rg" "acct" "tf" "job-1" Hex).
Defined.

(** C4.  When no fetched job record is ever finished, error or canceled,
    [wait_for_job_to_finish] does not return: whatever the fuel, that is
    however many turns the loop is given, it is still running after it,
    having fetched once in each turn and slept the same 5 seconds after
    each fetch.  No turn ends the loop, lengthens the sleep or raises. *)
Theorem wait_for_job_to_finish_never_returns
    (jobs : nat -> Job) (rg acct tn jn : string) :
  (forall n, terminal (Job_state (jobs n)) = false) ->
  forall fuel,
    let analyze := AnalyzeVideoAndAudios.wait_for_job_to_finish
                     (H := scripted_jobs jobs) fuel rg acct tn jn 0 in
    let encrypt := EncryptWithAES.wait_for_job_to_finish
                     (H := scripted_jobs jobs) fuel rg acct tn jn 0 in
    outcome_of analyze = Running
    /\ world_of analyze = fuel
    /\ schedule (log analyze) = turns fuel 5
    /\ outcome_of encrypt = Running
    /\ world_of encrypt = fuel
    /\ schedule (log encrypt) = turns fuel 5.
Proof.
  intros Hnever fuel.
  cbv zeta.
  change (@EncryptWithAES.wait_for_job_to_finish) with
    (@AnalyzeVideoAndAudios.wait_for_job_to_finish).
  destruct (loop_keeps_running jobs rg acct tn jn fuel 0 Hnever)
    as [tr [Hrun Hsched]].
  unfold AnalyzeVideoAndAudios.wait_for_job_to_finish.
  rewrite bind_enter, Hrun. cbn [after outcome_of world_of log fst snd app].
  change (schedule (Enter "wait_for_job_to_finish" :: tr)) with (schedule tr).
  by rewrite Hsched.
Qed.

Lemma wait_for_job_to_finish_never_returns_witness :
  (forall n, terminal (Job_state (stuck_jobs n)) = false)
  /\ outcome_of (AnalyzeVideoAndAudios.wait_for_job_to_finish
                   (H := scripted_jobs stuck_jobs) 1000 "rg" "acct" "tf" "job-1" 0)
     = Running.
Proof.
  assert (Hnever : forall n, terminal (Job_state (stuck_jobs n)) = false)
    by (intros n; reflexivity).
  split; [exact Hnever|].
  exact (proj1 (wait_for_job_to_finish_never_returns stuck_jobs
                  "rg" "acct" "tf" "job-1" Hnever 1000)).
Defined.

(** ** Waiting for the live event: claim C8 *)

Section ScriptedLiveEvents.
Variable events : nat -> option LiveEvent.
Variable self : Live.Program.
Variable name : string.

Local Abbreviation wait := (Live.wait_for_live_event (H := scripted_live_events events)).

Lemma wait_found fuel n ev :
  events n = Some ev ->
  wait (S fuel) self name n
  = (Return ev, S n,
     [Call (Media (live_events_get (Live.resource_group_name self)
                     (Live.account_name self) name)) (inr (Some ev))]).
Proof.
  intros Hev. cbn [Live.wait_for_live_event]. rewrite bind_media.
  cbn [handle scripted_live_events scripted_live_events_handle].
  rewrite Hev. reflexivity.
Qed.

Lemma wait_turn fuel n :
  events n = None ->
  wait (S fuel) self name n
  = after [Call (Media (live_events_get (Live.resource_group_name self)
                          (Live.account_name self) name)) (inr None);
           Sys (time_sleep 5) tt]
      (wait fuel self name (S n)).
Proof.
  intros Hev. cbn [Live.wait_for_live_event]. rewrite bind_media.
  cbn [handle scripted_live_events scripted_live_events_handle].
  rewrite Hev, bind_sys. cbn [runtime scripted_live_events fst snd fixed_runtime].
  by rewrite after_after.
Qed.

Lemma wait_returns k : forall n fuel ev,
  (forall i, i < k -> events (n + i) = None) ->
  events (n + k) = Some ev ->
  k < fuel ->
  exists tr,
    wait fuel self name n = (Return ev, S (n + k), tr)
    /\ schedule tr = turns k 5 ++ [Fetch].
Proof.
  induction k as [|k IH]; intros n fuel ev Hbefore Hat Hfuel.
  - destruct fuel as [|fuel]; [lia|]. rewrite Nat.add_0_r in *.
    rewrite (wait_found _ _ ev Hat). by eexists.
  - destruct fuel as [|fuel]; [lia|].
    rewrite wait_turn.
    2:{ specialize (Hbefore 0). rewrite Nat.add_0_r in Hbefore. apply Hbefore. lia. }
    destruct (IH (S n) fuel ev) as [tr [-> Hsched]].
    { intros i Hi. replace (S n + i) with (n + S i) by lia. apply Hbefore. lia. }
    { by replace (S n + k) with (n + S k) by lia. }
    { lia. }
    cbn [after]. replace (S n + k) with (n + S k) by lia.
    eexists. split; [reflexivity|].
    rewrite schedule_app, Hsched. reflexivity.
Qed.

Lemma wait_keeps_running fuel : forall n,
  (forall i, events i = None) ->
  exists tr,
    wait fuel self name n = (Running, n + fuel, tr)
    /\ schedule tr = turns fuel 5.
Proof.
  induction fuel as [|fuel IH]; intros n Hnever.
  - exists []. rewrite Nat.add_0_r. by split.
  - rewrite wait_turn by done.
    destruct (IH (S n) Hnever) as [tr [-> Hsched]].
    cbn [after]. replace (S n + fuel) with (n + S fuel) by lia.
    eexists. split; [reflexivity|].
    rewrite schedule_app, Hsched. reflexivity.
Qed.

(** The loop returns only what a fetch answered, and that fetch is the
    first that answered an event. *)
Lemma wait_returned fuel : forall n ev,
  outcome_of (wait fuel self name n) = Return ev ->
  exists k,
    events (n + k) = Some ev
    /\ (forall i, i < k -> events (n + i) = None)
    /\ world_of (wait fuel self name n) = S (n + k).
Proof.
  induction fuel as [|fuel IH]; intros n ev Hret; [discriminate|].
  destruct (events n) as [found|] eqn:Hev.
  - rewrite (wait_found _ _ found Hev) in *. injection Hret as ->.
    exists 0. rewrite Nat.add_0_r. split; [done|]. split; [|done].
    intros i Hi. lia.
  - rewrite wait_turn in * by done.
    rewrite outcome_after in Hret. rewrite world_after.
    destruct (IH (S n) ev Hret) as [k [Hat [Hbefore Hworld]]].
    exists (S k). replace (n + S k) with (S n + k) by lia.
    split; [done|]. split; [|done].
    intros [|i] Hi; [by rewrite Nat.add_0_r|].
    replace (n + S i) with (S n + i) by lia. apply Hbefore. lia.
Qed.

End ScriptedLiveEvents.

(** In any environment, the loop is left only on a fetch that answered an
    event, with that event. *)
Lemma wait_for_live_event_leaves_with W (H : Env W) fuel :
  forall (self : Live.Program) name (w : W) ev,
    outcome_of (Live.wait_for_live_event fuel self name w) = Return ev ->
    exists tr,
      log (Live.wait_for_live_event fuel self name w)
      = tr ++ [Call (Media (live_events_get (Live.resource_group_name self)
                              (Live.account_name self) name)) (inr (Some ev))].
Proof.
  induction fuel as [|fuel IH]; intros self name w ev; [discriminate|].
  cbn [Live.wait_for_live_event]. rewrite bind_media.
  destruct (handle _ w) as [[e|[found|]] w1]; [discriminate|..].
  - cbn [ret after app outcome_of log fst snd]. intros [= ->]. by exists [].
  - rewrite bind_sys, after_after, outcome_after, log_after.
    intros Hret. destruct (IH self name _ ev Hret) as [tr ->].
    eexists. by rewrite app_assoc.
Qed.



(** ** Output assets and transforms: claims C3 and C5 *)

(** C3.  [create_output_asset], in the analyze script and in the encrypt
    script alike: when [assets.get] answers an existing asset for the
    requested name, two warning lines are printed and the asset is created
    under the requested name followed by a suffix, the text of
    [uuid.uuid1], which is a name different from the requested one; when
    [assets.get] answers [None] the asset is created under exactly the
    requested name, with no warning.  (When [assets.get] raises, nothing is
    created.)  In each case the method gives what [assets.create_or_update]
    gives. *)
Theorem create_output_asset_name W (H : Env W) rg acct asset_name (w : W) :
  EncryptWithAES.create_output_asset rg acct asset_name w
  = AnalyzeVideoAndAudios.create_output_asset rg acct asset_name w
  /\ match (handle (Media (assets_get rg acct asset_name)) w).1 with
     | inl e =>
       exists w',
         AnalyzeVideoAndAudios.create_output_asset rg acct asset_name w
         = (Raise e, w',
            [Enter "create_output_asset";
             Call (Media (assets_get rg acct asset_name)) (inl e)])
     | inr (Some existing) =>
       exists address created w',
         let new_name := asset_name +:+ str_of_uuid1_function address in
         AnalyzeVideoAndAudios.create_output_asset rg acct asset_name w
         = (answer created, w',
            [Enter "create_output_asset";
             Call (Media (assets_get rg acct asset_name)) (inr (Some existing));
             Sys address_of_uuid1 address;
             Sys (py_print ("Warning – found an existing Asset with name = "
                            +:+ asset_name)) tt;
             Sys (py_print ("Creating an Asset with this name instead: "
                            +:+ new_name)) tt;
             Call (Media (assets_create_or_update rg acct new_name Asset_new))
               created])
         /\ new_name <> asset_name
     | inr None =>
       exists created w',
         AnalyzeVideoAndAudios.create_output_asset rg acct asset_name w
         = (answer created, w',
            [Enter "create_output_asset";
             Call (Media (assets_get rg acct asset_name)) (inr None);
             Call (Media (assets_create_or_update rg acct asset_name Asset_new))
               created])
     end.
Proof.
  split; [reflexivity|].
  unfold AnalyzeVideoAndAudios.create_output_asset.
  rewrite bind_enter, bind_media.
  destruct (handle (Media (assets_get rg acct asset_name)) w)
    as [[e|[existing|]] w1]; cbn [fst].
  - eexists. reflexivity.
  - exec. eexists _, _, _. split; [reflexivity|].
    by apply append_neq_self.
  - exec. eexists _, _. reflexivity.
Qed.

(** On the in-memory service: a free name is used as it is, a taken name is
    not. *)
Example create_output_asset_free_name :
  let r := AnalyzeVideoAndAudios.create_output_asset (H := service)
             "rg" "acct" "output-1" empty_service in
  outcome_of r = Return (mkAsset "output-1").
Proof. reflexivity. Qed.

Example create_output_asset_taken_name :
  let taken := set_assets <["output-1" := mkAsset "output-1"]> empty_service in
  let r := EncryptWithAES.create_output_asset (H := service)
             "rg" "acct" "output-1" taken in
  outcome_of r = Return (mkAsset "output-1<function uuid1 at 0x7f3a2c1b5e50>").
Proof. vm_compute. reflexivity. Qed.

(** C5.  [get_or_create_transform] gets or creates.  When [transforms.get]
    answers an existing transform, the method returns it and calls nothing
    else; only when it answers [None] does the method call
    [transforms.create_or_update], with the one output built from the
    preset (the given preset in the analyze script, the built-in adaptive
    streaming preset in the encrypt script).  Hence, on a service that
    keeps what is created, a second call with the same name returns the
    same transform as the first, creates nothing and leaves the service as
    it is. *)
Theorem get_or_create_transform_idempotent W (H : Env W) rg acct name preset (w : W) :
  match (handle (Media (transforms_get rg acct name)) w).1 with
  | inl e =>
    exists w',
      AnalyzeVideoAndAudios.get_or_create_transform rg acct name preset w
      = (Raise e, w', [Enter "get_or_create_transform";
                       Call (Media (transforms_get rg acct name)) (inl e)])
      /\ EncryptWithAES.get_or_create_transform rg acct name w
         = (Raise e, w', [Enter "get_or_create_transform";
                          Call (Media (transforms_get rg acct name)) (inl e)])
  | inr (Some existing) =>
    exists w',
      AnalyzeVideoAndAudios.get_or_create_transform rg acct name preset w
      = (Return existing, w',
         [Enter "get_or_create_transform";
          Call (Media (transforms_get rg acct name)) (inr (Some existing))])
      /\ EncryptWithAES.get_or_create_transform rg acct name w
         = (Return existing, w',
            [Enter "get_or_create_transform";
             Call (Media (transforms_get rg acct name)) (inr (Some existing))])
  | inr None =>
    (exists created w',
       AnalyzeVideoAndAudios.get_or_create_transform rg acct name preset w
       = (answer created, w',
          [Enter "get_or_create_transform";
           Call (Media (transforms_get rg acct name)) (inr None);
           Call (Media (transforms_create_or_update rg acct name
                          [mkTransformOutput preset])) created]))
    /\ (exists created w',
          EncryptWithAES.get_or_create_transform rg acct name w
          = (answer created, w',
             [Enter "get_or_create_transform";
              Call (Media (transforms_get rg acct name)) (inr None);
              Call (Media (transforms_create_or_update rg acct name
                             [mkTransformOutput
                                (BuiltInStandardEncoderPreset adaptive_streaming)]))
                created]))
  end
  /\ forall s : Service,
       let first := AnalyzeVideoAndAudios.get_or_create_transform (H := service)
                      rg acct name preset s in
       let second := AnalyzeVideoAndAudios.get_or_create_transform (H := service)
                       rg acct name preset (world_of first) in
       let first' := EncryptWithAES.get_or_create_transform (H := service)
                       rg acct name s in
       let second' := EncryptWithAES.get_or_create_transform (H := service)
                        rg acct name (world_of first') in
       (exists transform,
          outcome_of first = Return transform
          /\ second = (Return transform, world_of first,
                       [Enter "get_or_create_transform";
                        Call (Media (transforms_get rg acct name))
                          (inr (Some transform))]))
       /\ (exists transform,
             outcome_of first' = Return transform
             /\ second' = (Return transform, world_of first',
                           [Enter "get_or_create_transform";
                            Call (Media (transforms_get rg acct name))
                              (inr (Some transform))])).
Proof.
  split.
  - unfold AnalyzeVideoAndAudios.get_or_create_transform,
      EncryptWithAES.get_or_create_transform.
    rewrite !bind_enter, !bind_media.
    destruct (handle (Media (transforms_get rg acct name)) w)
      as [[e|[existing|]] w1]; cbn [fst].
    + eexists. split; reflexivity.
    + exec. eexists. split; reflexivity.
    + exec. split; eexists _, _; reflexivity.
  - intros s. cbv zeta.
    unfold AnalyzeVideoAndAudios.get_or_create_transform,
      EncryptWithAES.get_or_create_transform.
    rewrite !(bind_enter _ _ s), !(bind_media _ _ s).
    cbn [handle service service_handle service_media].
    destruct (transforms s !! name) as [existing|] eqn:Hlookup.
    + cbn [after app ret world_of outcome_of fst snd].
      rewrite !bind_enter, !bind_media.
      cbn [handle service service_handle service_media]. rewrite Hlookup.
      split; exists existing; split; reflexivity.
    + rewrite !run_media.
      cbn [handle service service_handle service_media after app answer
           world_of outcome_of fst snd].
      rewrite !bind_enter, !bind_media.
      cbn [handle service service_handle service_media set_transforms transforms].
      rewrite !lookup_insert_eq.
      split; eexists; split; reflexivity.
Qed.

(** ** The playback token: claim C2 *)

Lemma token_payload_lookup issuer audience claim_type key_identifier nbf exp :
  claim_type <> "iss" -> claim_type <> "aud" ->
  claim_type <> "nbf" -> claim_type <> "exp" ->
  let payload := EncryptWithAES.token_payload issuer audience claim_type
                   key_identifier nbf exp in
  payload !! "iss" = Some (claim_str issuer)
  /\ payload !! "aud" = Some (claim_str audience)
  /\ payload !! claim_type = Some (claim_str key_identifier)
  /\ payload !! "nbf" = Some (claim_datetime nbf)
  /\ payload !! "exp" = Some (claim_datetime exp).
Proof.
  intros Hiss Haud Hnbf Hexp. unfold EncryptWithAES.token_payload. cbv zeta.
  repeat split; by simplify_map_eq.
Qed.

(** C2, as the code has it.  [get_token] reads the clock twice and returns
    the JWT that [jwt.encode] makes with algorithm HS256 under the key it is
    given, which [run] takes from [self.token_sign_key], the key
    [__init__] drew with [urandom(40)] for this run, whatever the claim
    type is.  Provided the
    configured content-key-identifier claim type is none of ['iss'],
    ['aud'], ['nbf'], ['exp'], the payload maps ['iss'] to the configured
    issuer, ['aud'] to the configured audience, the claim type to the given
    key identifier, ['nbf'] to five minutes before the first clock reading
    and ['exp'] to one hour after the second. *)
Theorem get_token_payload W (H : Env W) (self : EncryptWithAES.Program)
    (key_identifier : string) (w : W) :
  let claim_type := EncryptWithAES.content_key_identifier_claim_type self in
  (exists now1 now2 payload token w',
     EncryptWithAES.get_token (EncryptWithAES.issuer self)
       (EncryptWithAES.audience self) claim_type key_identifier
       (EncryptWithAES.token_sign_key self) w
     = (Return token, w',
        [Enter "get_token";
         Sys datetime_utcnow now1;
         Sys datetime_utcnow now2;
         Sys (jwt_encode payload (EncryptWithAES.token_sign_key self) "HS256")
           token])
     /\ (claim_type <> "iss" -> claim_type <> "aud" ->
         claim_type <> "nbf" -> claim_type <> "exp" ->
         payload !! "iss" = Some (claim_str (EncryptWithAES.issuer self))
         /\ payload !! "aud" = Some (claim_str (EncryptWithAES.audience self))
         /\ payload !! claim_type = Some (claim_str key_identifier)
         /\ payload !! "nbf" = Some (claim_datetime (now1 - 5 * 60 * 1000000)%Z)
         /\ payload !! "exp" = Some (claim_datetime (now2 + 60 * 60 * 1000000)%Z)))
  /\ exists made key w' tr,
       EncryptWithAES.init w = (Return made, w', tr)
       /\ Sys (os_urandom 40) key ∈ tr
       /\ EncryptWithAES.token_sign_key made = key.
Proof.
  intros claim_type. split.
  - unfold EncryptWithAES.get_token. exec.
    eexists _, _, _, _, _. split; [reflexivity|].
    intros Hiss Haud Hnbf Hexp.
    apply (token_payload_lookup _ _ claim_type); assumption.
  - unfold EncryptWithAES.init. exec.
    eexists _, _, _, _. split; [reflexivity|]. split; [|reflexivity].
    do 7 apply list_elem_of_further. apply list_elem_of_here.
Qed.

Lemma get_token_payload_witness :
  exists now1 now2 payload token w',
    EncryptWithAES.get_token (H := service) "https://issuer.example" "urn:audience"
      "urn:microsoft:azure:mediaservices:contentkeyidentifier" "content-key-1"
      sample_key empty_service
    = (Return token, w',
       [Enter "get_token";
        Sys datetime_utcnow now1;
        Sys datetime_utcnow now2;
        Sys (jwt_encode payload sample_key "HS256") token])
    /\ payload !! "iss" = Some (claim_str "https://issuer.example")
    /\ payload !! "aud" = Some (claim_str "urn:audience")
    /\ payload !! "urn:microsoft:azure:mediaservices:contentkeyidentifier"
       = Some (claim_str "content-key-1")
    /\ payload !! "nbf" = Some (claim_datetime (now1 - 5 * 60 * 1000000)%Z)
    /\ payload !! "exp" = Some (claim_datetime (now2 + 60 * 60 * 1000000)%Z).
Proof.
  destruct (proj1 (get_token_payload Service service sample_encrypt_program
                     "content-key-1" empty_service))
    as (now1 & now2 & payload & token & w' & Hrun & Hpayload).
  exists now1, now2, payload, token, w'. split; [exact Hrun|].
  apply Hpayload; discriminate.
Defined.

(** C2 as stated fails when the configured claim type is ['iss']: the
    dictionary display stores the key identifier under ['iss'], over the
    issuer. *)
Lemma get_token_claim_type_collision :
  let payload :=
    EncryptWithAES.token_payload "https://issuer.example" "urn:audience" "iss"
      "content-key-1" (1600000000000000 - 300000000)%Z
      (1600000000000000 + 3600000000)%Z in
  EncryptWithAES.get_token (H := service) "https://issuer.example" "urn:audience"
    "iss" "content-key-1" sample_key empty_service
  = (Return "eyJ0eXAi.eyJpc3Mi.c2lnbmF0dXJl", empty_service,
     [Enter "get_token";
      Sys datetime_utcnow 1600000000000000%Z;
      Sys datetime_utcnow 1600000000000000%Z;
      Sys (jwt_encode payload sample_key "HS256") "eyJ0eXAi.eyJpc3Mi.c2lnbmF0dXJl"])
  /\ payload !! "iss" = Some (claim_str "content-key-1")
  /\ payload !! "iss" <> Some (claim_str "https://issuer.example").
Proof.
  cbv zeta. split; [reflexivity|].
  assert (Hiss : EncryptWithAES.token_payload "https://issuer.example"
                   "urn:audience" "iss" "content-key-1"
                   (1600000000000000 - 300000000)%Z
                   (1600000000000000 + 3600000000)%Z !! "iss"
                 = Some (claim_str "content-key-1")).
  { unfold EncryptWithAES.token_payload. by simplify_map_eq. }
  rewrite Hiss. split; [reflexivity|discriminate].
Qed.

(** ** Cleaning up the account: claim C9 *)

Lemma touched_app tr1 tr2 : touched (tr1 ++ tr2) = touched tr1 ++ touched tr2.
Proof. apply omap_app. Qed.

Lemma listed_app tr1 tr2 : listed (tr1 ++ tr2) = listed tr1 ++ listed tr2.
Proof. unfold listed. apply bind_app. Qed.

Lemma touched_cons ev tr :
  touched (ev :: tr)
  = match touched_by ev with
    | Some r => r :: touched tr
    | None => touched tr
    end.
Proof. reflexivity. Qed.

Lemma listed_cons ev tr : listed (ev :: tr) = listed_by ev ++ listed tr.
Proof. reflexivity. Qed.

Section DeleteEach.
Context {W : Type} `{Env W}.
Context {A : Type} (delete_call : A -> media_call unit) (target : A -> resource).
Hypothesis delete_touches : forall x, touched_by_media (delete_call x) = Some (target x).
Hypothesis delete_lists : forall x r, listed_by (Call (Media (delete_call x)) r) = [].

(** [deleted xs]: the log of the deletions of [xs], all answered. *)
Local Abbreviation deleted xs :=
  (map (fun x => Call (Media (delete_call x)) (inr tt)) xs).

Lemma touched_deleted xs : touched (deleted xs) = map target xs.
Proof.
  induction xs as [|x xs IH]; [reflexivity|].
  cbn [map]. rewrite touched_cons, IH. cbn [touched_by]. by rewrite delete_touches.
Qed.

Lemma listed_deleted xs : listed (deleted xs) = [].
Proof.
  induction xs as [|x xs IH]; [reflexivity|].
  cbn [map]. by rewrite listed_cons, IH, delete_lists.
Qed.

(** [for x in xs: delete x] and what follows it: either every deletion
    answers and the rest runs, or one raises, after the deletions before
    it, and the method stops there. *)
Lemma for_each_delete_then {B} (xs : list A) (k : M W B) (w : W) :
  (exists w',
     (for_each xs (fun x => media (delete_call x)) ≫= fun _ => k) w
     = after (deleted xs) (k w'))
  \/ (exists before x rest e w',
        xs = before ++ x :: rest
        /\ (for_each xs (fun x => media (delete_call x)) ≫= fun _ => k) w
           = (Raise e, w', deleted before ++ [Call (Media (delete_call x)) (inl e)])).
Proof.
  revert w. induction xs as [|x xs IH]; intros w.
  - left. exists w. cbn [for_each]. rewrite bind_ret. by rewrite after_nil.
  - cbn [for_each]. rewrite bind_assoc, bind_media.
    destruct (handle (Media (delete_call x)) w) as [[e|[]] w1].
    + right. exists [], x, xs, e, w1. by split.
    + destruct (IH w1) as [[w' Hrun]|(before & y & rest & e & w' & Hxs & Hrun)].
      * left. exists w'. rewrite Hrun, after_after. reflexivity.
      * right. exists (x :: before), y, rest, e, w'. split; [by rewrite Hxs|].
        rewrite Hrun. reflexivity.
Qed.

Lemma for_each_delete (xs : list A) (w : W) :
  (exists w',
     for_each xs (fun x => media (delete_call x)) w = (Return tt, w', deleted xs))
  \/ (exists before x rest e w',
        xs = before ++ x :: rest
        /\ for_each xs (fun x => media (delete_call x)) w
           = (Raise e, w', deleted before ++ [Call (Media (delete_call x)) (inl e)])).
Proof.
  destruct (for_each_delete_then xs (ret tt) w)
    as [[w' Hrun]|(before & y & rest & e & w' & Hxs & Hrun)].
  - left. exists w'. revert Hrun. rewrite run_bind.
    destruct (for_each xs _ w) as [[[[]|e|] w1] tr1]; cbn [ret after];
      rewrite ?app_nil_r; intros Hrun.
    + injection Hrun as <- <-. reflexivity.
    + discriminate.
    + discriminate.
  - right. exists before, y, rest, e, w'. split; [done|].
    revert Hrun. rewrite run_bind.
    destruct (for_each xs _ w) as [[[[]|e'|] w1] tr1]; cbn [ret after];
      intros Hrun; [discriminate|done|discriminate].
Qed.

End DeleteEach.

(** [read_log] computes what a log touched and listed. *)
Ltac read_log :=
  cbn [after log outcome_of fst snd app];
  repeat (rewrite ?touched_cons, ?listed_cons, ?touched_app, ?listed_app,
            ?map_app;
          cbn [touched_by listed_by touched_by_media app map]);
  repeat match goal with
  | |- context [touched (map (fun x => Call (Media (@?del x)) (inr tt)) ?xs)] =>
      rewrite (touched_deleted del _ (fun _ => eq_refl) xs)
  | |- context [listed (map (fun x => Call (Media (@?del x)) (inr tt)) ?xs)] =>
      rewrite (listed_deleted del (fun _ _ => eq_refl) xs)
  end;
  rewrite ?app_nil_r; cbn [touched listed omap mbind app].

Ltac solve_prefix :=
  rewrite <- ?app_assoc; cbn [app];
  repeat (apply prefix_app || apply prefix_cons);
  first [apply prefix_nil | reflexivity | apply prefix_app_r; reflexivity].

Section CleanUp.
Context {W : Type} `{Env W}.
Variables rg acct tn policy : string.

Local Abbreviation delete_job := (fun job => jobs_delete rg acct tn (Job_name job)).
Local Abbreviation job_target := (fun job => the_job rg acct tn (Job_name job)).
Local Abbreviation delete_asset := (fun asset => assets_delete rg acct (Asset_name asset)).
Local Abbreviation asset_target := (fun asset => the_asset rg acct (Asset_name asset)).
Local Abbreviation delete_locator :=
  (fun locator => streaming_locators_delete rg acct (StreamingLocator_name locator)).
Local Abbreviation locator_target :=
  (fun locator => the_streaming_locator rg acct (StreamingLocator_name locator)).

Lemma analyze_clean_up_runs (w : W) :
  let r := AnalyzeVideoAndAudios.clean_up rg acct tn w in
  touched (log r) `prefix_of` listed (log r)
  /\ (outcome_of r = Return tt ->
      exists jobs assets,
        (handle (Media (jobs_list rg acct tn)) w).1 = inr jobs
        /\ log r
           = Enter "clean_up"
             :: Call (Media (jobs_list rg acct tn)) (inr jobs)
             :: map (fun job => Call (Media (delete_job job)) (inr tt)) jobs
             ++ Call (Media (assets_list rg acct)) (inr assets)
             :: map (fun asset => Call (Media (delete_asset asset)) (inr tt)) assets).
Proof.
  cbv zeta. unfold AnalyzeVideoAndAudios.clean_up.
  rewrite bind_enter, bind_media.
  destruct (handle (Media (jobs_list rg acct tn)) w) as [[e|jobs] w1].
  { split; [by apply prefix_nil|discriminate]. }
  destruct (for_each_delete_then delete_job jobs
    (assets ← media (assets_list rg acct);
     for_each assets (fun asset => media (delete_asset asset))) w1)
    as [[w2 ->]|(before & x & rest & e & w2 & -> & ->)].
  2:{ split; [read_log; solve_prefix|discriminate]. }
  rewrite bind_media.
  destruct (handle (Media (assets_list rg acct)) w2) as [[e|assets] w3].
  { split; [read_log; solve_prefix|discriminate]. }
  destruct (for_each_delete delete_asset assets w3)
    as [[w4 ->]|(before & x & rest & e & w4 & -> & ->)].
  - split; [read_log; solve_prefix|by intros _; exists jobs, assets].
  - split; [read_log; solve_prefix|discriminate].
Qed.

Lemma encrypt_clean_up_runs (w : W) :
  let r := EncryptWithAES.clean_up rg acct tn policy w in
  touched (log r)
    `prefix_of` listed (log r) ++ [the_content_key_policy rg acct policy]
  /\ (outcome_of r = Return tt ->
      exists jobs locators assets,
        (handle (Media (jobs_list rg acct tn)) w).1 = inr jobs
        /\ log r
           = Enter "clean_up"
             :: Call (Media (jobs_list rg acct tn)) (inr jobs)
             :: map (fun job => Call (Media (delete_job job)) (inr tt)) jobs
             ++ Call (Media (streaming_locators_list rg acct)) (inr locators)
             :: map (fun locator => Call (Media (delete_locator locator)) (inr tt))
                  locators
             ++ Call (Media (assets_list rg acct)) (inr assets)
             :: map (fun asset => Call (Media (delete_asset asset)) (inr tt)) assets
             ++ [Call (Media (content_key_policies_delete rg acct policy))
                   (inr tt)]).
Proof.
  cbv zeta. unfold EncryptWithAES.clean_up.
  rewrite bind_enter, bind_media.
  destruct (handle (Media (jobs_list rg acct tn)) w) as [[e|jobs] w1].
  { split; [by apply prefix_nil|discriminate]. }
  match goal with
  | |- context [(for_each jobs _ ≫= fun _ => ?k) w1] =>
      destruct (for_each_delete_then delete_job jobs k w1)
        as [[w2 ->]|(before & x & rest & e & w2 & -> & ->)]
  end.
  2:{ split; [read_log; solve_prefix|discriminate]. }
  rewrite bind_media.
  destruct (handle (Media (streaming_locators_list rg acct)) w2)
    as [[e|locators] w3].
  { split; [read_log; solve_prefix|discriminate]. }
  match goal with
  | |- context [(for_each locators _ ≫= fun _ => ?k) w3] =>
      destruct (for_each_delete_then delete_locator locators k w3)
        as [[w4 ->]|(before & x & rest & e & w4 & -> & ->)]
  end.
  2:{ split; [read_log; solve_prefix|discriminate]. }
  rewrite bind_media.
  destruct (handle (Media (assets_list rg acct)) w4) as [[e|assets] w5].
  { split; [read_log; solve_prefix|discriminate]. }
  match goal with
  | |- context [(for_each assets _ ≫= fun _ => ?k) w5] =>
      destruct (for_each_delete_then delete_asset assets k w5)
        as [[w6 ->]|(before & x & rest & e & w6 & -> & ->)]
  end.
  2:{ split; [read_log; solve_prefix|discriminate]. }
  rewrite run_media.
  destruct (handle (Media (content_key_policies_delete rg acct policy)) w6)
    as [[e|[]] w7]; cbn [fst snd answer].
  - split; [read_log; solve_prefix|discriminate].
  - split; [read_log; solve_prefix|].
    intros _. by exists jobs, locators, assets.
Qed.

Lemma analyze_clean_up_faithful : faithful (AnalyzeVideoAndAudios.clean_up rg acct tn).
Proof. unfold AnalyzeVideoAndAudios.clean_up. faithful_auto. Qed.

Lemma encrypt_clean_up_faithful :
  faithful (EncryptWithAES.clean_up rg acct tn policy).
Proof. unfold EncryptWithAES.clean_up. faithful_auto. Qed.

End CleanUp.

(** C9.  The [clean_up] methods work from the listings of the service, not
    from what the run created.  The log of [clean_up] is made by the
    service: each of its calls was put to the service in the state the
    calls before it left, is logged with the answer it got, and the state
    [clean_up] leaves is the state after its last call.  When [clean_up]
    returns, it has deleted each job that [jobs.list] answered for the
    given transform and each asset that [assets.list] answered for the
    account, in that order (in the encrypt script also each locator that
    [streaming_locators.list] answered, between the jobs and the assets,
    and at the end the content key policy of the given name), and it has
    called nothing else.  Whatever the outcome, what it touched is a
    prefix of what it listed (followed, in the encrypt script, by the
    named policy): no resource outside the listings is touched. *)
Theorem clean_up_deletes_what_is_listed W (H : Env W) rg acct tn policy (w : W) :
  let analyze := AnalyzeVideoAndAudios.clean_up rg acct tn w in
  let encrypt := EncryptWithAES.clean_up rg acct tn policy w in
  touched (log analyze) `prefix_of` listed (log analyze)
  /\ touched (log encrypt)
       `prefix_of` listed (log encrypt) ++ [the_content_key_policy rg acct policy]
  /\ genuine w (log analyze) (world_of analyze)
  /\ genuine w (log encrypt) (world_of encrypt)
  /\ (outcome_of analyze = Return tt ->
      exists jobs assets,
        (handle (Media (jobs_list rg acct tn)) w).1 = inr jobs
        /\ log analyze
           = Enter "clean_up"
             :: Call (Media (jobs_list rg acct tn)) (inr jobs)
             :: map (fun job => Call (Media (jobs_delete rg acct tn (Job_name job)))
                                  (inr tt)) jobs
             ++ Call (Media (assets_list rg acct)) (inr assets)
             :: map (fun asset =>
                       Call (Media (assets_delete rg acct (Asset_name asset)))
                         (inr tt)) assets)
  /\ (outcome_of encrypt = Return tt ->
      exists jobs locators assets,
        (handle (Media (jobs_list rg acct tn)) w).1 = inr jobs
        /\ log encrypt
           = Enter "clean_up"
             :: Call (Media (jobs_list rg acct tn)) (inr jobs)
             :: map (fun job => Call (Media (jobs_delete rg acct tn (Job_name job)))
                                  (inr tt)) jobs
             ++ Call (Media (streaming_locators_list rg acct)) (inr locators)
             :: map (fun locator =>
                       Call (Media (streaming_locators_delete rg acct
                                      (StreamingLocator_name locator))) (inr tt))
                    locators
             ++ Call (Media (assets_list rg acct)) (inr assets)
             :: map (fun asset =>
                       Call (Media (assets_delete rg acct (Asset_name asset)))
                         (inr tt)) assets
             ++ [Call (Media (content_key_policies_delete rg acct policy))
                   (inr tt)]).
Proof.
  cbv zeta.
  destruct (analyze_clean_up_runs rg acct tn w) as [Hframe1 Hreturn1].
  destruct (encrypt_clean_up_runs rg acct tn policy w) as [Hframe2 Hreturn2].
  pose proof (analyze_clean_up_faithful rg acct tn w).
  pose proof (encrypt_clean_up_faithful rg acct tn policy w).
  auto 10.
Qed.

(** On an account that holds resources no run of the script made (two
    jobs of the transform, a job of another transform, two assets and a
    locator), either cleanup deletes them all: the two jobs of the
    transform and both assets, and in the encrypt script the locator and
    the policy too; the job of the other transform stays, and the analyze
    script leaves the locator.  The deleted jobs are the ones the service
    lists. *)
Lemma clean_up_deletes_what_is_listed_witness :
  let analyze := AnalyzeVideoAndAudios.clean_up (H := service) "rg" "acct" "tf"
                   used_account in
  let encrypt := EncryptWithAES.clean_up (H := service) "rg" "acct" "tf" "policy"
                   used_account in
  outcome_of analyze = Return tt
  /\ touched (log analyze)
     = [the_job "rg" "acct" "tf" "job-a"; the_job "rg" "acct" "tf" "job-b";
        the_asset "rg" "acct" "input-a"; the_asset "rg" "acct" "holiday-video"]
  /\ jobs (world_of analyze) = {[ ("other", "job-c") := mkJob "job-c" queued [] ]}
  /\ assets (world_of analyze) = ∅
  /\ streaming_locators (world_of analyze) = streaming_locators used_account
  /\ outcome_of encrypt = Return tt
  /\ touched (log encrypt)
     = [the_job "rg" "acct" "tf" "job-a"; the_job "rg" "acct" "tf" "job-b";
        the_streaming_locator "rg" "acct" "locator-a";
        the_asset "rg" "acct" "input-a"; the_asset "rg" "acct" "holiday-video";
        the_content_key_policy "rg" "acct" "policy"]
  /\ jobs (world_of encrypt) = {[ ("other", "job-c") := mkJob "job-c" queued [] ]}
  /\ assets (world_of encrypt) = ∅
  /\ streaming_locators (world_of encrypt) = ∅
  /\ genuine (H := service) used_account (log analyze) (world_of analyze)
  /\ genuine (H := service) used_account (log encrypt) (world_of encrypt)
  /\ (exists jobs assets,
        (@handle Service service _ (Media (jobs_list "rg" "acct" "tf"))
           used_account).1 = inr jobs
        /\ log analyze
           = Enter "clean_up"
             :: Call (Media (jobs_list "rg" "acct" "tf")) (inr jobs)
             :: map (fun job =>
                       Call (Media (jobs_delete "rg" "acct" "tf" (Job_name job)))
                         (inr tt)) jobs
             ++ Call (Media (assets_list "rg" "acct")) (inr assets)
             :: map (fun asset =>
                       Call (Media (assets_delete "rg" "acct" (Asset_name asset)))
                         (inr tt)) assets)
  /\ exists jobs locators assets,
       (@handle Service service _ (Media (jobs_list "rg" "acct" "tf"))
           used_account).1 = inr jobs
       /\ log encrypt
          = Enter "clean_up"
            :: Call (Media (jobs_list "rg" "acct" "tf")) (inr jobs)
            :: map (fun job =>
                      Call (Media (jobs_delete "rg" "acct" "tf" (Job_name job)))
                        (inr tt)) jobs
            ++ Call (Media (streaming_locators_list "rg" "acct")) (inr locators)
            :: map (fun locator =>
                      Call (Media (streaming_locators_delete "rg" "acct"
                                     (StreamingLocator_name locator))) (inr tt))
                   locators
            ++ Call (Media (assets_list "rg" "acct")) (inr assets)
            :: map (fun asset =>
                      Call (Media (assets_delete "rg" "acct" (Asset_name asset)))
                        (inr tt)) assets
            ++ [Call (Media (content_key_policies_delete "rg" "acct" "policy"))
                  (inr tt)].
Proof.
  assert (Hret1 : outcome_of (AnalyzeVideoAndAudios.clean_up (H := service) "rg"
                                "acct" "tf" used_account) = Return tt)
    by (vm_compute; reflexivity).
  assert (Hret2 : outcome_of (EncryptWithAES.clean_up (H := service) "rg" "acct" "tf"
                                "policy" used_account) = Return tt)
    by (vm_compute; reflexivity).
  destruct (clean_up_deletes_what_is_listed Service service
              "rg" "acct" "tf" "policy" used_account)
    as (_ & _ & Hgen1 & Hgen2 & Hlog1 & Hlog2).
  cbv zeta.
  split; [exact Hret1|].
  do 4 (split; [vm_compute; reflexivity|]).
  split; [exact Hret2|].
  do 4 (split; [vm_compute; reflexivity|]).
  split; [exact Hgen1|]. split; [exact Hgen2|].
  split; [exact (Hlog1 Hret1)|exact (Hlog2 Hret2)].
Defined.

(** ** Cleaning up the live event: claim C10 *)

(** C10.  [clean_up_live_event_and_live_output], by the answer of
    [live_events.get]: on [None] it returns at once, with no stop and no
    delete; on an event that is running it stops the event with
    [remove_outputs_on_stop = True], sleeps 10 seconds and deletes it; on
    an event in another state it deletes it without a stop.  Hence on a
    service that forgets what is deleted the first call returns and a
    second call only looks the event up: it changes nothing and calls
    neither stop nor delete. *)
Theorem clean_up_live_event_and_live_output_idempotent W (H : Env W)
    (self : Live.Program) rg acct name (w : W) :
  let get := Media (live_events_get (Live.resource_group_name self)
                      (Live.account_name self) name) in
  let stop := Media (live_events_stop (Live.resource_group_name self)
                       (Live.account_name self) name true) in
  let delete := Media (live_events_delete (Live.resource_group_name self)
                         (Live.account_name self) name) in
  let r := Live.clean_up_live_event_and_live_output self rg acct name w in
  match (handle get w).1 with
  | inl e =>
    exists w',
      r = (Raise e, w', [Enter "clean_up_live_event_and_live_output";
                         Call get (inl e)])
  | inr None =>
    exists w',
      r = (Return tt, w', [Enter "clean_up_live_event_and_live_output";
                           Call get (inr None)])
  | inr (Some live_event) =>
    if decide (LiveEvent_resource_state live_event = le_running) then
      (exists e w',
         r = (Raise e, w', [Enter "clean_up_live_event_and_live_output";
                            Call get (inr (Some live_event));
                            Call stop (inl e)]))
      \/ (exists deleted w',
            r = (answer deleted, w',
                 [Enter "clean_up_live_event_and_live_output";
                  Call get (inr (Some live_event));
                  Call stop (inr tt);
                  Sys (time_sleep 10) tt;
                  Call delete deleted]))
    else
      exists deleted w',
        r = (answer deleted, w',
             [Enter "clean_up_live_event_and_live_output";
              Call get (inr (Some live_event));
              Call delete deleted])
  end
  /\ forall s : Service,
       let first := Live.clean_up_live_event_and_live_output (H := service)
                      self rg acct name s in
       let second := Live.clean_up_live_event_and_live_output (H := service)
                       self rg acct name (world_of first) in
       outcome_of first = Return tt
       /\ second = (Return tt, world_of first,
                    [Enter "clean_up_live_event_and_live_output";
                     Call get (inr None)]).
Proof.
  cbv zeta. split.
  - unfold Live.clean_up_live_event_and_live_output.
    rewrite bind_enter, bind_media.
    destruct (handle _ w) as [[e|[live_event|]] w1]; cbn [fst].
    + eexists. reflexivity.
    + destruct (decide (LiveEvent_resource_state live_event = le_running))
        as [Hrunning|Hother].
      * rewrite bind_assoc, bind_media.
        destruct (handle _ w1) as [[e|[]] w2].
        -- left. eexists _, _. reflexivity.
        -- right. exec.
           destruct ((runtime (time_sleep 10) w2).1).
           eexists _, _. reflexivity.
      * exec. eexists _, _. reflexivity.
    + eexists. reflexivity.
  - intros s. unfold Live.clean_up_live_event_and_live_output.
    rewrite !(bind_enter _ _ s), !(bind_media _ _ s).
    cbn [handle service service_handle service_media].
    destruct (live_events s !! name) as [live_event|] eqn:Hlookup.
    + destruct (decide (LiveEvent_resource_state live_event = le_running))
        as [Hrunning|Hother].
      * rewrite bind_assoc, bind_media.
        cbn [handle service service_handle service_media].
        exec. cbn [handle runtime service service_handle service_media
                   service_runtime fst snd answer outcome_of world_of].
        split; [reflexivity|].
        rewrite ?bind_enter, bind_media.
        cbn [handle service service_handle service_media set_live_events
             set_jobs live_events].
        by rewrite lookup_delete_eq.
      * exec. cbn [handle service service_handle service_media fst snd answer
                   outcome_of world_of].
        split; [reflexivity|].
        rewrite ?bind_enter, bind_media.
        cbn [handle service service_handle service_media set_live_events
             live_events].
        by rewrite lookup_delete_eq.
    + cbn [ret after app outcome_of world_of fst snd].
      split; [reflexivity|].
      rewrite ?bind_enter, bind_media.
      cbn [handle service service_handle service_media]. by rewrite Hlookup.
Qed.

(** On the in-memory service: a running event is stopped and deleted, and a
    second cleanup finds nothing. *)
Example clean_up_live_event_twice :
  let s := set_live_events <["liveevent-1" := sample_live_event]> empty_service in
  let first := Live.clean_up_live_event_and_live_output (H := service)
                 sample_live_program "rg" "acct" "liveevent-1" s in
  let second := Live.clean_up_live_event_and_live_output (H := service)
                  sample_live_program "rg" "acct" "liveevent-1" (world_of first) in
  touched (log first) = [the_live_event "rg" "acct" "liveevent-1";
                         the_live_event "rg" "acct" "liveevent-1"]
  /\ touched (log second) = [] /\ world_of second = world_of first.
Proof. vm_compute. auto. Qed.

(** ** Properties that hold along every run *)

Section Emits.
Context {W : Type} `{Env W}.
Implicit Types I : exit -> list event -> Prop.

(** Sequencing, when the property of the whole follows from the property
    [I1] of the first part and [I2] of the rest. *)
Lemma emits_bind_with I1 I2 I {A B} (m : M W A) (k : A -> M W B) :
  (forall tr1 x tr2, I1 Returned tr1 -> I2 x tr2 -> I x (tr1 ++ tr2)) ->
  (forall e tr, I1 (Raised e) tr -> I (Raised e) tr) ->
  (forall tr, I1 Unfinished tr -> I Unfinished tr) ->
  emits m I1 -> (forall a, emits (k a) I2) -> emits (m ≫= k) I.
Proof.
  intros Hseq Hraise Hrun Hm Hk w. rewrite run_bind.
  specialize (Hm w). destruct (m w) as [[[a|e|] w1] tr1]; cbn in Hm.
  - rewrite outcome_after, log_after. apply Hseq; [exact Hm|apply Hk].
  - by apply Hraise.
  - by apply Hrun.
Qed.

Lemma emits_bind I {A B} (m : M W A) (k : A -> M W B) :
  (forall tr1 x tr2, I Returned tr1 -> I x tr2 -> I x (tr1 ++ tr2)) ->
  emits m I -> (forall a, emits (k a) I) -> emits (m ≫= k) I.
Proof. intros Hseq. by apply emits_bind_with. Qed.

Lemma emits_weaken I1 I {A} (m : M W A) :
  (forall x tr, I1 x tr -> I x tr) -> emits m I1 -> emits m I.
Proof. intros Himp Hm w. apply Himp, Hm. Qed.

Lemma emits_ret I {A} (a : A) : I Returned [] -> emits (ret (W := W) a) I.
Proof. intros HI w. exact HI. Qed.

Lemma emits_raise I {A} e : I (Raised e) [] -> emits (raise (W := W) (A := A) e) I.
Proof. intros HI w. exact HI. Qed.

Lemma emits_still_running I {A} :
  I Unfinished [] -> emits (still_running (W := W) (A := A)) I.
Proof. intros HI w. exact HI. Qed.

Lemma emits_enter I method : I Returned [Enter method] -> emits (enter (W := W) method) I.
Proof. intros HI w. exact HI. Qed.

Lemma emits_sys I {R} (q : sys_call R) :
  (forall r, I Returned [Sys q r]) -> emits (sys q) I.
Proof. intros HI w. rewrite run_sys. apply HI. Qed.

Lemma emits_print I line :
  (forall r, I Returned [Sys (py_print line) r]) -> emits (print line) I.
Proof. apply emits_sys. Qed.

Lemma emits_call I {R} (q : request R) :
  (forall r, I (exit_of (answer r)) [Call q r]) -> emits (call q) I.
Proof.
  intros HI w. unfold call. destruct (handle q w) as [r w']. apply HI.
Qed.

Lemma emits_media I {R} (c : media_call R) :
  (forall r, I (exit_of (answer r)) [Call (Media c) r]) -> emits (media c) I.
Proof. apply emits_call. Qed.

Lemma emits_storage I {R} (c : blob_call R) :
  (forall r, I (exit_of (answer r)) [Call (Storage c) r]) -> emits (storage c) I.
Proof. apply emits_call. Qed.

Lemma emits_index0 I {A} (xs : list A) :
  I Returned [] -> (forall e, I (Raised e) []) -> emits (index0 (W := W) xs) I.
Proof. intros Hret Hraise. destruct xs; intros w; [apply Hraise|apply Hret]. Qed.

Lemma emits_new_BlockBlobService I account_name sas_token :
  I Returned [] -> (forall e, I (Raised e) []) ->
  emits (new_BlockBlobService (W := W) account_name sas_token) I.
Proof.
  intros Hret Hraise. unfold new_BlockBlobService.
  destruct (decide _); intros w; [apply Hraise|apply Hret].
Qed.

Lemma emits_for_each I {A} (xs : list A) (body : A -> M W unit) :
  (forall tr1 x tr2, I Returned tr1 -> I x tr2 -> I x (tr1 ++ tr2)) ->
  I Returned [] ->
  (forall x, emits (body x) I) -> emits (for_each xs body) I.
Proof.
  intros Hseq Hnil Hbody. induction xs as [|x xs IH]; cbn [for_each].
  - by apply emits_ret.
  - apply emits_bind; auto.
Qed.

Lemma emits_for_fold I {A S} (xs : list A) (acc : S) (body : S -> A -> M W S) :
  (forall tr1 x tr2, I Returned tr1 -> I x tr2 -> I x (tr1 ++ tr2)) ->
  I Returned [] ->
  (forall acc x, emits (body acc x) I) -> emits (for_fold xs acc body) I.
Proof.
  intros Hseq Hnil Hbody. revert acc.
  induction xs as [|x xs IH]; intros acc; cbn [for_fold].
  - by apply emits_ret.
  - apply emits_bind; auto.
Qed.

End Emits.

(** *** Raised calls that nothing handles *)

Lemma failures_app tr1 tr2 : failures (tr1 ++ tr2) = failures tr1 ++ failures tr2.
Proof. apply omap_app. Qed.

Lemma propagated_seq tr1 x tr2 :
  propagated Returned tr1 -> propagated x tr2 -> propagated x (tr1 ++ tr2).
Proof.
  intros [Hnone1|(e & tr0 & R & q & Hx & _)] H2; [|discriminate].
  destruct H2 as [Hnone2|(e & tr0 & R & q & Hx & -> & Hnone0)].
  - left. by rewrite failures_app, Hnone1, Hnone2.
  - right. exists e, (tr1 ++ tr0), R, q. split; [done|].
    split; [by rewrite app_assoc|]. by rewrite failures_app, Hnone1, Hnone0.
Qed.

Lemma propagated_nil x : propagated x [].
Proof. by left. Qed.

Lemma propagated_enter method : propagated Returned [Enter method].
Proof. by left. Qed.

Lemma propagated_sys {R} (q : sys_call R) r : propagated Returned [Sys q r].
Proof. by left. Qed.

Lemma propagated_call {R} (q : request R) r :
  propagated (exit_of (answer r)) [Call q r].
Proof.
  destruct r as [e|a]; [|by left].
  right. by exists e, [], R, q.
Qed.

Create HintDb emits.
#[global] Hint Resolve propagated_seq propagated_nil propagated_enter
  propagated_sys propagated_call : emits.

(** [emits_auto] follows the text of a script made of calls, prints,
    tests and loops over lists; the side conditions on single events are
    left to the hints of [emits]. *)
Ltac emits_step :=
  lazymatch goal with
  | |- emits (_ ≫= _) _ => apply emits_bind; [eauto with emits | | intros ?]
  | |- emits (ret _) _ => apply emits_ret
  | |- emits (raise _) _ => apply emits_raise
  | |- emits still_running _ => apply emits_still_running
  | |- emits (enter _) _ => apply emits_enter
  | |- emits (print _) _ => apply emits_print; intros ?
  | |- emits (sys _) _ => apply emits_sys; intros ?
  | |- emits (media _) _ => apply emits_media; intros ?
  | |- emits (storage _) _ => apply emits_storage; intros ?
  | |- emits (call _) _ => apply emits_call; intros ?
  | |- emits (index0 _) _ => apply emits_index0; [|intros ?]
  | |- emits (new_BlockBlobService _ _) _ =>
      apply emits_new_BlockBlobService; [|intros ?]
  | |- emits (for_each _ _) _ => apply emits_for_each; [eauto with emits | | intros ?]
  | |- emits (for_fold _ _ _) _ =>
      apply emits_for_fold; [eauto with emits | | intros ? ?]
  | |- emits (match ?x with _ => _ end) _ => destruct x
  | |- emits (let '(_, _) := ?p in _) _ => destruct p
  | |- emits _ _ => solve [eauto with emits]
  | |- _ => solve [eauto with emits]
  end.
Ltac emits_auto := repeat emits_step.

Section Propagates.
Context {W : Type} `{Env W}.

Lemma analyze_get_or_create_transform_propagates rg acct name preset :
  emits (AnalyzeVideoAndAudios.get_or_create_transform rg acct name preset)
    propagated.
Proof. unfold AnalyzeVideoAndAudios.get_or_create_transform. emits_auto. Qed.

Lemma analyze_create_input_asset_propagates rg acct name file :
  emits (AnalyzeVideoAndAudios.create_input_asset rg acct name file) propagated.
Proof. unfold AnalyzeVideoAndAudios.create_input_asset. emits_auto. Qed.

Lemma analyze_create_output_asset_propagates rg acct name :
  emits (AnalyzeVideoAndAudios.create_output_asset rg acct name) propagated.
Proof. unfold AnalyzeVideoAndAudios.create_output_asset. emits_auto. Qed.

Lemma analyze_submit_job_propagates rg acct tn jn input output :
  emits (AnalyzeVideoAndAudios.submit_job rg acct tn jn input output) propagated.
Proof. unfold AnalyzeVideoAndAudios.submit_job. emits_auto. Qed.

Lemma analyze_print_job_output_propagates job i :
  emits (AnalyzeVideoAndAudios.print_job_output job i) propagated.
Proof. unfold AnalyzeVideoAndAudios.print_job_output. emits_auto. Qed.

#[local] Hint Resolve analyze_print_job_output_propagates : emits.

Lemma analyze_wait_for_job_to_finish_loop_propagates fuel rg acct tn jn :
  emits (AnalyzeVideoAndAudios.wait_for_job_to_finish_loop fuel rg acct tn jn)
    propagated.
Proof.
  induction fuel as [|fuel IH];
    cbn [AnalyzeVideoAndAudios.wait_for_job_to_finish_loop]; emits_auto.
Qed.

#[local] Hint Resolve analyze_wait_for_job_to_finish_loop_propagates : emits.

Lemma analyze_wait_for_job_to_finish_propagates fuel rg acct tn jn :
  emits (AnalyzeVideoAndAudios.wait_for_job_to_finish fuel rg acct tn jn)
    propagated.
Proof. unfold AnalyzeVideoAndAudios.wait_for_job_to_finish. emits_auto. Qed.

Lemma analyze_download_output_asset_propagates rg acct name folder :
  emits (AnalyzeVideoAndAudios.download_output_asset rg acct name folder)
    propagated.
Proof. unfold AnalyzeVideoAndAudios.download_output_asset. emits_auto. Qed.

#[local] Hint Resolve analyze_get_or_create_transform_propagates
  analyze_create_input_asset_propagates analyze_create_output_asset_propagates
  analyze_submit_job_propagates analyze_wait_for_job_to_finish_propagates
  analyze_download_output_asset_propagates : emits.

Lemma analyze_run_propagates fuel self :
  emits (AnalyzeVideoAndAudios.run fuel self) propagated.
Proof. unfold AnalyzeVideoAndAudios.run. emits_auto. Qed.

Lemma analyze_main_propagates fuel :
  emits (AnalyzeVideoAndAudios.main fuel) propagated.
Proof.
  unfold AnalyzeVideoAndAudios.main, AnalyzeVideoAndAudios.init.
  emits_auto. apply analyze_run_propagates.
Qed.

Lemma encrypt_get_or_create_content_key_policy_propagates self rg acct name :
  emits (EncryptWithAES.get_or_create_content_key_policy self rg acct name)
    propagated.
Proof. unfold EncryptWithAES.get_or_create_content_key_policy. emits_auto. Qed.

Lemma encrypt_create_input_asset_propagates rg acct name file :
  emits (EncryptWithAES.create_input_asset rg acct name file) propagated.
Proof. unfold EncryptWithAES.create_input_asset. emits_auto. Qed.

Lemma encrypt_create_output_asset_propagates rg acct name :
  emits (EncryptWithAES.create_output_asset rg acct name) propagated.
Proof. unfold EncryptWithAES.create_output_asset. emits_auto. Qed.

Lemma encrypt_get_or_create_transform_propagates rg acct name :
  emits (EncryptWithAES.get_or_create_transform rg acct name) propagated.
Proof. unfold EncryptWithAES.get_or_create_transform. emits_auto. Qed.

Lemma encrypt_submit_job_propagates rg acct tn jn input output :
  emits (EncryptWithAES.submit_job rg acct tn jn input output) propagated.
Proof. unfold EncryptWithAES.submit_job. emits_auto. Qed.

Lemma encrypt_wait_for_job_to_finish_propagates fuel rg acct tn jn :
  emits (EncryptWithAES.wait_for_job_to_finish fuel rg acct tn jn) propagated.
Proof. apply analyze_wait_for_job_to_finish_propagates. Qed.

Lemma encrypt_create_streaming_locator_propagates rg acct asset locator policy :
  emits (EncryptWithAES.create_streaming_locator rg acct asset locator policy)
    propagated.
Proof. unfold EncryptWithAES.create_streaming_locator. emits_auto. Qed.

Lemma encrypt_get_token_propagates issuer audience claim_type key_identifier key :
  emits (EncryptWithAES.get_token issuer audience claim_type key_identifier key)
    propagated.
Proof. unfold EncryptWithAES.get_token. emits_auto. Qed.

Lemma encrypt_get_dash_streaming_url_propagates rg acct locator :
  emits (EncryptWithAES.get_dash_streaming_url rg acct locator) propagated.
Proof. unfold EncryptWithAES.get_dash_streaming_url. emits_auto. Qed.

Lemma encrypt_clean_up_propagates rg acct tn policy :
  emits (EncryptWithAES.clean_up rg acct tn policy) propagated.
Proof. unfold EncryptWithAES.clean_up. emits_auto. Qed.

#[local] Hint Resolve encrypt_get_or_create_content_key_policy_propagates
  encrypt_create_input_asset_propagates encrypt_create_output_asset_propagates
  encrypt_get_or_create_transform_propagates encrypt_submit_job_propagates
  encrypt_wait_for_job_to_finish_propagates
  encrypt_create_streaming_locator_propagates encrypt_get_token_propagates
  encrypt_get_dash_streaming_url_propagates encrypt_clean_up_propagates : emits.

Lemma encrypt_run_propagates fuel self :
  emits (EncryptWithAES.run fuel self) propagated.
Proof. unfold EncryptWithAES.run. emits_auto. Qed.

Lemma encrypt_main_propagates fuel :
  emits (EncryptWithAES.main fuel) propagated.
Proof.
  unfold EncryptWithAES.main, EncryptWithAES.init.
  emits_auto. apply encrypt_run_propagates.
Qed.

End Propagates.


(** ** The live script: claims C6 and C7 *)

Lemma invocations_app method tr1 tr2 :
  invocations method (tr1 ++ tr2) = invocations method tr1 + invocations method tr2.
Proof. unfold invocations. by rewrite filter_app, length_app. Qed.

Lemma prompts_app prompt tr1 tr2 :
  prompts prompt (tr1 ++ tr2) = prompts prompt tr1 + prompts prompt tr2.
Proof. unfold prompts. by rewrite filter_app, length_app. Qed.

Lemma answers_app prompt tr1 tr2 :
  answers prompt (tr1 ++ tr2) = answers prompt tr1 + answers prompt tr2.
Proof. unfold answers. by rewrite filter_app, length_app. Qed.

Lemma counts_app c1 l1 s1 a1 c2 l2 s2 a2 x1 x2 x tr1 tr2 :
  counts c1 l1 s1 a1 x1 tr1 -> counts c2 l2 s2 a2 x2 tr2 ->
  counts (c1 + c2) (l1 + l2) (s1 + s2) (a1 + a2) x (tr1 ++ tr2).
Proof.
  intros (Hc1 & Hl1 & Hs1 & Ha1) (Hc2 & Hl2 & Hs2 & Ha2). unfold counts.
  rewrite !invocations_app, prompts_app, answers_app. lia.
Qed.

Lemma silent_seq tr1 x tr2 :
  counts 0 0 0 0 Returned tr1 -> counts 0 0 0 0 x tr2 ->
  counts 0 0 0 0 x (tr1 ++ tr2).
Proof. apply (counts_app 0 0 0 0 0 0 0 0). Qed.

#[global] Hint Resolve silent_seq : emits.
#[global] Hint Extern 1 (counts 0 0 0 0 _ []) => repeat split : emits.
#[global] Hint Extern 1 (counts 0 0 0 0 _ [_]) => repeat split : emits.

Lemma finishes_seq tr1 x tr2 :
  finishes Returned tr1 -> finishes x tr2 -> finishes x (tr1 ++ tr2).
Proof. done. Qed.

Lemma finishes_returned tr : finishes Returned tr.
Proof. done. Qed.

Lemma finishes_raised e tr : finishes (Raised e) tr.
Proof. done. Qed.

Lemma finishes_call {R} (q : request R) r : finishes (exit_of (answer r)) [Call q r].
Proof. by destruct r. Qed.

#[global] Hint Resolve finishes_seq finishes_returned finishes_raised
  finishes_call : emits.

Section LiveCounts.
Context {W : Type} `{Env W}.

Lemma create_live_event_silent self rg acct name :
  emits (Live.create_live_event self rg acct name) (counts 0 0 0 0).
Proof. unfold Live.create_live_event. emits_auto. Qed.

Lemma wait_for_live_event_silent fuel self name :
  emits (Live.wait_for_live_event fuel self name) (counts 0 0 0 0).
Proof.
  induction fuel as [|fuel IH]; cbn [Live.wait_for_live_event]; emits_auto.
Qed.

Lemma collect_streaming_path_silent endpoint vars path :
  emits (Live.collect_streaming_path (W := W) endpoint vars path) (counts 0 0 0 0).
Proof. unfold Live.collect_streaming_path. emits_auto. Qed.

Lemma except_handler_silent ex : emits (Live.except_handler ex) (counts 0 0 0 0).
Proof. unfold Live.except_handler. emits_auto. Qed.

#[local] Hint Resolve create_live_event_silent wait_for_live_event_silent
  collect_streaming_path_silent except_handler_silent : emits.

Lemma clean_up_live_event_and_live_output_counts self rg acct name :
  emits (Live.clean_up_live_event_and_live_output self rg acct name)
    (counts 1 0 0 0).
Proof.
  unfold Live.clean_up_live_event_and_live_output.
  apply (emits_bind_with (returned_counts 1 0 0 0) (counts 0 0 0 0)).
  - intros tr1 x tr2 [_ H1] H2.
    by apply (counts_app 1 0 0 0 0 0 0 0 Returned x).
  - by intros e tr [? _].
  - by intros tr [? _].
  - apply emits_enter. by repeat split.
  - intros []. emits_auto.
Qed.

Lemma clean_up_locator_and_asset_counts self rg acct locator asset :
  emits (Live.clean_up_locator_and_asset self rg acct locator asset)
    (counts 0 1 0 0).
Proof.
  unfold Live.clean_up_locator_and_asset.
  apply (emits_bind_with (returned_counts 0 1 0 0) (counts 0 0 0 0)).
  - intros tr1 x tr2 [_ H1] H2.
    by apply (counts_app 0 1 0 0 0 0 0 0 Returned x).
  - by intros e tr [? _].
  - by intros tr [? _].
  - apply emits_enter. by repeat split.
  - intros []. emits_auto.
Qed.

Lemma clean_up_live_event_and_live_output_finishes self rg acct name :
  emits (Live.clean_up_live_event_and_live_output self rg acct name) finishes.
Proof. unfold Live.clean_up_live_event_and_live_output. emits_auto. Qed.

Lemma clean_up_locator_and_asset_finishes self rg acct locator asset :
  emits (Live.clean_up_locator_and_asset self rg acct locator asset) finishes.
Proof. unfold Live.clean_up_locator_and_asset. emits_auto. Qed.

Lemma finally_block_counts self n :
  emits (Live.finally_block self n) finally_counts.
Proof.
  intros w. unfold Live.finally_block. rewrite run_bind.
  pose proof (clean_up_live_event_and_live_output_counts self
                (Live.resource_group_name self) (Live.account_name self)
                (Live.live_event_name n) w) as Hlive.
  pose proof (clean_up_live_event_and_live_output_finishes self
                (Live.resource_group_name self) (Live.account_name self)
                (Live.live_event_name n) w) as Hleft.
  destruct (Live.clean_up_live_event_and_live_output _ _ _ _ w)
    as [[[[]|e|] w1] tr1]; cbn in Hlive, Hleft.
  - pose proof (clean_up_locator_and_asset_counts self
                  (Live.resource_group_name self) (Live.account_name self)
                  (Live.streaming_locator_name n) (Live.asset_name n) w1) as Hloc.
    pose proof (clean_up_locator_and_asset_finishes self
                  (Live.resource_group_name self) (Live.account_name self)
                  (Live.streaming_locator_name n) (Live.asset_name n) w1) as Hleft2.
    rewrite outcome_after, log_after. left. split; [exact Hleft2|].
    by apply (counts_app 1 0 0 0 0 1 0 0 Returned Returned).
  - right. by exists e.
  - done.
Qed.

(** The [try] block prompts to stop at most once, and enters the cleanup
    of the live event only when that prompt is answered. *)
Lemma try_body_counted fuel self n :
  emits (Live.try_body fuel self n) try_body_counts.
Proof.
  assert (Hseq : forall tr1 x tr2,
             counts 0 0 0 0 Returned tr1 -> try_body_counts x tr2 ->
             try_body_counts x (tr1 ++ tr2)).
  { intros tr1 x tr2 H1 [H2|[[Hx H2]|H2]]; [left|right; left|right; right].
    - by apply (counts_app 0 0 0 0 0 0 0 0 Returned x).
    - split; [exact Hx|]. by apply (counts_app 0 0 0 0 0 0 1 0 Returned x).
    - by apply (counts_app 0 0 0 0 1 0 1 1 Returned x). }
  assert (Hraise : forall e tr, counts 0 0 0 0 (Raised e) tr ->
                                try_body_counts (Raised e) tr) by (by left).
  assert (Hrun : forall tr, counts 0 0 0 0 Unfinished tr ->
                            try_body_counts Unfinished tr) by (by left).
  unfold Live.try_body.
  repeat (apply (emits_bind_with (counts 0 0 0 0) try_body_counts try_body_counts
                   _ _ Hseq Hraise Hrun); [solve [emits_auto]|intros ?]).
  match goal with vars : (string * string)%type |- _ =>
    destruct vars as [player_path string_builder]
  end.
  destruct (decide (0 < String.length string_builder)) as [Hpaths|Hnone].
  - do 3 (apply (emits_bind_with (counts 0 0 0 0) try_body_counts try_body_counts
                   _ _ Hseq Hraise Hrun); [solve [emits_auto]|intros ?]).
    apply (emits_bind_with
             (fun x tr => (x = Returned /\ counts 0 0 1 1 x tr)
                          \/ ((exists e, x = Raised e) /\ counts 0 0 1 0 x tr))
             (counts 1 0 0 0)).
    + intros tr1 x tr2 [[_ H1]|[[e He] _]] H2; [|discriminate]. right. right.
      by apply (counts_app 0 0 1 1 1 0 0 0 Returned x).
    + intros e tr [[He _]|H1]; [discriminate|]. right. by left.
    + intros tr [[He _]|[[e He] _]]; discriminate.
    + apply emits_call. intros [e|line]; cbn [answer exit_of].
      * right. split; [by exists e|by repeat split].
      * left. by repeat split.
    + intros _.
      apply (emits_bind_with (counts 1 0 0 0) (counts 0 0 0 0)).
      * intros tr1 x tr2 H1 H2.
        by apply (counts_app 1 0 0 0 0 0 0 0 Returned x).
      * done.
      * done.
      * apply clean_up_live_event_and_live_output_counts.
      * intros []. emits_auto.
  - apply (emits_weaken (counts 0 0 0 0)); [by left|]. emits_auto.
Qed.

End LiveCounts.

Section LiveRun.
Context {W : Type} `{Env W}.

Lemma run_except_handler ex (w : W) :
  exists w',
    Live.except_handler ex w
    = (Return tt, w', [Sys (py_print "Hit ApiErrorException") tt;
                       Sys (py_print ex) tt]).
Proof. unfold Live.except_handler. exec. by eexists. Qed.

(** [run], by the way its [try] block is left. *)
Lemma run_by_try_body fuel self (w : W) :
  let uuid := (runtime uuid_uuid1 w).1 in
  let n := Live.make_names uuid in
  let body := Live.try_body fuel self n (runtime uuid_uuid1 w).2 in
  let r := Live.run fuel self w in
  match outcome_of body with
  | Running =>
    r = (Running, world_of body, Enter "run" :: Sys uuid_uuid1 uuid :: log body)
  | o =>
    exists w',
      let handled :=
        match o with
        | Raise (ApiErrorException msg) =>
          [Sys (py_print "Hit ApiErrorException") tt; Sys (py_print msg) tt]
        | _ => []
        end in
      let pending :=
        match o with
        | Raise (ApiErrorException msg) => Return tt
        | _ => o
        end in
      let fin := Live.finally_block self n w' in
      r = (match outcome_of fin with Return _ => pending | o' => o' end,
           world_of fin,
           Enter "run" :: Sys uuid_uuid1 uuid :: log body ++ handled ++ log fin)
  end.
Proof.
  cbv zeta. unfold Live.run. rewrite bind_enter, bind_sys, after_after.
  cbn [app]. unfold try_except_finally.
  set (n := Live.make_names (runtime uuid_uuid1 w).1).
  destruct (Live.try_body fuel self n (runtime uuid_uuid1 w).2)
    as [[[[]|e|] w1] tr1]; cbn [outcome_of world_of log fst snd].
  - exists w1. destruct (Live.finally_block self n w1) as [[[[]|e|] w2] tr2];
      cbn [after outcome_of world_of log fst snd app]; by rewrite ?app_nil_r.
  - destruct e as [msg|msg|msg|msg|cls msg].
    1:{ destruct (run_except_handler msg w1) as [w1' ->]. exists w1'.
        cbn [after]. 
        destruct (Live.finally_block self n w1') as [[[[]|e|] w2] tr2];
          cbn [after outcome_of world_of log fst snd app];
          by rewrite <- ?app_assoc. }
    all: exists w1; destruct (Live.finally_block self n w1) as [[[[]|e|] w2] tr2];
      cbn [after outcome_of world_of log fst snd app]; by rewrite ?app_nil_r.
  - reflexivity.
Qed.

Lemma finally_block_propagates self n :
  emits (Live.finally_block self n) propagated.
Proof.
  unfold Live.finally_block, Live.clean_up_live_event_and_live_output,
    Live.clean_up_locator_and_asset.
  emits_auto.
Qed.

(** The [finally] block: it starts with the cleanup of the live event, and
    when none of its calls raises it ends with the two deletions of the
    cleanup of the locator and asset. *)
Lemma finally_block_runs self n (w : W) :
  let fin := Live.finally_block self n w in
  let rg := Live.resource_group_name self in
  let acct := Live.account_name self in
  (exists found rest,
     log fin = Enter cleanup_live
               :: Call (Media (live_events_get rg acct (Live.live_event_name n))) found
               :: rest)
  /\ (failures (log fin) = [] ->
      outcome_of fin = Return tt
      /\ exists tr,
          log fin
          = Enter cleanup_live :: tr
            ++ [Enter cleanup_locator;
                Call (Media (streaming_locators_delete rg acct
                               (Live.streaming_locator_name n))) (inr tt);
                Call (Media (assets_delete rg acct (Live.asset_name n))) (inr tt)]).
Proof.
  cbv zeta. unfold Live.finally_block, Live.clean_up_live_event_and_live_output,
    Live.clean_up_locator_and_asset.
  rewrite bind_assoc, bind_enter, bind_assoc, bind_media.
  destruct (handle _ w) as [[e|[live_event|]] w1].
  - split; [by eexists _, _|]. intros Hnone. discriminate.
  - split.
    { rewrite log_after, log_after. by eexists _, _. }
    destruct (decide (LiveEvent_resource_state live_event = le_running))
      as [Hrunning|Hother].
    + exec_split; cbn [log outcome_of fst snd]; intros Hnone;
        try discriminate.
      repeat match goal with u : unit |- _ => destruct u end.
      split; [reflexivity|].
      destruct ((runtime (time_sleep 10) w0).1).
      by eexists [_; _; _; _].
    + exec_split; cbn [log outcome_of fst snd]; intros Hnone;
        try discriminate.
      repeat match goal with u : unit |- _ => destruct u end.
      split; [reflexivity|]. by eexists [_; _].
  - split.
    { rewrite log_after, log_after. by eexists _, _. }
    exec_split; cbn [log outcome_of fst snd]; intros Hnone; try discriminate.
    repeat match goal with u : unit |- _ => destruct u end.
    split; [reflexivity|]. by eexists [_].
Qed.

(** The [finally] block either completes both cleanups, or is left by the
    exception of the cleanup call that raised, its last event. *)
Lemma finally_block_completes_or_raises self n (w : W) :
  let fin := Live.finally_block self n w in
  let rg := Live.resource_group_name self in
  let acct := Live.account_name self in
  (outcome_of fin = Return tt
   /\ exists tr,
       log fin
       = Enter cleanup_live :: tr
         ++ [Enter cleanup_locator;
             Call (Media (streaming_locators_delete rg acct
                            (Live.streaming_locator_name n))) (inr tt);
             Call (Media (assets_delete rg acct (Live.asset_name n))) (inr tt)])
  \/ (exists e tr R (q : request R),
        outcome_of fin = Raise e /\ log fin = tr ++ [Call q (inl e)]
        /\ failures tr = []).
Proof.
  cbv zeta.
  destruct (finally_block_runs self n w) as [_ Hcomplete].
  pose proof (finally_block_propagates self n w)
    as [Hnone|(e & tr0 & R & q & Hexit & Hlog & Hnone)].
  - left. by apply Hcomplete.
  - right. exists e, tr0, R, q. split; [|done].
    destruct (outcome_of (Live.finally_block self n w)); cbn in Hexit;
      by simplify_eq.
Qed.

End LiveRun.

(** C6, as the code has it.  In [run] of the live script the [try] block
    is left in one of four ways.  While its loop is still running, [run]
    is.  When it returns, the [finally] block runs.  When it raises
    [ApiErrorException], the two lines of the handler are printed, the
    exception is dropped and the [finally] block runs.  When it raises
    another exception, nothing is printed, the exception stays pending and
    the [finally] block runs.  The [finally] block enters
    [clean_up_live_event_and_live_output], whose first call is
    [live_events.get]; then either it completes, ending with the deletion
    of the streaming locator and of the archive asset, and [run] gives
    what was pending, or one of its cleanup calls raises, the calls after
    it are not made, and [run] raises that exception.  In [main] of the
    analyze script and of the encrypt script no call that raises is
    handled: either no call raised, or the script was left by the
    exception of its last call, the only one that raised. *)
Theorem live_run_cleans_up_on_every_exit W (H : Env W) fuel
    (self : Live.Program) (w : W) :
  let uuid := (runtime uuid_uuid1 w).1 in
  let n := Live.make_names uuid in
  let rg := Live.resource_group_name self in
  let acct := Live.account_name self in
  let body := Live.try_body fuel self n (runtime uuid_uuid1 w).2 in
  let r := Live.run fuel self w in
  let analyze := AnalyzeVideoAndAudios.main fuel w in
  let encrypt := EncryptWithAES.main fuel w in
  match outcome_of body with
  | Running =>
    outcome_of r = Running
    /\ log r = Enter "run" :: Sys uuid_uuid1 uuid :: log body
  | o =>
    exists w',
      let handled :=
        match o with
        | Raise (ApiErrorException msg) =>
          [Sys (py_print "Hit ApiErrorException") tt; Sys (py_print msg) tt]
        | _ => []
        end in
      let pending :=
        match o with
        | Raise (ApiErrorException msg) => Return tt
        | _ => o
        end in
      let fin := Live.finally_block self n w' in
      log r = Enter "run" :: Sys uuid_uuid1 uuid :: log body ++ handled ++ log fin
      /\ (exists found rest,
            log fin
            = Enter "clean_up_live_event_and_live_output"
              :: Call (Media (live_events_get rg acct (Live.live_event_name n))) found
              :: rest)
      /\ ((outcome_of r = pending
           /\ exists tr,
               log fin
               = Enter "clean_up_live_event_and_live_output" :: tr
                 ++ [Enter "clean_up_locator_and_asset";
                     Call (Media (streaming_locators_delete rg acct
                                    (Live.streaming_locator_name n))) (inr tt);
                     Call (Media (assets_delete rg acct (Live.asset_name n)))
                       (inr tt)])
          \/ (exists e tr R (q : request R),
                outcome_of r = Raise e
                /\ log fin = tr ++ [Call q (inl e)]
                /\ failures tr = []))
  end
  /\ (failures (log analyze) = []
      \/ exists e tr R (q : request R),
           outcome_of analyze = Raise e
           /\ log analyze = tr ++ [Call q (inl e)] /\ failures tr = [])
  /\ (failures (log encrypt) = []
      \/ exists e tr R (q : request R),
           outcome_of encrypt = Raise e
           /\ log encrypt = tr ++ [Call q (inl e)] /\ failures tr = []).
Proof.
  cbv zeta. split; [|split].
  - pose proof (run_by_try_body fuel self w) as Hrun. cbv zeta in Hrun.
    destruct (outcome_of (Live.try_body fuel self _ _)) as [[]|e|].
    + destruct Hrun as [w' ->]. exists w'.
      cbn [outcome_of log fst snd].
      split; [done|]. split; [apply finally_block_runs|].
      destruct (finally_block_completes_or_raises self
                  (Live.make_names (runtime uuid_uuid1 w).1) w')
        as [[-> Htr]|(e & tr & R & q & -> & Hlog & Hnone)]; [by left|].
      right. by exists e, tr, R, q.
    + destruct Hrun as [w' ->]. exists w'.
      cbn [outcome_of log fst snd].
      split; [done|]. split; [apply finally_block_runs|].
      destruct (finally_block_completes_or_raises self
                  (Live.make_names (runtime uuid_uuid1 w).1) w')
        as [[-> Htr]|(e' & tr & R & q & -> & Hlog & Hnone)]; [by left|].
      right. by exists e', tr, R, q.
    + rewrite Hrun. by split.
  - pose proof (analyze_main_propagates fuel w)
      as [Hnone|(e & tr & R & q & Hexit & Hlog & Hnone)]; [by left|].
    right. exists e, tr, R, q. split; [|done].
    destruct (outcome_of (AnalyzeVideoAndAudios.main fuel w)); cbn in Hexit;
      by simplify_eq.
  - pose proof (encrypt_main_propagates fuel w)
      as [Hnone|(e & tr & R & q & Hexit & Hlog & Hnone)]; [by left|].
    right. exists e, tr, R, q. split; [|done].
    destruct (outcome_of (EncryptWithAES.main fuel w)); cbn in Hexit;
      by simplify_eq.
Qed.

(** C6 as stated fails when the service is down: [run] is left by the
    [ApiErrorException] that [live_events.get] raises in the [finally]
    block, and neither the streaming locator nor the archive asset is
    deleted. *)
Lemma live_run_outage_skips_cleanup :
  let r := Live.run (H := outage) 3 sample_live_program tt in
  r = (Raise (ApiErrorException "Service Unavailable"), tt,
       [Enter "run";
        Sys uuid_uuid1 "6c84fb90-12c4-11e1-840d-7b25c5ee775a";
        Enter "create_live_event";
        Call (Media (mediaservices_get "rg" "acct"))
          (inl (ApiErrorException "Service Unavailable"));
        Sys (py_print "Hit ApiErrorException") tt;
        Sys (py_print "Service Unavailable") tt;
        Enter "clean_up_live_event_and_live_output";
        Call (Media (live_events_get "rg" "acct" "liveevent-6c84fb90-12c4"))
          (inl (ApiErrorException "Service Unavailable"))])
  /\ invocations "clean_up_locator_and_asset" (log r) = 0
  /\ touched (log r) = [].
Proof. cbv zeta. repeat split. Qed.

(** C7, as the code has it.  In every execution of [run] of the live
    script that is left, by return or by exception, the [finally] block
    enters [clean_up_live_event_and_live_output] exactly once; the [try]
    block enters it once more when the prompt to stop the live output is
    answered.  That prompt is shown at most once, and it is left
    unanswered when [input] raises, as it does with [EOFError] at the end
    of the standard input.  So the method is entered once when the main
    workflow raises before that prompt, finds no streaming path, or is
    left at the prompt by an exception of [input], and twice when the
    prompt is answered.  [clean_up_locator_and_asset] is entered at most
    once, and exactly once when [run] returns. *)
Theorem live_run_cleanup_invocations W (H : Env W) fuel
    (self : Live.Program) (w : W) :
  let r := Live.run fuel self w in
  outcome_of r <> Running ->
  invocations "clean_up_live_event_and_live_output" (log r)
  = 1 + answers "Press enter to stop the LiveOutput..." (log r)
  /\ answers "Press enter to stop the LiveOutput..." (log r)
     <= prompts "Press enter to stop the LiveOutput..." (log r)
  /\ prompts "Press enter to stop the LiveOutput..." (log r) <= 1
  /\ invocations "clean_up_locator_and_asset" (log r) <= 1
  /\ (outcome_of r = Return tt ->
      invocations "clean_up_locator_and_asset" (log r) = 1).
Proof.
  cbv zeta. intros Hleft.
  pose proof (run_by_try_body fuel self w) as Hrun. cbv zeta in Hrun.
  pose proof (try_body_counted fuel self (Live.make_names (runtime uuid_uuid1 w).1)
                (runtime uuid_uuid1 w).2) as Hbody.
  destruct (Live.try_body fuel self _ _) as [[ob wb] trb].
  cbn [outcome_of world_of log fst snd] in Hrun, Hbody.
  assert (Hcount : forall w' handled pending,
    counts 0 0 0 0 Returned handled ->
    Live.run fuel self w
    = (match outcome_of (Live.finally_block self
                           (Live.make_names (runtime uuid_uuid1 w).1) w') with
       | Return _ => pending
       | o' => o'
       end,
       world_of (Live.finally_block self
                   (Live.make_names (runtime uuid_uuid1 w).1) w'),
       Enter "run" :: Sys uuid_uuid1 (runtime uuid_uuid1 w).1
       :: trb ++ handled
          ++ log (Live.finally_block self
                    (Live.make_names (runtime uuid_uuid1 w).1) w')) ->
    invocations cleanup_live (log (Live.run fuel self w))
    = 1 + answers stop_prompt (log (Live.run fuel self w))
    /\ answers stop_prompt (log (Live.run fuel self w))
       <= prompts stop_prompt (log (Live.run fuel self w))
    /\ prompts stop_prompt (log (Live.run fuel self w)) <= 1
    /\ invocations cleanup_locator (log (Live.run fuel self w)) <= 1
    /\ (outcome_of (Live.run fuel self w) = Return tt ->
        invocations cleanup_locator (log (Live.run fuel self w)) = 1)).
  { intros w' handled pending (Hh1 & Hh2 & Hh3 & Hh4) ->.
    pose proof (finally_block_counts self
                  (Live.make_names (runtime uuid_uuid1 w).1) w') as Hfin.
    destruct (Live.finally_block self _ w') as [[ofin wf] trf].
    cbn [outcome_of world_of log fst snd] in *.
    change (Enter "run" :: Sys uuid_uuid1 (runtime uuid_uuid1 w).1
            :: trb ++ handled ++ trf)
      with ([Enter "run"; Sys uuid_uuid1 (runtime uuid_uuid1 w).1]
            ++ trb ++ handled ++ trf).
    rewrite !invocations_app, !prompts_app, !answers_app, Hh1, Hh2, Hh3, Hh4.
    change (invocations cleanup_live [Enter "run"; Sys uuid_uuid1 _]) with 0.
    change (invocations cleanup_locator [Enter "run"; Sys uuid_uuid1 _]) with 0.
    change (prompts stop_prompt [Enter "run"; Sys uuid_uuid1 _]) with 0.
    change (answers stop_prompt [Enter "run"; Sys uuid_uuid1 _]) with 0.
    destruct Hbody as [(Hb1 & Hb2 & Hb3 & Hb4)|[[_ (Hb1 & Hb2 & Hb3 & Hb4)]
                                               |(Hb1 & Hb2 & Hb3 & Hb4)]];
      destruct Hfin as [[_ (Hf1 & Hf2 & Hf3 & Hf4)]
                       |(e & Hexit & Hf1 & Hf2 & Hf3 & Hf4)];
      rewrite Hb1, Hb2, Hb3, Hb4, Hf1, Hf2, Hf3, Hf4;
      (repeat split; try lia);
      destruct ofin; cbn in Hexit; try discriminate. }
  destruct ob as [[]|e|].
  - destruct Hrun as [w' Hrun]. by apply (Hcount w' [] (Return tt)).
  - destruct Hrun as [w' Hrun].
    destruct e; (eapply Hcount; [|exact Hrun]); by repeat split.
  - rewrite Hrun in Hleft. by destruct Hleft.
Qed.

(** C7 as stated fails on the plain run of the script: once a streaming
    path is found and the operator answers the prompt, the [try] block
    cleans the live event up, and the [finally] block does so again. *)
Lemma live_run_cleans_up_twice :
  let r := Live.run (H := service) 3 sample_live_program empty_service in
  outcome_of r = Return tt
  /\ invocations "clean_up_live_event_and_live_output" (log r) = 2
  /\ invocations "clean_up_live_event_and_live_output" (log r) <> 1.
Proof. vm_compute. repeat split. discriminate. Qed.

(** With nobody at the keyboard the same run shows the prompt to stop,
    [input] raises [EOFError], and the live event is cleaned up once, by
    the [finally] block, which also completes: [run] is left by the
    [EOFError] with everything deleted. *)
Example live_run_unattended :
  let r := Live.run (H := unattended) 3 sample_live_program empty_service in
  outcome_of r = Raise (OtherException "EOFError" "EOF when reading a line")
  /\ prompts "Press enter to stop the LiveOutput..." (log r) = 1
  /\ answers "Press enter to stop the LiveOutput..." (log r) = 0
  /\ invocations "clean_up_live_event_and_live_output" (log r) = 1
  /\ invocations "clean_up_locator_and_asset" (log r) = 1
  /\ live_events (world_of r) = ∅ /\ assets (world_of r) = ∅.
Proof. vm_compute. by repeat split. Qed.

Lemma live_run_cleanup_invocations_witness :
  let r := Live.run (H := service) 3 sample_live_program empty_service in
  outcome_of r <> Running
  /\ invocations "clean_up_live_event_and_live_output" (log r)
     = 1 + answers "Press enter to stop the LiveOutput..." (log r)
  /\ answers "Press enter to stop the LiveOutput..." (log r)
     <= prompts "Press enter to stop the LiveOutput..." (log r)
  /\ prompts "Press enter to stop the LiveOutput..." (log r) <= 1
  /\ invocations "clean_up_locator_and_asset" (log r) <= 1
  /\ (outcome_of r = Return tt ->
      invocations "clean_up_locator_and_asset" (log r) = 1).
Proof.
  assert (Hleft : outcome_of (Live.run (H := service) 3 sample_live_program
                                empty_service) <> Running)
    by (vm_compute; discriminate).
  split; [exact Hleft|].
  exact (live_run_cleanup_invocations Service service 3 sample_live_program
           empty_service Hleft).
Defined.

(** ** The three scripts against the in-memory service *)

Ltac find_event :=
  repeat first [apply list_elem_of_here | apply list_elem_of_further].

(** The analyze script: the job is queued, processing, then finished, so
    the poller fetches three times; the output asset is downloaded. *)
Example analyze_main_runs :
  let r := AnalyzeVideoAndAudios.main (H := service) 10 empty_service in
  outcome_of r = Return tt
  /\ schedule (log r) = turns 2 5 ++ [Fetch]
  /\ failures (log r) = []
  /\ last (log r) = Some (Sys (py_print "Done.") tt).
Proof. vm_compute. repeat split. Qed.

(** With fuel for two turns only, the script is still polling. *)
Example analyze_main_still_polling :
  outcome_of (AnalyzeVideoAndAudios.main (H := service) 2 empty_service) = Running.
Proof. vm_compute. reflexivity. Qed.

(** The encrypt script: the token is signed under the key of this run, and
    the cleanup at the end removes what the run created. *)
Example encrypt_main_runs :
  let r := EncryptWithAES.main (H := service) 10 empty_service in
  outcome_of r = Return tt
  /\ Sys (os_urandom 40) sample_key ∈ log r
  /\ (exists payload token,
        Sys (jwt_encode payload sample_key "HS256") token ∈ log r
        /\ payload !! "iss" = Some (claim_str "ISSUER")
        /\ payload !! "CONTENT_KEY_IDENTIFIER_CLAIM_TYPE"
           = Some (claim_str "content-key-1"))
  /\ assets (world_of r) = ∅
  /\ streaming_locators (world_of r) = ∅.
Proof.
  cbv zeta. split; [vm_compute; reflexivity|].
  split; [vm_compute; find_event|].
  split.
  - eexists _, _. split.
    + vm_compute. find_event.
    + split; vm_compute; reflexivity.
  - split; vm_compute; reflexivity.
Qed.

(** The live script when the service is down from the start: the failure
    of the first call is caught and printed, and the failure of the
    cleanup is not. *)
Example live_main_outage :
  let r := Live.main (H := outage) 3 tt in
  outcome_of r = Raise (ApiErrorException "Service Unavailable")
  /\ failures (log r) = [ApiErrorException "Service Unavailable";
                         ApiErrorException "Service Unavailable"]
  /\ Sys (py_print "Hit ApiErrorException") tt ∈ log r.
Proof.
  cbv zeta. split; [reflexivity|]. split; [reflexivity|].
  vm_compute. find_event.
Qed.

(** * Further properties of the scripts *)

(** ** The job poller in any environment *)

Lemma fetched_app tr1 tr2 : fetched (tr1 ++ tr2) = fetched tr1 ++ fetched tr2.
Proof. apply omap_app. Qed.

Section PollerAnywhere.
Context {W : Type} `{Env W}.

(** Printing the outputs of a job returns: the indices run over the list
    itself, so no index is out of range. *)
Lemma print_job_outputs_return job len : forall a (w : W),
  a + len <= length (Job_outputs job) ->
  exists w' tr,
    for_each (seq a len) (AnalyzeVideoAndAudios.print_job_output job) w
    = (Return tt, w', tr)
    /\ schedule tr = [] /\ fetched tr = [].
Proof.
  induction len as [|len IH]; intros a w Hlen.
  - by exists w, [].
  - destruct (lookup_lt_is_Some_2 (Job_outputs job) a) as [output Hout]; [lia|].
    cbn [seq for_each]. rewrite run_bind.
    unfold AnalyzeVideoAndAudios.print_job_output at 1. rewrite Hout.
    rewrite bind_print.
    destruct (decide (JobOutput_state output = processing)).
    + rewrite run_print. cbn [after app].
      destruct (IH (S a) (runtime (py_print ("  Progress: " +:+
                   pretty (JobOutput_progress output)))
                   (runtime (py_print (" JobOutput[" +:+ pretty a +:+ "] is "
                      +:+ JobState_str (JobOutput_state output))) w).2).2)
        as (w' & tr & -> & Hs & Hf); [lia|].
      eexists _, _. split; [reflexivity|].
      by rewrite schedule_app, fetched_app, Hs, Hf.
    + cbn [ret after app].
      destruct (IH (S a) (runtime (py_print (" JobOutput[" +:+ pretty a +:+ "] is "
                      +:+ JobState_str (JobOutput_state output))) w).2)
        as (w' & tr & -> & Hs & Hf); [lia|].
      eexists _, _. split; [reflexivity|].
      by rewrite schedule_app, fetched_app, Hs, Hf.
Qed.

Lemma wait_for_job_to_finish_loop_law fuel rg acct tn jn : forall (w : W),
  let r := AnalyzeVideoAndAudios.wait_for_job_to_finish_loop fuel rg acct tn jn w in
  exists waited,
    Forall (fun job => terminal (Job_state job) = false) waited
    /\ match outcome_of r with
       | Return job =>
         terminal (Job_state job) = true
         /\ fetched (log r) = map found waited ++ [found job]
         /\ schedule (log r) = turns (length waited) 5 ++ [Fetch]
       | Raise e =>
         (fetched (log r) = map found waited ++ [inl e]
          \/ (fetched (log r) = map found waited ++ [inr None]
              /\ e = AttributeError "'NoneType' object has no attribute 'state'"))
         /\ schedule (log r) = turns (length waited) 5 ++ [Fetch]
       | Running =>
         fetched (log r) = map found waited
         /\ length waited = fuel
         /\ schedule (log r) = turns fuel 5
       end.
Proof.
  induction fuel as [|fuel IH]; intros w; cbv zeta.
  - by exists [].
  - cbn [AnalyzeVideoAndAudios.wait_for_job_to_finish_loop]. rewrite bind_media.
    destruct (handle _ w) as [[e|[job|]] w1].
    + exists []. split; [done|]. split; [by left|done].
    + rewrite bind_print, run_bind.
      destruct (print_job_outputs_return job (length (Job_outputs job)) 0
                  (runtime (py_print ("Job is " +:+ JobState_str (Job_state job)))
                     w1).2) as (w2 & tr & -> & Hs & Hf); [lia|].
      destruct (terminal (Job_state job)) eqn:Hterm.
      * exists []. split; [done|].
        cbn [ret after app outcome_of log fst snd]. rewrite app_nil_r.
        split; [done|].
        change (Call (Media (jobs_get rg acct tn jn)) (inr (Some job))
                :: Sys (py_print ("Job is " +:+ JobState_str (Job_state job))) ()
                :: tr)
          with ([Call (Media (jobs_get rg acct tn jn)) (inr (Some job));
                 Sys (py_print ("Job is " +:+ JobState_str (Job_state job))) ()]
                ++ tr).
        by rewrite fetched_app, schedule_app, Hs, Hf.
      * rewrite bind_sys, !after_after.
        specialize (IH (runtime (time_sleep AnalyzeVideoAndAudios.SleepIntervalMs) w2).2).
        cbv zeta in IH. destruct IH as (waited & Hwaited & IH).
        exists (job :: waited). split; [by constructor|].
        rewrite outcome_after, log_after.
        destruct (outcome_of _) as [job'|e|];
          rewrite !fetched_app, !schedule_app, Hs, Hf.
        -- destruct IH as (Hterm' & -> & ->). by repeat split.
        -- destruct IH as [[->|[-> ->]] ->]; (split; [|done]); [by left|by right].
        -- destruct IH as (-> & <- & ->). by repeat split.
    + exists []. split; [done|]. split; [by right|done].
Qed.

End PollerAnywhere.

(** X1.  [wait_for_job_to_finish] in any environment, for both scripts.
    The jobs it fetched before its last fetch were all found and not in a
    terminal state, and it slept 5 seconds after each of them.  When it
    returns, its last fetch found the job it returns, and that job is
    finished, in error or canceled.  When it raises, either its last fetch
    raised that exception, or its last fetch answered [None] and the
    exception is the [AttributeError] of reading [job.state].  While it
    runs, it has fetched once in each turn. *)
Theorem wait_for_job_to_finish_law W (H : Env W) fuel rg acct tn jn (w : W) :
  let r := AnalyzeVideoAndAudios.wait_for_job_to_finish fuel rg acct tn jn w in
  EncryptWithAES.wait_for_job_to_finish fuel rg acct tn jn w = r
  /\ exists waited,
       Forall (fun job => terminal (Job_state job) = false) waited
       /\ match outcome_of r with
          | Return job =>
            terminal (Job_state job) = true
            /\ fetched (log r) = map found waited ++ [found job]
            /\ schedule (log r) = turns (length waited) 5 ++ [Fetch]
          | Raise e =>
            (fetched (log r) = map found waited ++ [inl e]
             \/ (fetched (log r) = map found waited ++ [inr None]
                 /\ e = AttributeError "'NoneType' object has no attribute 'state'"))
            /\ schedule (log r) = turns (length waited) 5 ++ [Fetch]
          | Running =>
            fetched (log r) = map found waited
            /\ length waited = fuel
            /\ schedule (log r) = turns fuel 5
          end.
Proof.
  cbv zeta. split; [reflexivity|].
  unfold AnalyzeVideoAndAudios.wait_for_job_to_finish. rewrite bind_enter.
  destruct (wait_for_job_to_finish_loop_law fuel rg acct tn jn w)
    as (waited & Hwaited & Hlaw).
  exists waited. split; [done|].
  rewrite outcome_after, log_after.
  by destruct (outcome_of _).
Qed.

(** ** Input assets *)

(** [pick_case] finds the case of a table that a finished run is in. *)
Ltac pick_case :=
  lazymatch goal with
  | |- _ \/ _ => (left; pick_case) || (right; pick_case)
  | |- _ => solve [repeat first [reflexivity | eexists]]
  end.

Lemma create_input_asset_faithful {W} `{Env W} rg acct name file :
  faithful (AnalyzeVideoAndAudios.create_input_asset rg acct name file).
Proof. unfold AnalyzeVideoAndAudios.create_input_asset. faithful_auto. Qed.

(** X2.  [create_input_asset], in both scripts, in any environment.  Its
    log is made by the environment, call by call.  It creates the asset
    first, without looking whether the name is taken.  It asks for a
    read-write SAS that expires 4 hours after its second reading of the
    clock, and uploads the file, under its own name, into the container
    that the first SAS URL names, from the current directory, with a blob
    client for the storage account named before the first dot of the host
    of that URL.  A call that raises ends it there; an empty list of SAS
    URLs raises [IndexError], and a URL that names no storage account
    makes the constructor of the blob client raise [ValueError], both when
    the asset is already created and with nothing uploaded; so do
    [urlparse] and [getcwd] when they raise.  It returns the created asset
    only when the upload answered. *)
Theorem create_input_asset_cases W (H : Env W) rg acct name file (w : W) :
  let r := AnalyzeVideoAndAudios.create_input_asset rg acct name file w in
  let create := Media (assets_create_or_update rg acct name Asset_new) in
  let sas t := Media (assets_list_container_sas rg acct name read_write
                        (t + timedelta 4 0)%Z) in
  EncryptWithAES.create_input_asset rg acct name file w = r
  /\ genuine w (log r) (world_of r)
  /\ ((exists e w',
         r = (Raise e, w', [Enter "create_input_asset"; Call create (inl e)]))
      \/ (exists asset t1 t2 e w',
            r = (Raise e, w',
                 [Enter "create_input_asset"; Call create (inr asset);
                  Sys datetime_utcnow t1; Sys datetime_utcnow t2;
                  Call (sas t2) (inl e)]))
      \/ (exists asset t1 t2 w',
            r = (Raise (IndexError "list index out of range"), w',
                 [Enter "create_input_asset"; Call create (inr asset);
                  Sys datetime_utcnow t1; Sys datetime_utcnow t2;
                  Call (sas t2) (inr (mkAssetContainerSas []))]))
      \/ (exists asset t1 t2 url urls e w',
            r = (Raise e, w',
                 [Enter "create_input_asset"; Call create (inr asset);
                  Sys datetime_utcnow t1; Sys datetime_utcnow t2;
                  Call (sas t2) (inr (mkAssetContainerSas (url :: urls)));
                  Call (parse_urlparse url) (inl e)]))
      \/ (exists asset t1 t2 url urls parsed e w',
            r = (Raise e, w',
                 [Enter "create_input_asset"; Call create (inr asset);
                  Sys datetime_utcnow t1; Sys datetime_utcnow t2;
                  Call (sas t2) (inr (mkAssetContainerSas (url :: urls)));
                  Call (parse_urlparse url) (inr parsed);
                  Call os_getcwd (inl e)]))
      \/ (exists asset t1 t2 url urls parsed cwd message w',
            before_dot (ParseResult_netloc parsed) = ""
            /\ r = (Raise (OtherException "ValueError" message), w',
                    [Enter "create_input_asset"; Call create (inr asset);
                     Sys datetime_utcnow t1; Sys datetime_utcnow t2;
                     Call (sas t2) (inr (mkAssetContainerSas (url :: urls)));
                     Call (parse_urlparse url) (inr parsed);
                     Call os_getcwd (inr cwd)]))
      \/ (exists asset t1 t2 url urls parsed cwd uploaded w',
            before_dot (ParseResult_netloc parsed) <> ""
            /\ r = (match uploaded with
                    | inl e => Raise e
                    | inr _ => Return asset
                    end, w',
                    [Enter "create_input_asset"; Call create (inr asset);
                     Sys datetime_utcnow t1; Sys datetime_utcnow t2;
                     Call (sas t2) (inr (mkAssetContainerSas (url :: urls)));
                     Call (parse_urlparse url) (inr parsed);
                     Call os_getcwd (inr cwd);
                     Call (Storage (create_blob_from_path
                                      (mkBlockBlobService
                                         (before_dot (ParseResult_netloc parsed))
                                         (ParseResult_query parsed))
                                      (drop_first (ParseResult_path parsed))
                                      file (path_join cwd file)))
                       uploaded]))).
Proof.
  cbv zeta. split; [reflexivity|].
  split; [apply create_input_asset_faithful|].
  unfold AnalyzeVideoAndAudios.create_input_asset, storage, new_BlockBlobService.
  exec_split; try pick_case.
  match goal with a : AssetContainerSas |- _ => destruct a as [[|url urls]] end;
    cbn [AssetContainerSas_asset_container_sas_urls index0].
  - exec_split. pick_case.
  - exec_split; try pick_case.
    destruct (decide _) as [Hnone|Hsome].
    + exec. do 5 right. left. eexists _, _, _, _, _, _, _, _, _. by split.
    + exec. rewrite bind_call.
      match goal with |- context [handle ?q ?w] =>
        destruct (handle q w) as [[e|[]] w']
      end; do 6 right.
      * eexists _, _, _, _, _, _, _, (inl e), _. by split.
      * eexists _, _, _, _, _, _, _, (inr tt), _. by split.
Qed.

(** ** Downloading the output asset *)

Lemma transfers_app tr1 tr2 : transfers (tr1 ++ tr2) = transfers tr1 ++ transfers tr2.
Proof. apply omap_app. Qed.

Lemma read_only_seq tr1 x tr2 :
  read_only Returned tr1 -> read_only x tr2 -> read_only x (tr1 ++ tr2).
Proof.
  intros [Ht1 Hu1] [Ht2 Hu2]. split.
  - by rewrite touched_app, Ht1, Ht2.
  - rewrite transfers_app. by apply Forall_app.
Qed.

#[global] Hint Resolve read_only_seq : emits.
#[global] Hint Extern 1 (read_only _ []) => (split; [reflexivity|constructor]) : emits.
#[global] Hint Extern 1 (read_only _ [_]) =>
  (split; [reflexivity|repeat constructor]) : emits.

(** A log that ends with a given event. *)
Lemma ends_one {A} (x : A) : [x] = [] ++ [x].
Proof. reflexivity. Qed.

Lemma ends_cons {A} (a : A) tr tr0 x : tr = tr0 ++ [x] -> a :: tr = (a :: tr0) ++ [x].
Proof. by intros ->. Qed.

Lemma ends_app {A} (pre : list A) tr tr0 x :
  tr = tr0 ++ [x] -> pre ++ tr = (pre ++ tr0) ++ [x].
Proof. intros ->. by rewrite app_assoc. Qed.

Lemma ends_cons3 {A} (a : A) tr tr0 x y z :
  tr = tr0 ++ [x; y; z] -> a :: tr = (a :: tr0) ++ [x; y; z].
Proof. by intros ->. Qed.

Lemma ends_three {A} (x y z : A) : [x; y; z] = [] ++ [x; y; z].
Proof. reflexivity. Qed.

Ltac ends_with :=
  repeat first [exact (ends_one _) | eapply ends_cons | eapply ends_app].

Section Download.
Context {W : Type} `{Env W}.
Variables (svc : BlockBlobService) (container directory : string).

Local Abbreviation fetch_blob :=
  (fun blob : Blob =>
     print ("Downloading Blob: " +:+ Blob_name blob);;
     storage (get_blob_to_path svc container (Blob_name blob)
                (path_join directory (Blob_name blob)))).

Local Abbreviation fetch_log :=
  (fun blob : Blob =>
     [Sys (py_print ("Downloading Blob: " +:+ Blob_name blob)) tt;
      Call (Storage (get_blob_to_path svc container (Blob_name blob)
                       (path_join directory (Blob_name blob)))) (inr tt)]).

(** The loop over the blobs: every download answers and the rest runs, or
    the loop is left by the exception of a download, after the downloads
    before it. *)
Lemma for_each_blob_then {B} (blobs : list Blob) (k : M W B) (w : W) :
  (exists w',
     (for_each blobs fetch_blob ≫= fun _ => k) w
     = after (blobs ≫= fetch_log) (k w'))
  \/ (exists before blob rest e w',
        blobs = before ++ blob :: rest
        /\ (for_each blobs fetch_blob ≫= fun _ => k) w
           = (Raise e, w',
              (before ≫= fetch_log)
              ++ [Sys (py_print ("Downloading Blob: " +:+ Blob_name blob)) tt;
                  Call (Storage (get_blob_to_path svc container (Blob_name blob)
                                   (path_join directory (Blob_name blob))))
                    (inl e)])).
Proof.
  unfold storage. revert w. induction blobs as [|blob blobs IH]; intros w.
  - left. exists w. cbn [for_each]. rewrite bind_ret. by rewrite after_nil.
  - cbn [for_each]. rewrite !bind_assoc, bind_print, bind_call.
    destruct (handle _ _) as [[e|[]] w1].
    + right. exists [], blob, blobs, e, w1. by split.
    + destruct (IH w1) as [[w' Hrun]|(before & b & rest & e & w' & Hblobs & Hrun)].
      * left. exists w'. rewrite Hrun, !after_after. reflexivity.
      * right. exists (blob :: before), b, rest, e, w'.
        split; [by rewrite Hblobs|]. rewrite Hrun. reflexivity.
Qed.

End Download.

Section DownloadOutputAsset.
Context {W : Type} `{Env W}.

Lemma download_output_asset_read_only rg acct name folder :
  emits (AnalyzeVideoAndAudios.download_output_asset rg acct name folder) read_only.
Proof. unfold AnalyzeVideoAndAudios.download_output_asset. emits_auto. Qed.

End DownloadOutputAsset.

Lemma download_output_asset_faithful {W} `{Env W} rg acct name folder :
  faithful (AnalyzeVideoAndAudios.download_output_asset rg acct name folder).
Proof. unfold AnalyzeVideoAndAudios.download_output_asset. faithful_auto. Qed.

(** X3. [download_output_asset] changes nothing on the service: it touches
    no resource of the account and uploads no file.  Its log is made by
    the environment, call by call.  It never loops.  When it returns, its
    log is: the test of the output folder, made only if it is missing; a
    container SAS of the asset asked with [read] permission, expiring four
    hours after the clock was read; the directory
    [output_folder/asset_name] made (unconditionally, after the SAS was
    obtained); the blobs of the container of the first SAS URL listed,
    with a blob client for the storage account named before the first dot
    of the host of that URL; one download per listed blob, in the order
    listed, each into the directory under the name of the blob; and the
    closing line.  When it raises, the exception is that of its last call,
    or the [IndexError] of an empty list of SAS URLs, before any directory
    of the asset is made, or the [ValueError] of the constructor of the
    blob client for a URL that names no storage account, when the
    directory is made and before any blob is listed. *)
Theorem download_output_asset_law W (H : Env W) rg acct name folder (w : W) :
  let r := AnalyzeVideoAndAudios.download_output_asset rg acct name folder w in
  let directory := path_join folder name in
  touched (log r) = []
  /\ Forall (fun t => is_upload t = false) (transfers (log r))
  /\ genuine w (log r) (world_of r)
  /\ match outcome_of r with
     | Return _ =>
       exists present now url urls parsed blobs,
         let svc := mkBlockBlobService (before_dot (ParseResult_netloc parsed))
                      (ParseResult_query parsed) in
         let container := drop_first (ParseResult_path parsed) in
         before_dot (ParseResult_netloc parsed) <> ""
         /\ log r
            = Enter "download_output_asset"
              :: Sys (os_path_exists folder) present
              :: (if present : bool then []
                  else [Call (os_makedirs folder) (inr tt)])
              ++ Sys datetime_utcnow now
              :: Call (Media (assets_list_container_sas rg acct name read
                                (now + timedelta 4 0)%Z))
                   (inr (mkAssetContainerSas (url :: urls)))
              :: Call (os_makedirs directory) (inr tt)
              :: Sys (py_print ("Downloading output results to " +:+ directory)) tt
              :: Call (parse_urlparse url) (inr parsed)
              :: Call (Storage (list_blobs svc container)) (inr blobs)
              :: (blobs ≫= fun blob =>
                    [Sys (py_print ("Downloading Blob: " +:+ Blob_name blob)) tt;
                     Call (Storage (get_blob_to_path svc container (Blob_name blob)
                                      (path_join directory (Blob_name blob))))
                       (inr tt)])
              ++ [Sys (py_print "Download complete.") tt]
     | Raise e =>
       (exists tr R (q : request R), log r = tr ++ [Call q (inl e)])
       \/ (e = IndexError "list index out of range"
           /\ exists tr now,
                log r = tr ++ [Call (Media (assets_list_container_sas rg acct name
                                              read (now + timedelta 4 0)%Z))
                                 (inr (mkAssetContainerSas []))])
       \/ (exists message tr url parsed,
             e = OtherException "ValueError" message
             /\ before_dot (ParseResult_netloc parsed) = ""
             /\ log r
                = tr ++ [Call (os_makedirs directory) (inr tt);
                         Sys (py_print ("Downloading output results to "
                                        +:+ directory)) tt;
                         Call (parse_urlparse url) (inr parsed)])
     | Running => False
     end.
Proof.
  cbv zeta.
  split; [apply (download_output_asset_read_only rg acct name folder w)|].
  split; [apply (download_output_asset_read_only rg acct name folder w)|].
  split; [apply download_output_asset_faithful|].
  unfold AnalyzeVideoAndAudios.download_output_asset, storage,
    new_BlockBlobService.
  rewrite bind_enter, bind_sys.
  destruct (fst (runtime (os_path_exists folder) w)) eqn:Hpresent.
  all: exec_split; cbn [outcome_of log fst snd].
  all: try solve [left; eexists _, _, _; ends_with].
  all: match goal with a : AssetContainerSas |- _ => destruct a as [[|url urls]] end;
    cbn [AssetContainerSas_asset_container_sas_urls index0].
  all: exec_split; cbn [outcome_of log fst snd].
  all: try solve [left; eexists _, _, _; ends_with].
  all: try solve [right; left; split; [reflexivity|eexists _, _; ends_with]].
  all: repeat match goal with u : () |- _ => destruct u end.
  all: destruct (decide _) as [Hnone|Hsome]; exec_split;
    cbn [outcome_of log fst snd].
  all: try solve [left; eexists _, _, _; ends_with].
  all: try solve [right; right; eexists _, _, _, _;
                  split; [reflexivity|]; split; [exact Hnone|];
                  repeat first [exact (ends_three _ _ _) | eapply ends_cons3]].
  all: match goal with
       | _ : handle (Storage (list_blobs ?svc ?c)) _ = _
         |- context [(for_each ?bl _ ≫= fun _ => ?k) ?w] =>
         destruct (for_each_blob_then svc c (path_join folder name) bl k w)
           as [[w' Hrun]|(before & blob & rest & e & w' & Hblobs & Hrun)]
       end; unfold storage in Hrun; rewrite Hrun; exec; cbn [outcome_of log fst snd].
  - exists true. eexists _, _, _, _, _. split; [exact Hsome|].
    rewrite <- ?app_assoc. reflexivity.
  - left. eexists _, _, _. ends_with.
  - exists false. eexists _, _, _, _, _. split; [exact Hsome|].
    rewrite <- ?app_assoc. reflexivity.
  - left. eexists _, _, _. ends_with.
Qed.

(** When the host of the SAS URL is empty, no blob client is made: the
    upload of the input asset stops with [ValueError] when the asset is
    created, and the download when the directory is made. *)
Example transfers_without_account :
  let up := AnalyzeVideoAndAudios.create_input_asset (H := hostless) "rg" "acct"
              "input-a" "ignite.mp4" empty_service in
  let down := AnalyzeVideoAndAudios.download_output_asset (H := hostless) "rg" "acct"
                "output-a" "output" empty_service in
  (exists message, outcome_of up = Raise (OtherException "ValueError" message))
  /\ touched (log up) = [the_asset "rg" "acct" "input-a"]
  /\ transfers (log up) = []
  /\ (exists message, outcome_of down = Raise (OtherException "ValueError" message))
  /\ transfers (log down) = []
  /\ last (log down)
     = Some (Call (parse_urlparse
                     "https://amsstore.blob.core.windows.net/asset-output-a?sv=2017")
               (inr (mkParseResult "" "/asset-container" "sv=2017"))).
Proof. cbv zeta. repeat split; try (eexists; reflexivity); reflexivity. Qed.

(** ** The DASH streaming URL *)

Section DashUrl.
Context {W : Type} `{Env W}.
Variable streaming_endpoint : option StreamingEndpoint.

Local Abbreviation pick_dash :=
  (fun (dash_path : string) (path : StreamingPath) =>
     host ← match streaming_endpoint with
            | Some endpoint => ret (StreamingEndpoint_host_name endpoint)
            | None => raise (AttributeError
                        "'NoneType' object has no attribute 'host_name'")
            end;
     if decide (StreamingPath_streaming_protocol path = dash) then
       path ← index0 (StreamingPath_paths path);
       ret (urlunparse "https" host path)
     else ret dash_path).

(** The loop over the streaming paths makes no call; it keeps the URL of
    the last DASH entry. *)
Lemma for_fold_pick_dash (paths : list StreamingPath) : forall dash_path (w : W),
  exists o,
    for_fold paths dash_path pick_dash w = (o, w, [])
    /\ match o with
       | Return url =>
         match last (filter (fun path => StreamingPath_streaming_protocol path = dash)
                       paths) with
         | None => url = dash_path
         | Some path =>
           exists endpoint first,
             streaming_endpoint = Some endpoint
             /\ head (StreamingPath_paths path) = Some first
             /\ url = urlunparse "https" (StreamingEndpoint_host_name endpoint) first
         end
       | Raise e =>
         (streaming_endpoint = None /\ paths <> []
          /\ e = AttributeError "'NoneType' object has no attribute 'host_name'")
         \/ (exists path,
               path ∈ paths
               /\ StreamingPath_streaming_protocol path = dash
               /\ StreamingPath_paths path = []
               /\ e = IndexError "list index out of range")
       | Running => False
       end.
Proof.
  induction paths as [|path paths IH]; intros dash_path w.
  - exists (Return dash_path). by split.
  - cbn [for_fold]. destruct streaming_endpoint as [endpoint|] eqn:Hendpoint.
    2:{ eexists. rewrite bind_assoc, bind_raise. split; [reflexivity|].
        left. by repeat split. }
    rewrite bind_assoc, bind_ret, filter_cons.
    destruct (decide (StreamingPath_streaming_protocol path = dash)) as [Hdash|Hother].
    + destruct (StreamingPath_paths path) as [|first others] eqn:Hpaths;
        cbn [index0].
      * eexists. rewrite bind_assoc, bind_raise. split; [reflexivity|].
        right. exists path. repeat split; [apply list_elem_of_here|done..].
      * rewrite bind_assoc, !bind_ret.
        destruct (IH (urlunparse "https" (StreamingEndpoint_host_name endpoint) first) w)
          as (o & Hrun & Ho).
        exists o. split; [done|]. destruct o as [url|e|]; [| |done].
        -- rewrite last_cons. destruct (last _); [done|].
           exists endpoint, first. by rewrite Hpaths.
        -- destruct Ho as [(? & _)|(p & Hp & ?)]; [done|].
           right. exists p. split; [by apply list_elem_of_further|done].
    + rewrite bind_ret. destruct (IH dash_path w) as (o & Hrun & Ho).
      exists o. split; [done|]. destruct o as [url|e|]; [done| |done].
      destruct Ho as [(? & _)|(p & Hp & ?)]; [done|].
      right. exists p. split; [by apply list_elem_of_further|done].
Qed.

End DashUrl.

(** X4. [get_dash_streaming_url] looks up the endpoint ["default"], starts
    it when it exists and is not running, and lists the paths of the
    locator: no other call is made.  When it returns, its result is the
    empty string if no streaming path is DASH, and otherwise the [https]
    URL made of the host name of the endpoint and the first path of the
    LAST DASH entry.  When it raises after its calls answered, either the
    endpoint does not exist while the locator has streaming paths
    ([AttributeError]), or a DASH entry has no path ([IndexError]). *)
Theorem get_dash_streaming_url_law W (H : Env W) rg acct locator (w : W) :
  let r := EncryptWithAES.get_dash_streaming_url rg acct locator w in
  let calls (endpoint : option StreamingEndpoint) (paths : ListPathsResponse) :=
    Enter "get_dash_streaming_url"
    :: Call (Media (streaming_endpoints_get rg acct "default")) (inr endpoint)
    :: match endpoint with
       | Some endpoint =>
         if decide (StreamingEndpoint_resource_state endpoint <> se_running)
         then [Call (Media (streaming_endpoints_start rg acct "default")) (inr tt)]
         else []
       | None => []
       end
    ++ [Call (Media (streaming_locators_list_paths rg acct locator)) (inr paths)] in
  match outcome_of r with
  | Return url =>
    exists endpoint paths,
      log r = calls endpoint paths
      /\ match last (filter (fun path => StreamingPath_streaming_protocol path = dash)
                       (ListPathsResponse_streaming_paths paths)) with
         | None => url = ""
         | Some path =>
           exists running first,
             endpoint = Some running
             /\ head (StreamingPath_paths path) = Some first
             /\ url = urlunparse "https" (StreamingEndpoint_host_name running) first
         end
  | Raise e =>
    (exists tr R (q : request R), log r = tr ++ [Call q (inl e)])
    \/ exists endpoint paths,
         log r = calls endpoint paths
         /\ ((endpoint = None /\ ListPathsResponse_streaming_paths paths <> []
              /\ e = AttributeError "'NoneType' object has no attribute 'host_name'")
             \/ exists path,
                  path ∈ ListPathsResponse_streaming_paths paths
                  /\ StreamingPath_streaming_protocol path = dash
                  /\ StreamingPath_paths path = []
                  /\ e = IndexError "list index out of range")
  | Running => False
  end.
Proof.
  cbv zeta. unfold EncryptWithAES.get_dash_streaming_url,
    EncryptWithAES.DefaultStreamingEndpointName.
  exec_split; cbn [outcome_of log fst snd].
  { left. eexists _, _, _. ends_with. }
  match goal with a : option StreamingEndpoint |- _ =>
    destruct a as [endpoint|];
      [destruct (decide (StreamingEndpoint_resource_state endpoint <> se_running))|]
  end.
  all: exec_split; cbn [outcome_of log fst snd].
  all: try solve [left; eexists _, _, _; ends_with].
  all: match goal with
       |- context [for_fold (ListPathsResponse_streaming_paths ?paths) _ _ ?w] =>
         match goal with
         | _ : handle (Media (streaming_endpoints_get _ _ _)) _ = (inr ?a, _) |- _ =>
           destruct (for_fold_pick_dash a (ListPathsResponse_streaming_paths paths)
                       "" w) as (o & Hrun & Ho)
         end
       end; rewrite Hrun; exec; cbn [outcome_of log fst snd].
  all: repeat match goal with u : () |- _ => destruct u end.
  all: destruct o as [url|e|]; [|right|done].
  all: match goal with
       | _ : handle (Media (streaming_endpoints_get _ _ _)) _ = (inr ?a, _) |- _ =>
         exists a
       end; eexists; (split; [cbn beta iota; repeat case_decide; done|]).
  all: exact Ho.
Qed.

(** ** What a run never does *)

Lemma every_seq P tr1 x tr2 :
  every P Returned tr1 -> every P x tr2 -> every P x (tr1 ++ tr2).
Proof. apply Forall_app_2. Qed.

Lemma every_nil P x : every P x [].
Proof. constructor. Qed.

Lemma every_one (P : event -> Prop) x ev : P ev -> every P x [ev].
Proof. by constructor. Qed.

Lemma every_impl (P Q : event -> Prop) x tr :
  (forall ev, P ev -> Q ev) -> every P x tr -> every Q x tr.
Proof. intros HPQ HP. by eapply Forall_impl. Qed.

(** A property of the events carries over to what is read off them. *)
Lemma Forall_omap_every {B} (f : event -> option B) (P : event -> Prop)
    (Q : B -> Prop) tr :
  (forall ev b, P ev -> f ev = Some b -> Q b) ->
  Forall P tr -> Forall Q (omap f tr).
Proof.
  intros HPQ. induction 1 as [|ev tr Hev _ IH]; [constructor|].
  cbn [omap list_omap]. destruct (f ev) as [b|] eqn:Hf; [|exact IH].
  constructor; [by eapply HPQ|exact IH].
Qed.

Lemma omap_every_none {B} (f : event -> option B) (P : event -> Prop) tr :
  (forall ev, P ev -> f ev = None) -> Forall P tr -> omap f tr = [].
Proof.
  intros HP. induction 1 as [|ev tr Hev _ IH]; [reflexivity|].
  cbn [omap list_omap]. by rewrite (HP ev Hev).
Qed.

#[global] Hint Resolve every_seq every_nil : emits.
#[global] Hint Extern 1 (every _ _ [_]) =>
  (apply every_one; repeat split; cbn;
   first [done
         | solve [repeat first [apply list_elem_of_here
                               | apply list_elem_of_further]]]) : emits.

Section Tame.
Context {W : Type} `{Env W}.
Variables (key : list Byte.byte) (options : list ContentKeyPolicyOption).

Local Abbreviation is_tame := (every (tame key options)).

Lemma analyze_get_or_create_transform_tame rg acct name preset :
  emits (AnalyzeVideoAndAudios.get_or_create_transform rg acct name preset) is_tame.
Proof. unfold AnalyzeVideoAndAudios.get_or_create_transform. emits_auto. Qed.

Lemma analyze_create_input_asset_tame rg acct name file :
  emits (AnalyzeVideoAndAudios.create_input_asset rg acct name file) is_tame.
Proof. unfold AnalyzeVideoAndAudios.create_input_asset. emits_auto. Qed.

Lemma analyze_create_output_asset_tame rg acct name :
  emits (AnalyzeVideoAndAudios.create_output_asset rg acct name) is_tame.
Proof. unfold AnalyzeVideoAndAudios.create_output_asset. emits_auto. Qed.

Lemma analyze_submit_job_tame rg acct tn jn input output :
  emits (AnalyzeVideoAndAudios.submit_job rg acct tn jn input output) is_tame.
Proof. unfold AnalyzeVideoAndAudios.submit_job. emits_auto. Qed.

Lemma analyze_print_job_output_tame job i :
  emits (AnalyzeVideoAndAudios.print_job_output job i) is_tame.
Proof. unfold AnalyzeVideoAndAudios.print_job_output. emits_auto. Qed.

#[local] Hint Resolve analyze_print_job_output_tame : emits.

Lemma analyze_wait_for_job_to_finish_loop_tame fuel rg acct tn jn :
  emits (AnalyzeVideoAndAudios.wait_for_job_to_finish_loop fuel rg acct tn jn)
    is_tame.
Proof.
  induction fuel as [|fuel IH];
    cbn [AnalyzeVideoAndAudios.wait_for_job_to_finish_loop]; emits_auto.
Qed.

#[local] Hint Resolve analyze_wait_for_job_to_finish_loop_tame : emits.

Lemma analyze_wait_for_job_to_finish_tame fuel rg acct tn jn :
  emits (AnalyzeVideoAndAudios.wait_for_job_to_finish fuel rg acct tn jn) is_tame.
Proof. unfold AnalyzeVideoAndAudios.wait_for_job_to_finish. emits_auto. Qed.

Lemma analyze_download_output_asset_tame rg acct name folder :
  emits (AnalyzeVideoAndAudios.download_output_asset rg acct name folder) is_tame.
Proof. unfold AnalyzeVideoAndAudios.download_output_asset. emits_auto. Qed.

#[local] Hint Resolve analyze_get_or_create_transform_tame
  analyze_create_input_asset_tame analyze_create_output_asset_tame
  analyze_submit_job_tame analyze_wait_for_job_to_finish_tame
  analyze_download_output_asset_tame : emits.

Lemma analyze_run_tame fuel self : emits (AnalyzeVideoAndAudios.run fuel self) is_tame.
Proof. unfold AnalyzeVideoAndAudios.run. emits_auto. Qed.

Lemma analyze_main_tame fuel : emits (AnalyzeVideoAndAudios.main fuel) is_tame.
Proof.
  unfold AnalyzeVideoAndAudios.main, AnalyzeVideoAndAudios.init.
  emits_auto. apply analyze_run_tame.
Qed.

End Tame.

Lemma invocations_none method tr :
  Forall (fun ev => entered method ev = false) tr -> invocations method tr = 0.
Proof.
  unfold invocations. induction 1 as [|ev tr Hev _ IH]; [reflexivity|].
  rewrite filter_cons, decide_False; [exact IH|]. by rewrite Hev.
Qed.

(** X6. The analyze script never enters its [clean_up] method and sends no
    deletion: whatever it created on the account (transform, assets, job)
    is still there when it ends, however it ends. *)
Theorem analyze_main_never_deletes W (H : Env W) fuel (w : W) :
  let r := AnalyzeVideoAndAudios.main fuel w in
  Forall (fun ev => deletes ev = false) (log r)
  /\ invocations "clean_up" (log r) = 0.
Proof.
  cbv zeta. pose proof (analyze_main_tame [] [] fuel w) as Htame.
  split; [|apply invocations_none];
    (eapply Forall_impl; [exact Htame|]); intros ev Hev; apply Hev.
Qed.

(** ** The encrypt script: its key and its cleanup *)

(** The option [get_or_create_content_key_policy] builds from the settings
    of the program. *)
Local Abbreviation option_of self :=
  (mkContentKeyPolicyOption ContentKeyPolicyClearKeyConfiguration
     (mkContentKeyPolicyTokenRestriction (EncryptWithAES.issuer self)
        (EncryptWithAES.audience self) (EncryptWithAES.token_sign_key self) jwt None
        [mkContentKeyPolicyTokenClaim
           (EncryptWithAES.content_key_identifier_claim_type self) None])).

Section EncryptTame.
Context {W : Type} `{Env W}.
Variable self : EncryptWithAES.Program.

Local Abbreviation is_tame :=
  (every (tame (EncryptWithAES.token_sign_key self) [option_of self])).

Lemma encrypt_get_or_create_content_key_policy_tame rg acct name :
  emits (EncryptWithAES.get_or_create_content_key_policy self rg acct name) is_tame.
Proof. unfold EncryptWithAES.get_or_create_content_key_policy. emits_auto. Qed.

Lemma encrypt_create_input_asset_tame rg acct name file :
  emits (EncryptWithAES.create_input_asset rg acct name file) is_tame.
Proof. apply analyze_create_input_asset_tame. Qed.

Lemma encrypt_create_output_asset_tame rg acct name :
  emits (EncryptWithAES.create_output_asset rg acct name) is_tame.
Proof. apply analyze_create_output_asset_tame. Qed.

Lemma encrypt_get_or_create_transform_tame rg acct name :
  emits (EncryptWithAES.get_or_create_transform rg acct name) is_tame.
Proof. unfold EncryptWithAES.get_or_create_transform. emits_auto. Qed.

Lemma encrypt_submit_job_tame rg acct tn jn input output :
  emits (EncryptWithAES.submit_job rg acct tn jn input output) is_tame.
Proof. apply analyze_submit_job_tame. Qed.

Lemma encrypt_wait_for_job_to_finish_tame fuel rg acct tn jn :
  emits (EncryptWithAES.wait_for_job_to_finish fuel rg acct tn jn) is_tame.
Proof. apply analyze_wait_for_job_to_finish_tame. Qed.

Lemma encrypt_create_streaming_locator_tame rg acct asset locator policy :
  emits (EncryptWithAES.create_streaming_locator rg acct asset locator policy)
    is_tame.
Proof. unfold EncryptWithAES.create_streaming_locator. emits_auto. Qed.

Lemma encrypt_get_token_tame key_identifier :
  emits (EncryptWithAES.get_token (EncryptWithAES.issuer self)
           (EncryptWithAES.audience self)
           (EncryptWithAES.content_key_identifier_claim_type self) key_identifier
           (EncryptWithAES.token_sign_key self)) is_tame.
Proof. unfold EncryptWithAES.get_token. emits_auto. Qed.

Lemma encrypt_get_dash_streaming_url_tame rg acct locator :
  emits (EncryptWithAES.get_dash_streaming_url rg acct locator) is_tame.
Proof. unfold EncryptWithAES.get_dash_streaming_url. emits_auto. Qed.

End EncryptTame.

Section EncryptRun.
Context {W : Type} `{Env W}.
Variable self : EncryptWithAES.Program.

Local Abbreviation is_tame :=
  (every (tame (EncryptWithAES.token_sign_key self) [option_of self])).

Local Abbreviation keyless :=
  (fun ev => drawn_by ev = None /\ signed_by ev = None /\ installed_by ev = None).

(** The log of [run]: a tame part, then nothing if [run] was not left by
    returning, or the prompt answered and the cleanup. *)
Local Abbreviation in_two_parts :=
  (fun (x : exit) (tr : list event) =>
     exists before after,
       tr = before ++ after
       /\ is_tame Returned before
       /\ ((x <> Returned /\ after = [])
           \/ exists line rest,
                after = Call (py_input "press any key to continue") (inr line)
                        :: Enter "clean_up" :: rest
                /\ Forall keyless rest)).

Lemma in_two_parts_seq tr1 x tr2 :
  is_tame Returned tr1 -> in_two_parts x tr2 -> in_two_parts x (tr1 ++ tr2).
Proof.
  intros H1 (before & after & -> & Hbefore & Hafter).
  exists (tr1 ++ before), after. split; [by rewrite app_assoc|].
  split; [by apply every_seq|exact Hafter].
Qed.

Lemma in_two_parts_raised e tr : is_tame (Raised e) tr -> in_two_parts (Raised e) tr.
Proof.
  intros Htr. exists tr, []. split; [by rewrite app_nil_r|].
  split; [exact Htr|]. by left.
Qed.

Lemma in_two_parts_unfinished tr : is_tame Unfinished tr -> in_two_parts Unfinished tr.
Proof.
  intros Htr. exists tr, []. split; [by rewrite app_nil_r|].
  split; [exact Htr|]. by left.
Qed.

Lemma encrypt_clean_up_keyless rg acct tn policy :
  emits (EncryptWithAES.clean_up rg acct tn policy) (every keyless).
Proof. unfold EncryptWithAES.clean_up. emits_auto. Qed.

#[local] Hint Resolve encrypt_get_or_create_content_key_policy_tame
  encrypt_create_input_asset_tame encrypt_create_output_asset_tame
  encrypt_get_or_create_transform_tame encrypt_submit_job_tame
  encrypt_wait_for_job_to_finish_tame encrypt_create_streaming_locator_tame
  encrypt_get_token_tame encrypt_get_dash_streaming_url_tame : emits.

Lemma encrypt_run_in_two_parts fuel :
  emits (EncryptWithAES.run fuel self) in_two_parts.
Proof.
  unfold EncryptWithAES.run.
  repeat lazymatch goal with
  | |- emits (call (py_input _) ≫= _) _ => fail
  | |- emits (_ ≫= _) _ =>
    eapply (emits_bind_with is_tame in_two_parts);
      [apply in_two_parts_seq | apply in_two_parts_raised
       | apply in_two_parts_unfinished | emits_auto | intros ?]
  end.
  intros w. rewrite bind_call.
  destruct (handle _ w) as [[e|line] w1].
  { eexists [_], []. split; [reflexivity|]. split; [|by left].
    by repeat constructor. }
  rewrite outcome_after, log_after.
  pose proof (encrypt_clean_up_keyless (EncryptWithAES.resource_group_name self)
                (EncryptWithAES.account_name self) (EncryptWithAES.transform_name self)
                (EncryptWithAES.content_key_policy_name self) w1) as Hkeys.
  unfold every, EncryptWithAES.clean_up in *.
  rewrite bind_enter, outcome_after, log_after in *.
  apply Forall_cons_1 in Hkeys as [_ Hkeys].
  eexists [], _. split; [reflexivity|]. split; [constructor|].
  right. eexists _, _. by split.
Qed.

End EncryptRun.

(** X7. In the encrypt script nothing is deleted, and [clean_up] is not
    entered, before the operator has answered the prompt to press a key:
    the log of [run] is a part without deletions, followed by the prompt
    answered and the cleanup.  When [run] returns the prompt was answered
    and the cleanup entered; when it is left otherwise before the prompt,
    or at the prompt by an exception of [input], nothing of what it
    created is removed. *)
Theorem encrypt_run_deletes_after_prompt W (H : Env W) fuel self (w : W) :
  let r := EncryptWithAES.run fuel self w in
  exists before after,
    log r = before ++ after
    /\ Forall (fun ev => deletes ev = false /\ entered "clean_up" ev = false) before
    /\ match outcome_of r with
       | Return _ =>
         exists line rest,
           after = Call (py_input "press any key to continue") (inr line)
                   :: Enter "clean_up" :: rest
       | _ =>
         after = []
         \/ exists line rest,
              after = Call (py_input "press any key to continue") (inr line)
                      :: Enter "clean_up" :: rest
       end.
Proof.
  cbv zeta.
  destruct (encrypt_run_in_two_parts self fuel w)
    as (before & after & Hlog & Hbefore & Hafter).
  exists before, after. split; [exact Hlog|]. split.
  - eapply Forall_impl; [exact Hbefore|]. intros ev Hev. split; apply Hev.
  - destruct Hafter as [[Hexit ->]|(line & rest & -> & _)].
    + destruct (outcome_of _); [done|by left..].
    + destruct (outcome_of _); [|right..]; by exists line, rest.
Qed.

(** X5. One key serves a whole run of the encrypt script: [__init__] draws
    40 bytes with [os.urandom] once, no other key is drawn, every token is
    signed with these bytes and [HS256], and every content key policy the
    run creates or updates carries one option whose restriction has these
    bytes as primary verification key, with the issuer, the audience and
    the claim type of the settings. *)
Theorem encrypt_main_one_key W (H : Env W) fuel (w : W) :
  let r := EncryptWithAES.main fuel w in
  exists self,
    outcome_of (EncryptWithAES.init w) = Return self
    /\ drawn (log r) = [(40, EncryptWithAES.token_sign_key self)]
    /\ Forall (fun signature =>
                 signature = (EncryptWithAES.token_sign_key self, "HS256"))
         (signed (log r))
    /\ Forall (fun options =>
                 options
                 = [mkContentKeyPolicyOption ContentKeyPolicyClearKeyConfiguration
                      (mkContentKeyPolicyTokenRestriction
                         (EncryptWithAES.issuer self) (EncryptWithAES.audience self)
                         (EncryptWithAES.token_sign_key self) jwt None
                         [mkContentKeyPolicyTokenClaim
                            (EncryptWithAES.content_key_identifier_claim_type self)
                            None])])
         (installed (log r)).
Proof.
  cbv zeta. unfold EncryptWithAES.main, EncryptWithAES.init. exec.
  eexists. split; [reflexivity|].
  match goal with |- context [EncryptWithAES.run fuel ?s ?w1] =>
    destruct (encrypt_run_in_two_parts s fuel w1)
      as (before & after & Hlog & Hbefore & Hafter);
    cbn [log outcome_of fst snd] in *; rewrite log_after, Hlog
  end.
  assert (Forall (fun ev => drawn_by ev = None) after
          /\ Forall (fun ev => signed_by ev = None) after
          /\ Forall (fun ev => installed_by ev = None) after) as (Hd & Hs & Hi).
  { destruct Hafter as [[_ ->]|(line & rest & -> & Hrest)]; [by repeat split|].
    repeat split; repeat (constructor; [reflexivity|]);
      (eapply Forall_impl; [exact Hrest|]); intros ev Hev; apply Hev. }
  unfold drawn, signed, installed. rewrite !omap_app.
  rewrite (omap_every_none drawn_by _ after (fun ev Hev => Hev) Hd).
  rewrite (omap_every_none signed_by _ after (fun ev Hev => Hev) Hs).
  rewrite (omap_every_none installed_by _ after (fun ev Hev => Hev) Hi).
  rewrite !app_nil_r. split; [|split].
  - rewrite (omap_every_none drawn_by _ before (fun ev Hev => proj1 (proj2 (proj2 Hev)))
               Hbefore).
    reflexivity.
  - apply Forall_app_2; [by repeat constructor|].
    eapply Forall_omap_every; [|exact Hbefore].
    intros ev b (_ & _ & _ & Hsig & _) Hb. by rewrite Hb in Hsig.
  - apply Forall_app_2; [by repeat constructor|].
    eapply Forall_omap_every; [|exact Hbefore].
    intros ev b (_ & _ & _ & _ & Hopt) Hb. by rewrite Hb in Hopt.
Qed.

(** ** The live script *)

Section LiveFrame.
Context {W : Type} `{Env W}.
Variables (self : Live.Program) (n : Live.Names).

(** An event of the live script: it touches nothing but the resources the
    run names, and it does not stop or delete a streaming endpoint. *)
Local Abbreviation own :=
  (fun ev =>
     halts_endpoint ev = false
     /\ match touched_by ev with
        | Some res => res ∈ resources_of self n
        | None => True
        end).

Lemma create_live_event_own :
  emits (Live.create_live_event self (Live.resource_group_name self)
           (Live.account_name self) (Live.live_event_name n)) (every own).
Proof. unfold Live.create_live_event. emits_auto. Qed.

Lemma wait_for_live_event_own fuel :
  emits (Live.wait_for_live_event fuel self (Live.live_event_name n)) (every own).
Proof.
  induction fuel as [|fuel IH]; cbn [Live.wait_for_live_event]; emits_auto.
Qed.

Lemma collect_streaming_path_own endpoint vars path :
  emits (Live.collect_streaming_path (W := W) endpoint vars path) (every own).
Proof. unfold Live.collect_streaming_path. emits_auto. Qed.

Lemma clean_up_live_event_and_live_output_own rg acct :
  emits (Live.clean_up_live_event_and_live_output self rg acct
           (Live.live_event_name n)) (every own).
Proof. unfold Live.clean_up_live_event_and_live_output. emits_auto. Qed.

Lemma clean_up_locator_and_asset_own rg acct :
  emits (Live.clean_up_locator_and_asset self rg acct
           (Live.streaming_locator_name n) (Live.asset_name n)) (every own).
Proof. unfold Live.clean_up_locator_and_asset. emits_auto. Qed.

#[local] Hint Resolve create_live_event_own wait_for_live_event_own
  collect_streaming_path_own clean_up_live_event_and_live_output_own
  clean_up_locator_and_asset_own : emits.

Lemma try_body_own fuel : emits (Live.try_body fuel self n) (every own).
Proof. unfold Live.try_body. emits_auto. Qed.

Lemma finally_block_own : emits (Live.finally_block self n) (every own).
Proof. unfold Live.finally_block. emits_auto. Qed.

End LiveFrame.

(** X11. A run of the live script changes nothing but its own resources:
    every resource it creates, starts, stops or deletes is the live event,
    the archive asset, the live output or the streaming locator named
    after the UUID drawn at the start of the run, or the streaming endpoint
    ["default"], all under the resource group and the account of the
    settings.  The run never stops or deletes a streaming endpoint: an
    endpoint it started is left running. *)
Theorem live_run_touches_its_own W (H : Env W) fuel self (w : W) :
  let r := Live.run fuel self w in
  exists uuid tr,
    log r = Enter "run" :: Sys uuid_uuid1 uuid :: tr
    /\ Forall (fun res => res ∈ resources_of self (Live.make_names uuid))
         (touched (log r))
    /\ Forall (fun ev => halts_endpoint ev = false) (log r).
Proof.
  cbv zeta. pose proof (run_by_try_body fuel self w) as Hrun. cbv zeta in Hrun.
  set (uuid := (runtime uuid_uuid1 w).1) in *.
  set (n := Live.make_names uuid) in *.
  pose proof (try_body_own self n fuel (runtime uuid_uuid1 w).2) as Hbody.
  unfold every in Hbody.
  assert (exists tr,
            log (Live.run fuel self w) = Enter "run" :: Sys uuid_uuid1 uuid :: tr
            /\ Forall (fun ev =>
                         halts_endpoint ev = false
                         /\ match touched_by ev with
                            | Some res => res ∈ resources_of self n
                            | None => True
                            end) tr) as (tr & Hlog & Htr).
  { destruct (outcome_of (Live.try_body fuel self n (runtime uuid_uuid1 w).2))
      as [[]|e|].
    3:{ rewrite Hrun. by eexists. }
    all: destruct Hrun as (w' & ->); eexists; (split; [reflexivity|]).
    all: pose proof (finally_block_own self n w') as Hfin; unfold every in Hfin.
    all: apply Forall_app_2; [exact Hbody|]; apply Forall_app_2; [|exact Hfin].
    - constructor.
    - destruct e; by repeat constructor. }
  exists uuid, tr. split; [exact Hlog|]. rewrite Hlog. split.
  - change (Enter "run" :: Sys uuid_uuid1 uuid :: tr)
      with ([Enter "run"; Sys uuid_uuid1 uuid] ++ tr).
    rewrite touched_app. cbn [touched omap list_omap touched_by app].
    eapply Forall_omap_every; [|exact Htr].
    intros ev res [_ Hres] Hev. by rewrite Hev in Hres.
  - repeat (constructor; [reflexivity|]).
    eapply Forall_impl; [exact Htr|]. intros ev Hev. apply Hev.
Qed.

(** X8. [create_live_event] looks the media service up under the account
    it is passed, but creates the live event under the account of the
    settings, in the location of the media service found, with
    [auto_start] set.  When the media service is not found it raises
    [AttributeError] after announcing the creation, and nothing is
    created.  Its result is the answer of the creation. *)
Theorem create_live_event_cases W (H : Env W) self rg acct name (w : W) :
  let r := Live.create_live_event self rg acct name w in
  let lookup := Media (mediaservices_get rg acct) in
  let announce := Sys (py_print ("Creating a live event named " +:+ name)) tt in
  let allow_all := mkIPAccessControl [mkIPRange "AllowAll" "0.0.0.0" 0] in
  (exists e, outcome_of r = Raise e
             /\ log r = [Enter "create_live_event"; Call lookup (inl e)])
  \/ (outcome_of r = Raise (AttributeError
                             "'NoneType' object has no attribute 'location'")
      /\ log r = [Enter "create_live_event"; Call lookup (inr None); announce])
  \/ (exists service created,
        outcome_of r = answer created
        /\ log r
           = [Enter "create_live_event"; Call lookup (inr (Some service));
              announce;
              Sys (py_print
                     "Creating the LiveEvent, be patient this can take time...") tt;
              Call (Media (live_events_create rg (Live.account_name self) name
                             (mkLiveEventBody (MediaService_location service)
                                "Sample LiveEvent for testing" false
                                (mkLiveEventEncoding enc_none None) rtmp
                                allow_all allow_all [low_latency])
                             true))
                created]).
Proof.
  cbv zeta. unfold Live.create_live_event. rewrite bind_enter, bind_media.
  destruct (handle _ w) as [[e|[service|]] w1]; cbn [answer].
  - left. by exists e.
  - right. right. exec_split.
    + by eexists service, (inl _).
    + by eexists service, (inr _).
  - right. left. exec. repeat match goal with u : () |- _ => destruct u end.
    by split.
Qed.

(** X9. [clean_up_streaming_endpoint] makes no call when neither flag is
    set.  Otherwise it looks the endpoint up under the resource group and
    the account of the settings, stops it when it is found running (also
    when only [delete_endpoint] is set), and then sends the deletion when
    [delete_endpoint] is set, whether the endpoint was found or not.  An
    exception is that of its last call. *)
Theorem clean_up_streaming_endpoint_law W (H : Env W) self rg acct name
    asset stop_endpoint delete_endpoint (w : W) :
  let r := Live.clean_up_streaming_endpoint self rg acct name asset
             stop_endpoint delete_endpoint w in
  let own_rg := Live.resource_group_name self in
  let own_acct := Live.account_name self in
  match outcome_of r with
  | Return _ =>
    if stop_endpoint || delete_endpoint then
      exists endpoint,
        log r
        = Enter "clean_up_streaming_endpoint"
          :: Call (Media (streaming_endpoints_get own_rg own_acct name))
               (inr endpoint)
          :: match endpoint with
             | Some found =>
               if decide (StreamingEndpoint_resource_state found = se_running)
               then [Call (Media (streaming_endpoints_stop own_rg own_acct name))
                       (inr tt)]
               else []
             | None => []
             end
          ++ (if delete_endpoint
              then [Call (Media (streaming_endpoints_delete own_rg own_acct name))
                      (inr tt)]
              else [])
    else log r = [Enter "clean_up_streaming_endpoint"]
  | Raise e =>
    stop_endpoint || delete_endpoint = true
    /\ exists tr R (q : request R), log r = tr ++ [Call q (inl e)]
  | Running => False
  end.
Proof.
  cbv zeta. unfold Live.clean_up_streaming_endpoint.
  destruct (stop_endpoint || delete_endpoint) eqn:Hflags; [|by exec].
  exec_split; cbn [outcome_of log fst snd].
  { split; [done|]. eexists _, _, _. ends_with. }
  match goal with a : option StreamingEndpoint |- _ =>
    destruct a as [found|];
      [destruct (decide (StreamingEndpoint_resource_state found = se_running))|]
  end.
  all: destruct delete_endpoint.
  all: exec_split; cbn [outcome_of log fst snd].
  all: repeat match goal with u : () |- _ => destruct u end.
  all: try solve [split; [done|]; eexists _, _, _; ends_with].
  all: match goal with
       | _ : handle (Media (streaming_endpoints_get _ _ _)) _ = (inr ?a, _) |- _ =>
         exists a
       end; cbn beta iota; repeat case_decide; done.
Qed.

Lemma string_length_app (s1 s2 : string) :
  String.length (s1 +:+ s2) = String.length s1 + String.length s2.
Proof. induction s1 as [|c s1 IH]; simpl; [reflexivity|by f_equal]. Qed.

Section StreamingPaths.
Context {W : Type} `{Env W}.
Variable endpoint : StreamingEndpoint.

Local Abbreviation playable :=
  (fun path : StreamingPath =>
     StreamingPath_streaming_protocol path = dash /\ StreamingPath_paths path <> []).

(** The loop over the streaming paths, from any values of its two
    variables: it makes no call and does not raise; the text grows by each
    entry that has a path; the player path becomes the URL of the last DASH
    entry that has one. *)
Lemma for_fold_collect_streaming_path (paths : list StreamingPath) :
  forall player_path string_builder (w : W),
  exists player_path' string_builder',
    for_fold paths (player_path, string_builder)
      (Live.collect_streaming_path endpoint) w
    = (Return (player_path', string_builder'), w, [])
    /\ String.length string_builder <= String.length string_builder'
    /\ (if decide (String.length string_builder < String.length string_builder')
        then Exists (fun path => StreamingPath_paths path <> []) paths
        else Forall (fun path => StreamingPath_paths path = []) paths
             /\ string_builder' = string_builder)
    /\ match last (filter playable paths) with
       | None => player_path' = player_path
       | Some path =>
         exists first,
           head (StreamingPath_paths path) = Some first
           /\ player_path'
              = urlunparse "https" (StreamingEndpoint_host_name endpoint) first
       end.
Proof.
  induction paths as [|path paths IH]; intros player_path string_builder w.
  - exists player_path, string_builder. split; [reflexivity|]. split; [lia|].
    rewrite decide_False by lia. by repeat split.
  - cbn [for_fold].
    match goal with |- context [_ ≫= ?k] => set (rest := k) end.
    unfold Live.collect_streaming_path. rewrite filter_cons.
    destruct (StreamingPath_paths path) as [|first others] eqn:Hpaths.
    + rewrite bind_ret. subst rest. cbn beta. destruct (IH player_path string_builder w)
        as (pp & sb & Hrun & Hle & Hgrow & Hlast).
      exists pp, sb. split; [exact Hrun|]. split; [exact Hle|].
      rewrite (decide_False (P := _ /\ _)) by (by intros [_ ?]).
      split; [|exact Hlast].
      destruct (decide _); [by apply Exists_cons_tl|].
      destruct Hgrow as [Hall ->]. split; [by constructor|done].
    + set (sb1 := (_ +:+ urlunparse _ _ _)).
      assert (String.length string_builder < String.length sb1) as Hsb1.
      { subst sb1. rewrite !string_length_app. cbn. lia. }
      assert (Exists (fun p => StreamingPath_paths p <> []) (path :: paths)) as Hex.
      { apply Exists_cons_hd. by rewrite Hpaths. }
      destruct (decide (StreamingPath_streaming_protocol path = dash)) as [Hdash|Hother];
        rewrite bind_ret; subst rest; cbn beta.
      * destruct (IH (urlunparse "https" (StreamingEndpoint_host_name endpoint) first)
                    sb1 w) as (pp & sb & Hrun & Hle & _ & Hlast).
        exists pp, sb. split; [exact Hrun|]. split; [lia|].
        rewrite decide_True by lia. split; [exact Hex|].
        rewrite (decide_True (P := _ /\ _)) by done.
        rewrite last_cons. destruct (last _); [exact Hlast|].
        exists first. by rewrite Hpaths.
      * destruct (IH player_path sb1 w) as (pp & sb & Hrun & Hle & _ & Hlast).
        exists pp, sb. split; [exact Hrun|]. split; [lia|].
        rewrite decide_True by lia. split; [exact Hex|].
        rewrite (decide_False (P := _ /\ _)) by (by intros [? _]). exact Hlast.
Qed.

End StreamingPaths.

(** X10. The loop of the live script over the streaming paths makes no
    call and never raises, also on an entry without paths.  The text it
    builds is non-empty, which is the test that decides whether the
    operator is asked to stop the live output, exactly when some entry has
    a path.  The player path is empty when no DASH entry has a path, and
    otherwise the [https] URL made of the host name of the endpoint and
    the first path of the last such entry. *)
Theorem streaming_paths_collected W (H : Env W) endpoint paths (w : W) :
  exists player_path string_builder,
    for_fold paths ("", "") (Live.collect_streaming_path endpoint) w
    = (Return (player_path, string_builder), w, [])
    /\ (if decide (0 < String.length string_builder)
        then Exists (fun path => StreamingPath_paths path <> []) paths
        else Forall (fun path => StreamingPath_paths path = []) paths)
    /\ match last (filter (fun path =>
                             StreamingPath_streaming_protocol path = dash
                             /\ StreamingPath_paths path <> []) paths) with
       | None => player_path = ""
       | Some path =>
         exists first,
           head (StreamingPath_paths path) = Some first
           /\ player_path
              = urlunparse "https" (StreamingEndpoint_host_name endpoint) first
       end.
Proof.
  destruct (for_fold_collect_streaming_path endpoint paths "" "" w)
    as (pp & sb & Hrun & _ & Hgrow & Hlast).
  exists pp, sb. split; [exact Hrun|]. split; [|exact Hlast].
  cbn [String.length] in Hgrow. destruct (decide _); [exact Hgrow|apply Hgrow].
Qed.

(** ** The analyze script: when it downloads *)

Section AnalyzeRun.
Context {W : Type} `{Env W}.

(** An event that neither enters [download_output_asset] nor fetches the
    job. *)
Local Abbreviation quiet :=
  (fun ev => entered "download_output_asset" ev = false /\ fetched_by ev = None).

(** [download_output_asset] was entered if and only if the last fetch of
    the job found it finished; a job last found in error or canceled lets
    the script return, and one last found in another state keeps it
    polling. *)
Local Abbreviation settled :=
  (fun (x : exit) (tr : list event) =>
     invocations "download_output_asset" tr
     = match last (fetched tr) with
       | Some (inr (Some job)) => if decide (Job_state job = finished) then 1 else 0
       | _ => 0
       end
     /\ match last (fetched tr) with
        | Some (inr (Some job)) =>
          Job_state job = finished
          \/ (terminal (Job_state job) = true /\ x = Returned)
          \/ (terminal (Job_state job) = false /\ x = Unfinished)
        | _ => True
        end).

Lemma quiet_fetched tr : Forall quiet tr -> fetched tr = [].
Proof. apply omap_every_none. intros ev Hev. apply Hev. Qed.

Lemma quiet_invocations tr :
  Forall quiet tr -> invocations "download_output_asset" tr = 0.
Proof.
  intros Htr. apply invocations_none. eapply Forall_impl; [exact Htr|].
  intros ev Hev. apply Hev.
Qed.

Lemma settled_seq tr1 x tr2 :
  every quiet Returned tr1 -> settled x tr2 -> settled x (tr1 ++ tr2).
Proof.
  intros H1 H2. cbn beta in *.
  by rewrite invocations_app, fetched_app, (quiet_fetched tr1 H1),
    (quiet_invocations tr1 H1).
Qed.

Lemma settled_quiet x tr : every quiet x tr -> settled x tr.
Proof.
  intros Htr. cbn beta.
  by rewrite (quiet_fetched tr Htr), (quiet_invocations tr Htr).
Qed.

Lemma analyze_get_or_create_transform_quiet rg acct name preset :
  emits (AnalyzeVideoAndAudios.get_or_create_transform rg acct name preset)
    (every quiet).
Proof. unfold AnalyzeVideoAndAudios.get_or_create_transform. emits_auto. Qed.

Lemma analyze_create_input_asset_quiet rg acct name file :
  emits (AnalyzeVideoAndAudios.create_input_asset rg acct name file) (every quiet).
Proof. unfold AnalyzeVideoAndAudios.create_input_asset. emits_auto. Qed.

Lemma analyze_create_output_asset_quiet rg acct name :
  emits (AnalyzeVideoAndAudios.create_output_asset rg acct name) (every quiet).
Proof. unfold AnalyzeVideoAndAudios.create_output_asset. emits_auto. Qed.

Lemma analyze_submit_job_quiet rg acct tn jn input output :
  emits (AnalyzeVideoAndAudios.submit_job rg acct tn jn input output) (every quiet).
Proof. unfold AnalyzeVideoAndAudios.submit_job. emits_auto. Qed.

(** The poller does not enter [download_output_asset]. *)
Local Abbreviation outside :=
  (fun ev => entered "download_output_asset" ev = false).

Lemma analyze_print_job_output_outside job i :
  emits (AnalyzeVideoAndAudios.print_job_output job i) (every outside).
Proof. unfold AnalyzeVideoAndAudios.print_job_output. emits_auto. Qed.

#[local] Hint Resolve analyze_print_job_output_outside : emits.

Lemma analyze_wait_for_job_to_finish_loop_outside fuel rg acct tn jn :
  emits (AnalyzeVideoAndAudios.wait_for_job_to_finish_loop fuel rg acct tn jn)
    (every outside).
Proof.
  induction fuel as [|fuel IH];
    cbn [AnalyzeVideoAndAudios.wait_for_job_to_finish_loop]; emits_auto.
Qed.

(** [download_output_asset] is entered once by a call of it, and fetches
    no job. *)
Lemma analyze_download_output_asset_once rg acct name folder (w : W) :
  let r := AnalyzeVideoAndAudios.download_output_asset rg acct name folder w in
  invocations "download_output_asset" (log r) = 1 /\ fetched (log r) = [].
Proof.
  cbv zeta. unfold AnalyzeVideoAndAudios.download_output_asset.
  rewrite bind_enter, log_after.
  match goal with |- context [log (?m ?w1)] =>
    assert (emits m (every quiet)) as Hm by emits_auto; specialize (Hm w1)
  end.
  rewrite invocations_app, fetched_app, (quiet_fetched _ Hm),
    (quiet_invocations _ Hm).
  by split.
Qed.

Lemma last_found_waiting waited :
  Forall (fun job => terminal (Job_state job) = false) waited ->
  match last (map found waited) with
  | Some (inr (Some job)) => terminal (Job_state job) = false
  | Some _ => False
  | None => True
  end.
Proof.
  induction 1 as [|job waited Hjob _ IH]; [done|].
  cbn [map]. rewrite last_cons. by destruct (last (map found waited)).
Qed.

Lemma analyze_download_step rg acct name folder (w : W) :
  let r := (print "Job finished.";;
            AnalyzeVideoAndAudios.download_output_asset rg acct name folder;;
            print "Done.") w in
  invocations "download_output_asset" (log r) = 1 /\ fetched (log r) = [].
Proof.
  cbv zeta. rewrite bind_print, log_after, run_bind.
  destruct (analyze_download_output_asset_once rg acct name folder
              (runtime (py_print "Job finished.") w).2) as [Hcount Hfetched].
  destruct (AnalyzeVideoAndAudios.download_output_asset _ _ _ _ _)
    as [[[[]|e|] w1] tr]; cbn [log outcome_of fst snd] in *;
    rewrite ?run_print; cbn [after log fst snd];
    rewrite !invocations_app, !fetched_app, ?Hcount, ?Hfetched; by split.
Qed.

#[local] Hint Resolve analyze_get_or_create_transform_quiet
  analyze_create_input_asset_quiet analyze_create_output_asset_quiet
  analyze_submit_job_quiet : emits.

Lemma analyze_run_settled fuel self :
  emits (AnalyzeVideoAndAudios.run fuel self) settled.
Proof.
  unfold AnalyzeVideoAndAudios.run.
  repeat lazymatch goal with
  | |- emits (AnalyzeVideoAndAudios.wait_for_job_to_finish _ _ _ _ _ ≫= _) _ => fail
  | |- emits (_ ≫= _) _ =>
    eapply (emits_bind_with (every quiet) settled);
      [apply settled_seq | intros; by apply settled_quiet
       | intros; by apply settled_quiet | emits_auto | intros ?]
  end.
  intros w. rewrite run_bind. unfold AnalyzeVideoAndAudios.wait_for_job_to_finish.
  rewrite bind_enter.
  match goal with |- context [AnalyzeVideoAndAudios.wait_for_job_to_finish_loop
                                ?f ?rg ?acct ?tn ?jn ?w1] =>
    pose proof (wait_for_job_to_finish_loop_law f rg acct tn jn w1) as Hlaw;
    pose proof (analyze_wait_for_job_to_finish_loop_outside f rg acct tn jn w1)
      as Hout;
    destruct (AnalyzeVideoAndAudios.wait_for_job_to_finish_loop f rg acct tn jn w1)
      as [[o w2] tr]
  end.
  cbv zeta in Hlaw. cbn [outcome_of log fst snd] in Hlaw, Hout.
  apply invocations_none in Hout.
  destruct Hlaw as (waited & Hwaited & Hlaw).
  rewrite after_result. cbn [app].
  assert (forall tr', invocations "download_output_asset"
                        (Enter "wait_for_job_to_finish" :: tr')
                      = invocations "download_output_asset" tr') as Henter.
  { intros tr'. change (Enter "wait_for_job_to_finish" :: tr')
      with ([Enter "wait_for_job_to_finish"] ++ tr').
    by rewrite invocations_app. }
  assert (forall tr', fetched (Enter "wait_for_job_to_finish" :: tr') = fetched tr')
    as Hskip by reflexivity.
  destruct o as [job|e|]; cbn [outcome_of log fst snd].
  - destruct Hlaw as (Hterm & Hfetched & _).
    rewrite outcome_after, log_after. cbn [app].
    destruct (decide (Job_state job = finished)) as [Hfin|Hfin].
    + match goal with |- context [log (?m ?w1)] =>
        destruct (analyze_download_step
                    (AnalyzeVideoAndAudios.resource_group_name self)
                    (AnalyzeVideoAndAudios.account_name self)
                    (Asset_name a3) "output" w1) as [Hcount Hnone]
      end.
      rewrite Henter, Hskip, invocations_app, fetched_app, Hout, Hcount, Hnone,
        Hfetched, app_nil_r, last_snoc.
      cbn [found]. rewrite decide_True by done. split; [done|by left].
    + cbn [ret log fst snd]. rewrite app_nil_r, Henter, Hskip, Hout, Hfetched,
        last_snoc.
      cbn [found]. rewrite decide_False by done. split; [done|].
      right. left. by split.
  - rewrite Henter, Hskip, Hout.
    destruct Hlaw as [[->|[-> _]] _]; rewrite last_snoc; by split.
  - rewrite Henter, Hskip, Hout. destruct Hlaw as (-> & _).
    pose proof (last_found_waiting waited Hwaited) as Hlast.
    destruct (last (map found waited)) as [[e|[job|]]|]; try done.
    rewrite decide_False.
    + split; [done|]. right. right. by split.
    + intros Hfin. by rewrite Hfin in Hlast.
Qed.


End AnalyzeRun.

(** X12. The analyze script enters [download_output_asset] at most once,
    and exactly when the last fetch of its job found the job finished.
    When the job was last found in error or canceled the script returns
    without a download; when it was last found in any other state the
    script is still polling. *)
Theorem analyze_run_downloads_finished_job W (H : Env W) fuel self (w : W) :
  let r := AnalyzeVideoAndAudios.run fuel self w in
  invocations "download_output_asset" (log r)
  = match last (fetched (log r)) with
    | Some (inr (Some job)) => if decide (Job_state job = finished) then 1 else 0
    | _ => 0
    end
  /\ match last (fetched (log r)) with
     | Some (inr (Some job)) =>
       Job_state job = finished
       \/ (terminal (Job_state job) = true /\ outcome_of r = Return tt)
       \/ (terminal (Job_state job) = false /\ outcome_of r = Running)
     | _ => True
     end.
Proof.
  cbv zeta. destruct (analyze_run_settled fuel self w) as [Hcount Hend].
  split; [exact Hcount|].
  destruct (last _) as [[e|[job|]]|]; try done.
  destruct Hend as [Hfin|[[Hterm Hx]|[Hterm Hx]]]; [by left|right; left|right; right];
    (split; [exact Hterm|]); by destruct (outcome_of _) as [[]|e|].
Qed.

(** ** The encrypt script: when it publishes *)

Section EncryptPublish.
Context {W : Type} `{Env W}.
Variable self : EncryptWithAES.Program.

(** An event that neither enters [get_or_create_content_key_policy], nor
    fetches the job, nor prompts for the cleanup. *)
Local Abbreviation calm :=
  (fun ev =>
     entered "get_or_create_content_key_policy" ev = false
     /\ fetched_by ev = None
     /\ prompted "press any key to continue" ev = false).

Local Abbreviation publishing :=
  (fun ev =>
     entered "get_or_create_content_key_policy" ev = false
     /\ fetched_by ev = None).

(** The script set about publishing if and only if the last fetch of the
    job found it finished; a job last found in error or canceled takes it
    to the prompt of the cleanup, and one last found in another state
    keeps it polling. *)
Local Abbreviation decided :=
  (fun (x : exit) (tr : list event) =>
     invocations "get_or_create_content_key_policy" tr
     = match last (fetched tr) with
       | Some (inr (Some job)) => if decide (Job_state job = finished) then 1 else 0
       | _ => 0
       end
     /\ match last (fetched tr) with
        | Some (inr (Some job)) =>
          Job_state job = finished
          \/ (terminal (Job_state job) = true
              /\ prompts "press any key to continue" tr = 1)
          \/ (terminal (Job_state job) = false /\ x = Unfinished)
        | _ => True
        end).

Lemma calm_fetched tr : Forall calm tr -> fetched tr = [].
Proof. apply omap_every_none. intros ev Hev. apply Hev. Qed.

Lemma calm_invocations tr :
  Forall calm tr -> invocations "get_or_create_content_key_policy" tr = 0.
Proof.
  intros Htr. apply invocations_none. eapply Forall_impl; [exact Htr|].
  intros ev Hev. apply Hev.
Qed.

Lemma calm_prompts tr :
  Forall calm tr -> prompts "press any key to continue" tr = 0.
Proof.
  unfold prompts. induction 1 as [|ev tr Hev _ IH]; [reflexivity|].
  rewrite filter_cons, decide_False; [exact IH|].
  destruct Hev as (_ & _ & Hev). by rewrite Hev.
Qed.

Lemma publishing_fetched tr : Forall publishing tr -> fetched tr = [].
Proof. apply omap_every_none. intros ev Hev. apply Hev. Qed.

Lemma publishing_invocations tr :
  Forall publishing tr -> invocations "get_or_create_content_key_policy" tr = 0.
Proof.
  intros Htr. apply invocations_none. eapply Forall_impl; [exact Htr|].
  intros ev Hev. apply Hev.
Qed.

Lemma decided_seq tr1 x tr2 :
  every calm Returned tr1 -> decided x tr2 -> decided x (tr1 ++ tr2).
Proof.
  intros H1 H2. cbn beta in *.
  by rewrite invocations_app, fetched_app, prompts_app, (calm_fetched tr1 H1),
    (calm_invocations tr1 H1), (calm_prompts tr1 H1).
Qed.

Lemma decided_calm x tr : every calm x tr -> decided x tr.
Proof.
  intros Htr. cbn beta.
  by rewrite (calm_fetched tr Htr), (calm_invocations tr Htr).
Qed.

(** Once [get_or_create_content_key_policy] is entered: one entry, no
    fetch of the job. *)
Local Abbreviation entered_once :=
  (fun (x : exit) (tr : list event) =>
     fetched tr = []
     /\ invocations "get_or_create_content_key_policy" tr = 1).

Lemma entered_once_then tr1 x tr2 :
  entered_once Returned tr1 -> every publishing x tr2 -> entered_once x (tr1 ++ tr2).
Proof.
  intros [H1 H1'] H2. cbn beta.
  by rewrite invocations_app, fetched_app, H1, H1', (publishing_fetched tr2 H2),
    (publishing_invocations tr2 H2).
Qed.

Lemma entered_once_after tr1 x tr2 :
  every publishing Returned tr1 -> entered_once x tr2 -> entered_once x (tr1 ++ tr2).
Proof.
  intros H1 [H2 H2']. cbn beta.
  by rewrite invocations_app, fetched_app, H2, H2', (publishing_fetched tr1 H1),
    (publishing_invocations tr1 H1).
Qed.

(** The poller neither enters [get_or_create_content_key_policy] nor
    prompts. *)
Local Abbreviation polling :=
  (fun ev =>
     entered "get_or_create_content_key_policy" ev = false
     /\ prompted "press any key to continue" ev = false).

Lemma analyze_print_job_output_polling job i :
  emits (AnalyzeVideoAndAudios.print_job_output job i) (every polling).
Proof. unfold AnalyzeVideoAndAudios.print_job_output. emits_auto. Qed.

#[local] Hint Resolve analyze_print_job_output_polling : emits.

Lemma analyze_wait_for_job_to_finish_loop_polling fuel rg acct tn jn :
  emits (AnalyzeVideoAndAudios.wait_for_job_to_finish_loop fuel rg acct tn jn)
    (every polling).
Proof.
  induction fuel as [|fuel IH];
    cbn [AnalyzeVideoAndAudios.wait_for_job_to_finish_loop]; emits_auto.
Qed.

Lemma polling_counts tr :
  Forall polling tr ->
  invocations "get_or_create_content_key_policy" tr = 0
  /\ prompts "press any key to continue" tr = 0.
Proof.
  intros Htr. split.
  - apply invocations_none. eapply Forall_impl; [exact Htr|].
    intros ev Hev. apply Hev.
  - unfold prompts. induction Htr as [|ev tr Hev _ IH]; [reflexivity|].
    rewrite filter_cons, decide_False; [exact IH|].
    destruct Hev as (_ & Hev). by rewrite Hev.
Qed.

Lemma encrypt_run_decided fuel : emits (EncryptWithAES.run fuel self) decided.
Proof.
  unfold EncryptWithAES.run.
  repeat lazymatch goal with
  | |- emits (EncryptWithAES.wait_for_job_to_finish _ _ _ _ _ ≫= _) _ => fail
  | |- emits (_ ≫= _) _ =>
    eapply (emits_bind_with (every calm) decided);
      [apply decided_seq | intros; by apply decided_calm
       | intros; by apply decided_calm
       | unfold EncryptWithAES.get_or_create_transform,
           EncryptWithAES.create_input_asset, EncryptWithAES.create_output_asset,
           EncryptWithAES.submit_job; emits_auto
       | intros ?]
  end.
  intros w. rewrite run_bind.
  change (EncryptWithAES.wait_for_job_to_finish fuel ?rg ?acct ?tn ?jn)
    with (AnalyzeVideoAndAudios.wait_for_job_to_finish fuel rg acct tn jn).
  unfold AnalyzeVideoAndAudios.wait_for_job_to_finish. rewrite bind_enter.
  match goal with |- context [AnalyzeVideoAndAudios.wait_for_job_to_finish_loop
                                ?f ?rg ?acct ?tn ?jn ?w1] =>
    pose proof (wait_for_job_to_finish_loop_law f rg acct tn jn w1) as Hlaw;
    pose proof (analyze_wait_for_job_to_finish_loop_polling f rg acct tn jn w1)
      as Hpoll;
    destruct (AnalyzeVideoAndAudios.wait_for_job_to_finish_loop f rg acct tn jn w1)
      as [[o w2] tr]
  end.
  cbv zeta in Hlaw. cbn [outcome_of log fst snd] in Hlaw, Hpoll.
  apply polling_counts in Hpoll as [Hnone Hquiet].
  destruct Hlaw as (waited & Hwaited & Hlaw).
  rewrite after_result. cbn [app].
  assert (forall tr', invocations "get_or_create_content_key_policy"
                        (Enter "wait_for_job_to_finish" :: tr')
                      = invocations "get_or_create_content_key_policy" tr')
    as Henter.
  { intros tr'. change (Enter "wait_for_job_to_finish" :: tr')
      with ([Enter "wait_for_job_to_finish"] ++ tr').
    by rewrite invocations_app. }
  assert (forall tr', prompts "press any key to continue"
                        (Enter "wait_for_job_to_finish" :: tr')
                      = prompts "press any key to continue" tr') as Hprompt.
  { intros tr'. change (Enter "wait_for_job_to_finish" :: tr')
      with ([Enter "wait_for_job_to_finish"] ++ tr').
    by rewrite prompts_app. }
  assert (forall tr', fetched (Enter "wait_for_job_to_finish" :: tr') = fetched tr')
    as Hskip by reflexivity.
  destruct o as [job|e|]; cbn [outcome_of log fst snd].
  - destruct Hlaw as (Hterm & Hfetched & _).
    rewrite outcome_after, log_after. cbn [app].
    destruct (decide (Job_state job = finished)) as [Hfin|Hfin].
    + unfold EncryptWithAES.get_or_create_content_key_policy. exec.
      rewrite log_after.
      match goal with |- context [log (?m ?w3)] =>
        assert (emits m (every publishing)) as Hm
          by (unfold EncryptWithAES.create_streaming_locator,
                EncryptWithAES.get_token, EncryptWithAES.get_dash_streaming_url,
                EncryptWithAES.clean_up; emits_auto);
        specialize (Hm w3); unfold every in Hm;
        pose proof (publishing_fetched _ Hm) as Hm1;
        pose proof (publishing_invocations _ Hm) as Hm2
      end.
      rewrite Henter, Hskip, !invocations_app, !fetched_app, Hnone, Hm1, Hm2,
        Hfetched, !app_nil_r, last_snoc.
      cbn [found]. rewrite decide_True by done. split; [done|by left].
    + exec. rewrite bind_call.
      destruct (handle _ _) as [[e|line] w4]; exec; cbn [log fst snd].
      { rewrite Henter, Hskip, Hprompt, !invocations_app, !fetched_app,
          !prompts_app, Hnone, Hquiet, Hfetched.
        change (fetched [_; Call (py_input _) _]) with (@nil (exn + option Job)).
        rewrite app_nil_r, last_snoc.
        cbn [found]. rewrite decide_False by done. split; [done|].
        right. left. by split. }
      rewrite log_after.
      match goal with |- context [log (?m ?w3)] =>
        assert (emits m (every calm)) as Hm
          by (unfold EncryptWithAES.clean_up; emits_auto);
        specialize (Hm w3); unfold every in Hm;
        pose proof (calm_fetched _ Hm) as Hm1;
        pose proof (calm_invocations _ Hm) as Hm2;
        pose proof (calm_prompts _ Hm) as Hm3
      end.
      rewrite Henter, Hskip, Hprompt, !invocations_app, !fetched_app, !prompts_app,
        Hnone, Hquiet, Hm1, Hm2, Hm3, Hfetched, !app_nil_r, last_snoc.
      cbn [found]. rewrite decide_False by done. split; [done|].
      right. left. by split.
  - rewrite Henter, Hskip, Hnone.
    destruct Hlaw as [[->|[-> _]] _]; rewrite last_snoc; by split.
  - rewrite Henter, Hskip, Hnone. destruct Hlaw as (-> & _).
    pose proof (last_found_waiting waited Hwaited) as Hlast.
    destruct (last (map found waited)) as [[e|[job|]]|]; try done.
    rewrite decide_False.
    + split; [done|]. right. right. by split.
    + intros Hfin. by rewrite Hfin in Hlast.
Qed.

End EncryptPublish.

(** X13. The encrypt script enters [get_or_create_content_key_policy], the
    first step of publishing the output, at most once, and exactly when
    the last fetch of its job found the job finished.  When the job was
    last found in error or canceled nothing is published and the operator
    is prompted for the cleanup; when it was last found in any other state
    the script is still polling. *)
Theorem encrypt_run_publishes_finished_job W (H : Env W) fuel self (w : W) :
  let r := EncryptWithAES.run fuel self w in
  invocations "get_or_create_content_key_policy" (log r)
  = match last (fetched (log r)) with
    | Some (inr (Some job)) => if decide (Job_state job = finished) then 1 else 0
    | _ => 0
    end
  /\ match last (fetched (log r)) with
     | Some (inr (Some job)) =>
       Job_state job = finished
       \/ (terminal (Job_state job) = true
           /\ prompts "press any key to continue" (log r) = 1)
       \/ (terminal (Job_state job) = false /\ outcome_of r = Running)
     | _ => True
     end.
Proof.
  cbv zeta. destruct (encrypt_run_decided self fuel w) as [Hcount Hend].
  split; [exact Hcount|].
  destruct (last _) as [[e|[job|]]|]; try done.
  destruct Hend as [Hfin|[[Hterm Hx]|[Hterm Hx]]]; [by left|right; left|right; right];
    (split; [exact Hterm|]); [exact Hx|by destruct (outcome_of _) as [[]|e|]].
Qed.
